(** * PostGIS raster WKB reader (plugins/input/pgraster/pgraster_wkb_reader.cpp)

    A shallow embedding of the reader of mapnik's pgraster input plugin and
    the properties of its decoding: the byte cursor ([read_uint8],
    [read_uint16], [read_uint32], [read_int32], [read_float64]), the two
    band decoders ([read_grayscale], [read_rgb]) and the entry point
    [get_raster].

    Conventions of the embedding.
    - The bytes reachable from the [wkb] pointer are a [list byte]; the
      cursor [ptr_] is an offset into it.  The list is the addressable
      memory starting at the first byte of the buffer: the buffer proper is
      its first [wkbsize_] bytes.
    - A computation is a function [state -> option (A * state)]; [None] is an
      access outside the addressable memory (a read past the last byte of
      [wkb], a store outside the image), for which C++ defines no outcome.
    - [uint16_t], [uint32_t], [uint64_t] and [int] are [Z] with the
      wrap-around written out ([int] as two's complement: its overflow has
      no defined outcome in C++, and the properties below assume the pixel
      offsets fit); [double] is IEEE-754 binary64 as the [spec_float] of
      the standard library with precision 53 and maximal exponent 1024,
      every operation rounded on its own.
    - MAPNIK_LOG_WARN is a list of warnings kept next to the reader's
      fields; MAPNIK_LOG_DEBUG lines are not modelled. *)

From Stdlib Require Import ZArith List Bool Lia.
From Stdlib.Strings Require Import Byte.
From Stdlib Require Import Floats.SpecFloat.
Import ListNotations.

Local Open Scope Z_scope.

(** ** Machine integers *)

Definition u8 (b : byte) : Z := Z.of_N (Byte.to_N b).

(** The byte with the given value (used to write inputs down). *)
Definition byte_of (z : Z) : byte :=
  match Byte.of_N (Z.to_N (z mod 256)) with
  | Some b => b
  | None => x00
  end.

Definition uint16 (z : Z) : Z := z mod 2 ^ 16.
Definition uint32 (z : Z) : Z := z mod 2 ^ 32.
Definition uint64 (z : Z) : Z := z mod 2 ^ 64.

(** [int] and [int32_t]: two's complement on 32 bits. *)
Definition int32 (z : Z) : Z := (z + 2 ^ 31) mod 2 ^ 32 - 2 ^ 31.

Definition INT_MAX : Z := 2 ^ 31 - 1.

(** An integer used as a condition. *)
Definition nonzero (z : Z) : bool := negb (z =? 0).

(** ** Doubles *)

Definition double : Type := spec_float.

Definition prec : Z := 53.
Definition emax : Z := 1024.

(** The [union { double d; uint64_t i; }] of [read_float64]: the double whose
    binary64 representation is the 64-bit integer [i]. *)
Definition double_of_bits (i : Z) : double :=
  let s := Z.testbit i 63 in
  let e := Z.land (Z.shiftr i 52) 2047 in
  let m := Z.land i (2 ^ 52 - 1) in
  if e =? 0 then
    match m with
    | Zpos p => S754_finite s p (-1074)
    | _ => S754_zero s
    end
  else if e =? 2047 then
    (if m =? 0 then S754_infinity s else S754_nan)
  else
    match m + 2 ^ 52 with
    | Zpos p => S754_finite s p (e - 1075)
    | _ => S754_nan
    end.

(** Conversion of an integer to [double] (exact below 2^53). *)
Definition double_of_int (z : Z) : double := binary_normalize prec emax z 0 false.

Definition dadd (x y : double) : double := SFadd prec emax x y.
Definition dmul (x y : double) : double := SFmul prec emax x y.
Definition dlt (x y : double) : bool := SFltb x y.

(** A double used as a condition: true unless it compares equal to zero. *)
Definition dtrue (x : double) : bool := negb (SFeqb x (S754_zero false)).

(** ** rt_pixtype and the band type byte *)

Definition PT_1BB : Z := 0.     (* 1-bit boolean *)
Definition PT_2BUI : Z := 1.    (* 2-bit unsigned integer *)
Definition PT_4BUI : Z := 2.    (* 4-bit unsigned integer *)
Definition PT_8BSI : Z := 3.    (* 8-bit signed integer *)
Definition PT_8BUI : Z := 4.    (* 8-bit unsigned integer *)
Definition PT_16BSI : Z := 5.   (* 16-bit signed integer *)
Definition PT_16BUI : Z := 6.   (* 16-bit unsigned integer *)
Definition PT_32BSI : Z := 7.   (* 32-bit signed integer *)
Definition PT_32BUI : Z := 8.   (* 32-bit unsigned integer *)
Definition PT_32BF : Z := 10.   (* 32-bit float *)
Definition PT_64BF : Z := 11.   (* 64-bit float *)
Definition PT_END : Z := 13.

Definition BANDTYPE_FLAGS_MASK : Z := 240.
Definition BANDTYPE_PIXTYPE_MASK : Z := 15.
Definition BANDTYPE_FLAG_OFFDB : Z := Z.shiftl 1 7.
Definition BANDTYPE_FLAG_HASNODATA : Z := Z.shiftl 1 6.
Definition BANDTYPE_FLAG_ISNODATA : Z := Z.shiftl 1 5.
Definition BANDTYPE_FLAG_RESERVED3 : Z := Z.shiftl 1 4.

Definition BANDTYPE_PIXTYPE (x : Z) : Z := Z.land x BANDTYPE_PIXTYPE_MASK.
Definition BANDTYPE_IS_OFFDB (x : Z) : Z := Z.land x BANDTYPE_FLAG_OFFDB.
Definition BANDTYPE_HAS_NODATA (x : Z) : Z := Z.land x BANDTYPE_FLAG_HASNODATA.
Definition BANDTYPE_IS_NODATA (x : Z) : Z := Z.land x BANDTYPE_FLAG_ISNODATA.

(** ** box2d and raster *)

Record box2d : Type := mk_box2d
  { minx_ : double; miny_ : double; maxx_ : double; maxy_ : double }.

(** Modelled from the spec: the constructor [box2d<double>(x0,y0,x1,y1)]
    (mapnik/box2d.hpp, not part of the sources at hand).  The extent is kept
    with its bounds ordered, the smaller coordinate as the minimum, on each
    axis. *)
Definition box2d_init (x0 y0 x1 y1 : double) : box2d :=
  let '(lox, hix) := if dlt x0 x1 then (x0, x1) else (x1, x0) in
  let '(loy, hiy) := if dlt y0 y1 then (y0, y1) else (y1, y0) in
  mk_box2d lox loy hix hiy.

(** [mapnik::raster]: the extent, the image ([image_data_32], 4 bytes a
    pixel, row-major, seen through [getBytes()]) and the premultiplied
    flag. *)
Record raster : Type := mk_raster
  { ext_ : box2d;
    data_width : Z;
    data_height : Z;
    data_ : list byte;
    premultiplied_alpha_ : bool }.

(** Modelled from the spec: the constructor [raster(ext, width, height)]
    (mapnik/raster.hpp and image_data.hpp, not part of the sources at hand):
    a freshly allocated image of [width * height] pixels of 4 bytes, zeroed,
    not premultiplied. *)
Definition new_raster (ext : box2d) (width height : Z) : raster :=
  mk_raster ext width height
            (repeat x00 (Z.to_nat (4 * width * height))) false.

(** [image.set(0xffffffff)]: every pixel, hence every byte, all ones. *)
Definition image_set_white (r : raster) : raster :=
  mk_raster (ext_ r) (data_width r) (data_height r)
            (map (fun _ => xff) (data_ r)) (premultiplied_alpha_ r).

Definition set_premultiplied (b : bool) (r : raster) : raster :=
  mk_raster (ext_ r) (data_width r) (data_height r) (data_ r) b.

Definition set_data (d : list byte) (r : raster) : raster :=
  mk_raster (ext_ r) (data_width r) (data_height r) d (premultiplied_alpha_ r).

(** ** Warnings *)

Inductive warning : Type :=
| W_version (version : Z)                 (* WKB version unsupported *)
| W_rotation                              (* raster rotation is not supported *)
| W_bands (numBands : Z)                  (* raster with n bands is not supported *)
| W_offline (bn : option Z)               (* offline band unsupported *)
| W_bandtype (bn : option Z) (type : byte)  (* band type unsupported *)
| W_nodata_unsupported                    (* nodata value unsupported *)
| W_nodataval (bn : Z) (tmp nodataval : byte). (* nodataval != band 0 nodataval *)

(** ** The reader *)

(** Modelled from the spec: the fields of class [pgraster_wkb_reader]
    (pgraster_wkb_reader.hpp, not part of the sources at hand): the size
    given to the constructor, the cursor, and the three 16-bit header
    fields the decoders use.  [warnings] is the log. *)
Record state : Type := mk_state
  { wkbsize_ : Z;
    ptr_ : nat;
    numBands_ : Z;
    width_ : Z;
    height_ : Z;
    warnings : list warning }.

(** The constructor: cursor at the first byte of the buffer. *)
Definition pgraster_wkb_reader (size : Z) : state :=
  mk_state size 0%nat 0 0 0 [].

Definition advance (n : nat) (s : state) : state :=
  mk_state (wkbsize_ s) (ptr_ s + n)%nat (numBands_ s) (width_ s) (height_ s)
           (warnings s).

Definition M (A : Type) : Type := state -> option (A * state).

Definition ret {A} (a : A) : M A := fun s => Some (a, s).

Definition bind {A B} (m : M A) (k : A -> M B) : M B :=
  fun s => match m s with
           | Some (a, s') => k a s'
           | None => None
           end.

Notation "x <- m ;; k" := (bind m (fun x => k))
  (at level 61, m at next level, right associativity).
Notation "m ;;; k" := (bind m (fun _ => k))
  (at level 61, right associativity).

Definition get {A} (f : state -> A) : M A := fun s => Some (f s, s).

Definition warn (w : warning) : M unit :=
  fun s => Some (tt, mk_state (wkbsize_ s) (ptr_ s) (numBands_ s) (width_ s)
                              (height_ s) (warnings s ++ [w])).

Definition set_numBands (v : Z) : M unit :=
  fun s => Some (tt, mk_state (wkbsize_ s) (ptr_ s) v (width_ s) (height_ s)
                              (warnings s)).
Definition set_width (v : Z) : M unit :=
  fun s => Some (tt, mk_state (wkbsize_ s) (ptr_ s) (numBands_ s) v (height_ s)
                              (warnings s)).
Definition set_height (v : Z) : M unit :=
  fun s => Some (tt, mk_state (wkbsize_ s) (ptr_ s) (numBands_ s) (width_ s) v
                              (warnings s)).

(** [for (int i = 0; i < n; ++i) body], with the variables the body
    updates threaded through as [a].  [continue] is the body returning. *)
Fixpoint for_loop {A} (n : nat) (i : Z) (body : Z -> A -> M A) (a : A) : M A :=
  match n with
  | O => ret a
  | S n' => a' <- body i a ;; for_loop n' (i + 1) body a'
  end.

(** The list [l] with its element of index [i] replaced by [v]. *)
Fixpoint upd {A} (i : nat) (v : A) (l : list A) : list A :=
  match l with
  | [] => []
  | x :: t => match i with
              | O => v :: t
              | S i' => x :: upd i' v t
              end
  end.

(** [image_data[off] = val]. *)
Definition store (off : Z) (val : byte) (d : list byte) : M (list byte) :=
  fun s =>
    if (0 <=? off) && (off <? Z.of_nat (length d))
    then Some (upd (Z.to_nat off) val d, s)
    else None.

Section Cursor.

(** The memory behind the [wkb] pointer. *)
Variable wkb : list byte.

(** [from[0][i]]: the byte [i] places after the cursor. *)
Definition peek (i : nat) : M Z :=
  fun s => match nth_error wkb (ptr_ s + i) with
           | Some b => Some (u8 b, s)
           | None => None
           end.

Definition skip (n : nat) : M unit := fun s => Some (tt, advance n s).

Definition read_uint8 : M byte :=
  fun s => match nth_error wkb (ptr_ s) with
           | Some b => Some (b, advance 1 s)
           | None => None
           end.

Definition read_uint16 (littleEndian : Z) : M Z :=
  b0 <- peek 0 ;;
  b1 <- peek 1 ;;
  let r := if nonzero littleEndian
           then Z.lor b0 (Z.shiftl b1 8)
           else (* big endian *) Z.lor (Z.shiftl b0 8) b1 in
  skip 2 ;;;
  ret (uint16 r).

Definition read_float64 (littleEndian : Z) : M double :=
  b0 <- peek 0 ;; b1 <- peek 1 ;; b2 <- peek 2 ;; b3 <- peek 3 ;;
  b4 <- peek 4 ;; b5 <- peek 5 ;; b6 <- peek 6 ;; b7 <- peek 7 ;;
  let byte_at (b k : Z) := uint64 (Z.shiftl (uint64 (Z.land b 255)) k) in
  let i :=
    if nonzero littleEndian
    then Z.lor (Z.lor (Z.lor (Z.lor (Z.lor (Z.lor (Z.lor
           (byte_at b0 0) (byte_at b1 8)) (byte_at b2 16)) (byte_at b3 24))
           (byte_at b4 32)) (byte_at b5 40)) (byte_at b6 48)) (byte_at b7 56)
    else (* big endian *)
         Z.lor (Z.lor (Z.lor (Z.lor (Z.lor (Z.lor (Z.lor
           (byte_at b7 0) (byte_at b6 8)) (byte_at b5 16)) (byte_at b4 24))
           (byte_at b3 32)) (byte_at b2 40)) (byte_at b1 48)) (byte_at b0 56) in
  skip 8 ;;;
  ret (double_of_bits (uint64 i)).

Definition read_uint32 (littleEndian : Z) : M Z :=
  b0 <- peek 0 ;; b1 <- peek 1 ;; b2 <- peek 2 ;; b3 <- peek 3 ;;
  let byte_at (b k : Z) := uint32 (Z.shiftl (uint32 (Z.land b 255)) k) in
  let r :=
    if nonzero littleEndian
    then Z.lor (Z.lor (Z.lor (byte_at b0 0) (byte_at b1 8)) (byte_at b2 16))
               (byte_at b3 24)
    else (* big endian *)
         Z.lor (Z.lor (Z.lor (byte_at b3 0) (byte_at b2 8)) (byte_at b1 16))
               (byte_at b0 24) in
  skip 4 ;;;
  ret (uint32 r).

Definition read_int32 (littleEndian : Z) : M Z :=
  v <- read_uint32 littleEndian ;;
  ret (int32 v).

End Cursor.

(** ** The band decoders *)

Section Decoders.

Variable wkb : list byte.

(** [int off = y * width_ * ps + x * ps;] *)
Definition pixel_offset (y x width ps : Z) : Z :=
  int32 (int32 (int32 (y * width) * ps) + int32 (x * ps)).

(** Body of the inner loop of [read_grayscale]. *)
Definition grayscale_pixel (ps y x : Z) (image_data : list byte)
  : M (list byte) :=
  val <- read_uint8 wkb ;;
  width <- get width_ ;;
  let off := pixel_offset y x width ps in
  (* Pixel space is RGBA *)
  d0 <- store (int32 (off + 0)) val image_data ;;
  d1 <- store (int32 (off + 1)) val d0 ;;
  store (int32 (off + 2)) val d1.

Definition read_grayscale (r : raster) : M raster :=
  (* Start with plain white *)
  let r := image_set_white r in
  let r := set_premultiplied true r in
  type <- read_uint8 wkb ;;
  let pixtype := BANDTYPE_PIXTYPE (u8 type) in
  let offline := if nonzero (BANDTYPE_IS_OFFDB (u8 type)) then 1 else 0 in
  let hasnodata := if nonzero (BANDTYPE_HAS_NODATA (u8 type)) then 1 else 0 in
  if nonzero offline then
    warn (W_offline None) ;;; ret r
  else if (pixtype >? PT_8BUI) || (pixtype <? PT_8BSI) then
    warn (W_bandtype None type) ;;; ret r
  else
    nodataval <- read_uint8 wkb ;; (* need to read anyway *)
    (if nonzero hasnodata then warn W_nodata_unsupported else ret tt) ;;;
    let ps := 4 in
    height <- get height_ ;;
    d <- for_loop (Z.to_nat height) 0
           (fun y d =>
              width <- get width_ ;;
              for_loop (Z.to_nat width) 0 (grayscale_pixel ps y) d)
           (data_ r) ;;
    ret (set_data d r).

(** Body of the inner loop of [read_rgb]. *)
Definition rgb_pixel (ps bn y x : Z) (image_data : list byte)
  : M (list byte) :=
  val <- read_uint8 wkb ;;
  width <- get width_ ;;
  let off := pixel_offset y x width ps in
  (* Pixel space is RGBA *)
  store (int32 (off + bn)) val image_data.

(** Body of the loop over the bands of [read_rgb]; the loop carries the
    local [nodataval] and the image. *)
Definition rgb_band (bn : Z) (acc : byte * list byte)
  : M (byte * list byte) :=
  let '(nodataval, image_data) := acc in
  type <- read_uint8 wkb ;;
  let pixtype := BANDTYPE_PIXTYPE (u8 type) in
  let offline := if nonzero (BANDTYPE_IS_OFFDB (u8 type)) then 1 else 0 in
  if nonzero offline then
    warn (W_offline (Some bn)) ;;; ret acc  (* continue *)
  else if (pixtype >? PT_8BUI) || (pixtype <? PT_8BSI) then
    warn (W_bandtype (Some bn) type) ;;; ret acc  (* continue *)
  else
    tmp <- read_uint8 wkb ;;
    nodataval' <-
      (if negb (nonzero bn) then ret tmp
       else if negb (u8 tmp =? u8 nodataval) then
              warn (W_nodataval bn tmp nodataval) ;;; ret nodataval
            else ret nodataval) ;;
    let ps := 4 in
    height <- get height_ ;;
    d <- for_loop (Z.to_nat height) 0
           (fun y d =>
              width <- get width_ ;;
              for_loop (Z.to_nat width) 0 (rgb_pixel ps bn y) d)
           image_data ;;
    ret (nodataval', d).

(** [uninit] is the content of the local [nodataval] before anything is
    assigned to it (the source declares it without an initial value). *)
Definition read_rgb (uninit : byte) (r : raster) : M raster :=
  (* Start with plain white *)
  let r := image_set_white r in
  let r := set_premultiplied true r in
  numBands <- get numBands_ ;;
  acc <- for_loop (Z.to_nat numBands) 0 rgb_band (uninit, data_ r) ;;
  ret (set_data (snd acc) r).

(** The result is [None] for the null [raster_ptr]. *)
Definition get_raster (uninit : byte) : M (option raster) :=
  (* Read endianness *)
  endian <- peek wkb 0 ;;
  skip 1 ;;;
  (* Read version of protocol *)
  version <- read_uint16 wkb endian ;;
  if nonzero version then
    warn (W_version version) ;;; ret None
  else
    numBands <- read_uint16 wkb endian ;;
    set_numBands numBands ;;;
    scaleX <- read_float64 wkb endian ;;
    scaleY <- read_float64 wkb endian ;;
    ipX <- read_float64 wkb endian ;;
    ipY <- read_float64 wkb endian ;;
    skewX <- read_float64 wkb endian ;;
    skewY <- read_float64 wkb endian ;;
    srid <- read_int32 wkb endian ;;
    width <- read_uint16 wkb endian ;;
    set_width width ;;;
    height <- read_uint16 wkb endian ;;
    set_height height ;;;
    if dtrue skewX || dtrue skewY then
      warn W_rotation ;;; ret None
    else
      let ext := box2d_init ipX ipY
                   (dadd ipX (dmul (double_of_int width) scaleX))
                   (dadd ipY (dmul (double_of_int height) scaleY)) in
      let raster := new_raster ext width height in
      numBands <- get numBands_ ;;
      if numBands =? 1 then
        r <- read_grayscale raster ;; ret (Some r)
      else if numBands =? 3 then
        r <- read_rgb uninit raster ;; ret (Some r)
      else
        warn (W_bands numBands) ;;; ret None.

End Decoders.

(** Constructing a reader on [size] bytes at [wkb] and calling
    [get_raster]: the raster (or null) and the warnings logged. *)
Definition decode (wkb : list byte) (size : Z) (uninit : byte)
  : option (option raster * list warning) :=
  match get_raster wkb uninit (pgraster_wkb_reader size) with
  | Some (r, s) => Some (r, warnings s)
  | None => None
  end.

(** ** Writing inputs down *)

Definition bytes (l : list Z) : list byte := map byte_of l.

(** Big-endian bytes of the doubles used in the examples. *)
Definition be_0_0 : list Z := [0; 0; 0; 0; 0; 0; 0; 0].
Definition be_1_0 : list Z := [63; 240; 0; 0; 0; 0; 0; 0].
Definition be_2_0 : list Z := [64; 0; 0; 0; 0; 0; 0; 0].
Definition be_m2_0 : list Z := [192; 0; 0; 0; 0; 0; 0; 0].
Definition be_100_0 : list Z := [64; 89; 0; 0; 0; 0; 0; 0].

(** A big-endian header. *)
Definition be_header (version bands : Z) (scaleX scaleY ipX ipY skewX skewY : list Z)
           (width height : Z) : list Z :=
  [0; version / 256; version mod 256; bands / 256; bands mod 256]
    ++ scaleX ++ scaleY ++ ipX ++ ipY ++ skewX ++ skewY
    ++ [0; 0; 0; 0; width / 256; width mod 256; height / 256; height mod 256].

Definition scenario_gray : list byte :=
  bytes (be_header 0 1 be_1_0 be_1_0 be_0_0 be_0_0 be_0_0 be_0_0 2 1
           ++ [4; 0; 10; 20]).

(** ** The header seen at its offsets

    The fixed part of the encoding is 61 bytes long: the endianness flag at
    offset 0, the version at 1, the number of bands at 3, six doubles from
    5 to 52, the srid at 53, the width at 57, the height at 59.  The first
    band starts at offset 61.  A field is what the reader's own primitive
    returns with the cursor at the field's offset. *)

Definition at_offset (p : nat) : state := advance p (pgraster_wkb_reader 0).

Definition field {A} (m : M A) (p : nat) : option A :=
  match m (at_offset p) with
  | Some (a, _) => Some a
  | None => None
  end.

Definition HEADER_SIZE : nat := 61.

Record header : Type := mk_header
  { h_endian : Z;
    h_version : Z;
    h_numBands : Z;
    h_scaleX : double;
    h_scaleY : double;
    h_ipX : double;
    h_ipY : double;
    h_skewX : double;
    h_skewY : double;
    h_srid : Z;
    h_width : Z;
    h_height : Z }.

Definition obind {A B} (o : option A) (k : A -> option B) : option B :=
  match o with
  | Some a => k a
  | None => None
  end.

Definition hdr_endian (wkb : list byte) : option Z := field (peek wkb 0) 0.

Definition hdr_version (wkb : list byte) : option Z :=
  obind (hdr_endian wkb) (fun e => field (read_uint16 wkb e) 1).

Definition parse_header (wkb : list byte) : option header :=
  obind (hdr_endian wkb) (fun e =>
  obind (field (read_uint16 wkb e) 1) (fun version =>
  obind (field (read_uint16 wkb e) 3) (fun numBands =>
  obind (field (read_float64 wkb e) 5) (fun scaleX =>
  obind (field (read_float64 wkb e) 13) (fun scaleY =>
  obind (field (read_float64 wkb e) 21) (fun ipX =>
  obind (field (read_float64 wkb e) 29) (fun ipY =>
  obind (field (read_float64 wkb e) 37) (fun skewX =>
  obind (field (read_float64 wkb e) 45) (fun skewY =>
  obind (field (read_int32 wkb e) 53) (fun srid =>
  obind (field (read_uint16 wkb e) 57) (fun width =>
  obind (field (read_uint16 wkb e) 59) (fun height =>
  Some (mk_header e version numBands scaleX scaleY ipX ipY skewX skewY
                  srid width height))))))))))))).

(** The extent [get_raster] builds from the header. *)
Definition header_extent (hd : header) : box2d :=
  box2d_init (h_ipX hd) (h_ipY hd)
    (dadd (h_ipX hd) (dmul (double_of_int (h_width hd)) (h_scaleX hd)))
    (dadd (h_ipY hd) (dmul (double_of_int (h_height hd)) (h_scaleY hd))).

(** The reader once the header has been read. *)
Definition after_header (size : Z) (hd : header) (ws : list warning) : state :=
  mk_state size HEADER_SIZE (h_numBands hd) (h_width hd) (h_height hd) ws.

(** What [get_raster] does after the header. *)
Definition decode_bands (wkb : list byte) (uninit : byte) (hd : header)
  : M (option raster) :=
  if dtrue (h_skewX hd) || dtrue (h_skewY hd) then
    warn W_rotation ;;; ret None
  else
    let raster := new_raster (header_extent hd) (h_width hd) (h_height hd) in
    if h_numBands hd =? 1 then
      r <- read_grayscale wkb raster ;; ret (Some r)
    else if h_numBands hd =? 3 then
      r <- read_rgb wkb uninit raster ;; ret (Some r)
    else
      warn (W_bands (h_numBands hd)) ;;; ret None.

(** A band is skipped when it is offline or its pixel type is not one of
    the two 8-bit types. *)
Definition band_skipped (type : byte) : bool :=
  nonzero (BANDTYPE_IS_OFFDB (u8 type))
  || (BANDTYPE_PIXTYPE (u8 type) >? PT_8BUI)
  || (BANDTYPE_PIXTYPE (u8 type) <? PT_8BSI).

(** Writing the values [payload] into the channels [chans] of the pixels
    from index [i] on. *)
Fixpoint fill (chans : list nat) (i : nat) (payload : list byte)
         (d : list byte) : list byte :=
  match payload with
  | [] => d
  | v :: rest =>
      fill chans (S i) rest
           (fold_left (fun d c => upd (4 * i + c) v d) chans d)
  end.

(** The [n] bytes of [wkb] from offset [p] on. *)
Definition slice (wkb : list byte) (p n : nat) : list byte :=
  firstn n (skipn p wkb).

(** * Vocabulary of the properties *)

(** ** Images *)

(** Writing [v] into the channels [chans] of pixel [i]. *)
Definition paint (chans : list nat) (i : nat) (v : byte) (d : list byte)
  : list byte :=
  fold_left (fun d c => upd (4 * i + c) v d) chans d.

(** The image after three supported bands starting at offset [p]. *)
Definition rgb_image (wkb : list byte) (p n : nat) (d : list byte)
  : list byte :=
  fill [2%nat] 0 (slice wkb (p + 2 * (2 + n) + 2) n)
    (fill [1%nat] 0 (slice wkb (p + 1 * (2 + n) + 2) n)
       (fill [0%nat] 0 (slice wkb (p + 0 * (2 + n) + 2) n) d)).

(** Channel [c] of the pixel at ([row], [col]): the pixel occupies the four
    bytes from [row * width * 4 + col * 4] on. *)
Definition channel (r : raster) (row col c : nat) : option byte :=
  nth_error (data_ r) (4 * (row * Z.to_nat (data_width r) + col) + c).

(** ** Readers and results *)

(** The reader after the warnings [ws]. *)
Definition add_warnings (ws : list warning) (s : state) : state :=
  mk_state (wkbsize_ s) (ptr_ s) (numBands_ s) (width_ s) (height_ s)
           (warnings s ++ ws).

(** The reader, had it been constructed with the size [z]. *)
Definition resize (z : Z) (s : state) : state :=
  mk_state z (ptr_ s) (numBands_ s) (width_ s) (height_ s) (warnings s).

(** Number of payload bytes of a band. *)
Definition payload_size (s : state) : nat :=
  (Z.to_nat (height_ s) * Z.to_nat (width_ s))%nat.

(** A read seen as the field at the cursor's offset. *)
Definition at_field {A} (m : M A) (width : nat) (s : state)
  : option (A * state) :=
  match field m (ptr_ s) with
  | Some a => Some (a, advance width s)
  | None => None
  end.

(** The two nested loops over the pixels of a band, from row [y0] on, for
    the body [body y x] of the inner loop. *)
Definition rows (body : Z -> Z -> list byte -> M (list byte))
           (y0 : Z) (n : nat) (d : list byte) : M (list byte) :=
  for_loop n y0
    (fun y d => width <- get width_ ;;
                for_loop (Z.to_nat width) 0 (body y) d) d.

(** Where the cursor is when [get_raster] returns. *)
Definition final_cursor (wkb : list byte) (size : Z) (uninit : byte)
  : option nat :=
  match get_raster wkb uninit (pgraster_wkb_reader size) with
  | Some (_, s) => Some (ptr_ s)
  | None => None
  end.

(** The raster (or null) of a decode, without the warnings. *)
Definition outcome (o : option (option raster * list warning))
  : option (option raster) :=
  match o with
  | Some (r, _) => Some r
  | None => None
  end.

(** The extent of the raster returned, if one is. *)
Definition decoded_extent (wkb : list byte) (size : Z) (uninit : byte)
  : option box2d :=
  match decode wkb size uninit with
  | Some (Some r, _) => Some (ext_ r)
  | _ => None
  end.

(** The warnings logged by a decode. *)
Definition decoded_warnings (wkb : list byte) (size : Z) (uninit : byte)
  : option (list warning) :=
  match decode wkb size uninit with
  | Some (_, ws) => Some ws
  | None => None
  end.

(** The warning of the grayscale path for a band with the has-nodata flag. *)
Definition nodata_warning (tag : byte) : list warning :=
  if nonzero (BANDTYPE_HAS_NODATA (u8 tag)) then [W_nodata_unsupported] else [].

(** The warning of the 3-band path for the nodata value [tmp] of band
    [bn], against the remembered [nodataval]. *)
Definition mismatch_warning (bn : Z) (tmp nodataval : byte) : list warning :=
  if negb (nonzero bn) then []
  else if negb (u8 tmp =? u8 nodataval) then [W_nodataval bn tmp nodataval]
       else [].

(** ** Headers and bands *)

(** The pixels of a header: rows, columns, and their number. *)
Definition h_rows (hd : header) : nat := Z.to_nat (h_height hd).
Definition h_cols (hd : header) : nat := Z.to_nat (h_width hd).
Definition h_pixels (hd : header) : nat := (h_rows hd * h_cols hd)%nat.

(** Offset of band [k] when the bands before it are all supported. *)
Definition band_offset (hd : header) (k : nat) : nat :=
  (HEADER_SIZE + k * (2 + h_pixels hd))%nat.

(** Number of bands the decoders read for a header. *)
Definition bands_read (hd : header) : nat :=
  if h_numBands hd =? 1 then 1 else if h_numBands hd =? 3 then 3 else 0.

(** A band the decoders process: no off-database flag and one of the two
    8-bit pixel types. *)
Definition supported_band (tag : byte) : Prop :=
  Z.testbit (u8 tag) 7 = false
  /\ (BANDTYPE_PIXTYPE (u8 tag) = PT_8BSI \/ BANDTYPE_PIXTYPE (u8 tag) = PT_8BUI).

(** There is a supported band tag at offset [p]. *)
Definition supported_at (wkb : list byte) (p : nat) : Prop :=
  exists tag, nth_error wkb p = Some tag /\ supported_band tag.

(** A complete input: one supported band, or three, with their payload. *)
Definition complete_bands (wkb : list byte) (hd : header) : Prop :=
  (h_numBands hd = 1 /\ supported_at wkb (band_offset hd 0)
   /\ (band_offset hd 1 <= length wkb)%nat)
  \/ (h_numBands hd = 3
      /\ (forall k, (k < 3)%nat -> supported_at wkb (band_offset hd k))
      /\ (band_offset hd 3 <= length wkb)%nat).

(** The header with another srid. *)
Definition with_srid (srid : Z) (hd : header) : header :=
  mk_header (h_endian hd) (h_version hd) (h_numBands hd) (h_scaleX hd)
            (h_scaleY hd) (h_ipX hd) (h_ipY hd) (h_skewX hd) (h_skewY hd)
            srid (h_width hd) (h_height hd).

(** Minimum and maximum as the [box2d] constructor takes them. *)
Definition dmin (a b : double) : double := if dlt a b then a else b.
Definition dmax (a b : double) : double := if dlt a b then b else a.

(** ** Inputs that differ in some bytes *)

(** The two inputs have the same bytes at the offsets from [lo] to [hi],
    [hi] excluded. *)
Definition agree (wkb1 wkb2 : list byte) (lo hi : nat) : Prop :=
  forall i, (lo <= i < hi)%nat -> nth_error wkb1 i = nth_error wkb2 i.

(** Both defined or both undefined. *)
Definition same_some {A} (o1 o2 : option A) : Prop :=
  match o1, o2 with
  | Some _, Some _ => True
  | None, None => True
  | _, _ => False
  end.

(** [wkb2] is [wkb1] but for bytes that [P] allows to differ. *)
Definition differ_only (P : nat -> byte -> byte -> Prop)
           (wkb1 wkb2 : list byte) : Prop :=
  length wkb1 = length wkb2
  /\ forall i b1 b2,
      nth_error wkb1 i = Some b1 -> nth_error wkb2 i = Some b2 ->
      b1 = b2 \/ P i b1 b2.

(** The offsets at which the decoders read a band tag, and those at which
    they read a nodata byte, for [k] bands from offset [p] on: a skipped
    band takes its tag only, a processed one its tag, its nodata byte and
    [n] payload bytes. *)
Fixpoint band_tags (wkb : list byte) (n k p : nat) : list nat :=
  match k with
  | O => []
  | S k' =>
      p :: match nth_error wkb p with
           | Some t =>
               band_tags wkb n k' (if band_skipped t then p + 1 else p + 2 + n)
           | None => []
           end
  end.

Fixpoint band_nodata (wkb : list byte) (n k p : nat) : list nat :=
  match k with
  | O => []
  | S k' =>
      match nth_error wkb p with
      | Some t =>
          if band_skipped t then band_nodata wkb n k' (p + 1)
          else (p + 1)%nat :: band_nodata wkb n k' (p + 2 + n)
      | None => []
      end
  end.

(** The same for the bands of an input, after its header. *)
Definition tag_offsets (wkb : list byte) : list nat :=
  match parse_header wkb with
  | Some hd => band_tags wkb (h_pixels hd) (bands_read hd) HEADER_SIZE
  | None => []
  end.

Definition nodata_offsets (wkb : list byte) : list nat :=
  match parse_header wkb with
  | Some hd => band_nodata wkb (h_pixels hd) (bands_read hd) HEADER_SIZE
  | None => []
  end.

(** The differences that do not change the raster: the srid, the tag of a
    band as long as the band stays skipped or processed, and the nodata
    byte of a processed band. *)
Definition harmless (wkb1 : list byte) (i : nat) (b1 b2 : byte) : Prop :=
  (53 <= i < 57)%nat
  \/ (In i (tag_offsets wkb1) /\ band_skipped b1 = band_skipped b2)
  \/ In i (nodata_offsets wkb1).

(** Two tag bytes that differ in bits 6 (has-nodata), 5 (is-nodata) and 4
    (reserved) at most. *)
Definition same_but_flags (b1 b2 : byte) : Prop :=
  forall k, k <> 4 -> k <> 5 -> k <> 6 ->
            Z.testbit (u8 b1) k = Z.testbit (u8 b2) k.

(** The differences of C10: a byte of the srid, or the flag bits 6, 5, 4
    of the tag of a band. *)
Definition srid_or_flags (wkb1 : list byte) (i : nat) (b1 b2 : byte) : Prop :=
  (53 <= i < 57)%nat
  \/ (In i (tag_offsets wkb1) /\ same_but_flags b1 b2).

(** The difference of C9: the tag of a band, with pixel type 3 (8-bit
    signed) in the first input and 4 (8-bit unsigned) in the second, and the
    same flags. *)
Definition retyped (wkb1 : list byte) (i : nat) (b1 b2 : byte) : Prop :=
  In i (tag_offsets wkb1)
  /\ BANDTYPE_PIXTYPE (u8 b1) = PT_8BSI
  /\ BANDTYPE_PIXTYPE (u8 b2) = PT_8BUI
  /\ (forall k, 4 <= k -> Z.testbit (u8 b1) k = Z.testbit (u8 b2) k).

(** The difference of C4: the nodata byte of a processed band. *)
Definition nodata_byte (wkb1 : list byte) (i : nat) (b1 b2 : byte) : Prop :=
  In i (nodata_offsets wkb1).

(** ** Runs side by side *)

(** A computation that does not depend on the size of the buffer. *)
Definition size_blind {A} (m : M A) : Prop :=
  forall z s,
    m (resize z s) = match m s with
                     | Some (a, s') => Some (a, resize z s')
                     | None => None
                     end.

(** Two readers with the same cursor and the same header fields. *)
Definition cur_eq (s1 s2 : state) : Prop :=
  ptr_ s1 = ptr_ s2 /\ numBands_ s1 = numBands_ s2
  /\ width_ s1 = width_ s2 /\ height_ s1 = height_ s2.

(** Two runs with related results, up to the warnings and the size. *)
Definition out_rel {A} (R : A -> A -> Prop) (o1 o2 : option (A * state))
  : Prop :=
  match o1, o2 with
  | Some (a1, s1), Some (a2, s2) => R a1 a2 /\ cur_eq s1 s2
  | None, None => True
  | _, _ => False
  end.

(** The stores of the pixel bodies, as functions of the byte read. *)
Definition grayscale_stores (ps y x width : Z) (val : byte) (d : list byte)
  : option (list byte) :=
  let off := pixel_offset y x width ps in
  let put o v d := if (0 <=? o) && (o <? Z.of_nat (length d))
                   then Some (upd (Z.to_nat o) v d) else None in
  obind (put (int32 (off + 0)) val d) (fun d0 =>
  obind (put (int32 (off + 1)) val d0) (fun d1 =>
  put (int32 (off + 2)) val d1)).

Definition rgb_stores (ps bn y x width : Z) (val : byte) (d : list byte)
  : option (list byte) :=
  let off := pixel_offset y x width ps in
  if (0 <=? int32 (off + bn)) && (int32 (off + bn) <? Z.of_nat (length d))
  then Some (upd (Z.to_nat (int32 (off + bn))) val d) else None.

(** A body that reads one byte and does pure stores. *)
Definition one_byte_body (wkb : list byte)
           (f : Z -> byte -> list byte -> option (list byte))
           (d : list byte) : M (list byte) :=
  fun s => match nth_error wkb (ptr_ s) with
           | Some v => match f (width_ s) v d with
                       | Some d' => Some (d', advance 1 s)
                       | None => None
                       end
           | None => None
           end.

(** The bands at offset [p] of the two inputs are skipped or processed
    alike and, when processed, have the same payload of [n] bytes. *)
Definition band_rel (wkb1 wkb2 : list byte) (n p : nat) : Prop :=
  match nth_error wkb1 p, nth_error wkb2 p with
  | Some t1, Some t2 =>
      band_skipped t1 = band_skipped t2
      /\ (band_skipped t1 = false ->
          same_some (nth_error wkb1 (p + 1)) (nth_error wkb2 (p + 1))
          /\ agree wkb1 wkb2 (p + 2) (p + 2 + n))
  | None, None => True
  | _, _ => False
  end.

(** Offset of the band after the one at [p]. *)
Definition next_band (wkb1 : list byte) (n p : nat) : nat :=
  match nth_error wkb1 p with
  | Some t => if band_skipped t then p + 1 else p + 2 + n
  | None => p
  end.

(** The same for [k] bands from offset [p] on. *)
Fixpoint bands_rel (wkb1 wkb2 : list byte) (n k p : nat) : Prop :=
  match k with
  | O => True
  | S k' => band_rel wkb1 wkb2 n p
            /\ bands_rel wkb1 wkb2 n k' (next_band wkb1 n p)
  end.

(** [get_raster] by cases on the header. *)
Definition get_raster_spec (wkb : list byte) (uninit : byte) (size : Z)
  : option (option raster * state) :=
  match hdr_version wkb with
  | None => None
  | Some v =>
      if nonzero v then Some (None, mk_state size 3 0 0 0 [W_version v])
      else match parse_header wkb with
           | Some hd => decode_bands wkb uninit hd (after_header size hd [])
           | None => None
           end
  end.

(** ** Inputs of the examples *)

(** A little-endian header. *)
Definition le_header (version bands : Z)
           (scaleX scaleY ipX ipY skewX skewY : list Z) (width height : Z)
  : list Z :=
  [1; version mod 256; version / 256; bands mod 256; bands / 256]
    ++ rev scaleX ++ rev scaleY ++ rev ipX ++ rev ipY ++ rev skewX ++ rev skewY
    ++ [0; 0; 0; 0; width mod 256; width / 256; height mod 256; height / 256].

(** Three supported bands of 2 x 1 pixels. *)
Definition rgb_bands : list Z := [4; 0; 10; 20] ++ [3; 0; 30; 40] ++ [68; 9; 50; 60].

(** A complete 3-band input of 2 columns and 1 row, little-endian, and the
    same with a big-endian header. *)
Definition scenario_rgb : list byte :=
  bytes (le_header 0 3 be_1_0 be_1_0 be_0_0 be_0_0 be_0_0 be_0_0 2 1
           ++ rgb_bands).

Definition scenario_rgb_be : list byte :=
  bytes (be_header 0 3 be_1_0 be_1_0 be_0_0 be_0_0 be_0_0 be_0_0 2 1
           ++ rgb_bands).

(** The scenario of C6 with another srid and the flags 6, 5, 4 of the first
    tag set. *)
Definition scenario_rgb_flags : list byte :=
  upd 61 (byte_of 116) (upd 54 (byte_of 16) scenario_rgb).

(** The scenario of C6 with the pixel type of its second band set to 4. *)
Definition scenario_rgb_unsigned : list byte := upd 65 (byte_of 4) scenario_rgb.

(** A little-endian input of version 256. *)
Definition version1_input : list byte := bytes [1; 0; 1].

(** A header announcing two bands. *)
Definition two_bands_input : list byte :=
  bytes (be_header 0 2 be_1_0 be_1_0 be_0_0 be_0_0 be_0_0 be_0_0 2 1).

(** A 1-band input whose band is offline. *)
Definition offline_gray_input : list byte :=
  bytes (be_header 0 1 be_1_0 be_1_0 be_0_0 be_0_0 be_0_0 be_0_0 2 1
           ++ [132; 0; 10; 20]).

(** Three bands of 2 x 1 pixels: the first one offline, then two supported
    bands with the nodata values 5 and 7. *)
Definition offline_first_input : list byte :=
  bytes (le_header 0 3 be_1_0 be_1_0 be_0_0 be_0_0 be_0_0 be_0_0 2 1
           ++ [132] ++ [4; 5; 10; 20] ++ [4; 7; 30; 40]).

(** A complete 1-band input with scale (2, -2), origin (0, 100), 10 columns
    and 5 rows. *)
Definition extent_input : list byte :=
  bytes (be_header 0 1 be_2_0 be_m2_0 be_0_0 be_100_0 be_0_0 be_0_0 10 5
           ++ [4; 0] ++ repeat 7 50).

(** The reader at the end of a buffer of 63 bytes. *)
Definition at_end_of_buffer : state := mk_state 63 63 1 2 1 [].

(** The reader of the scenario of C6 at its third band. *)
Definition at_third_band : state := mk_state 73 69 3 2 1 [].

(** ** Values on the wire *)

(** The [n] bytes of [v], least significant first, and most significant
    first; for a negative [v] these are the bytes of its two's complement. *)
Fixpoint le_bytes (n : nat) (v : Z) : list byte :=
  match n with
  | O => []
  | S n' => byte_of v :: le_bytes n' (v / 256)
  end.

Definition be_bytes (n : nat) (v : Z) : list byte := rev (le_bytes n v).

(** The bytes of [v] in the order the endianness flag [e] announces. *)
Definition wire_bytes (e : Z) (n : nat) (v : Z) : list byte :=
  if nonzero e then le_bytes n v else be_bytes n v.

(** ** More inputs and results *)

(** The two zeros of [double]. *)
Definition is_zero (x : double) : Prop :=
  x = S754_zero false \/ x = S754_zero true.

(** A 1-band header with skewX = 1.0, with no band after it. *)
Definition rotated_input : list byte :=
  bytes (be_header 0 1 be_1_0 be_1_0 be_0_0 be_0_0 be_1_0 be_0_0 2 1).

(** A 1-band input of 2 x 1 pixels whose band has pixel type 6 (16-bit
    unsigned). *)
Definition wide_pixels_input : list byte :=
  bytes (be_header 0 1 be_1_0 be_1_0 be_0_0 be_0_0 be_0_0 be_0_0 2 1
           ++ [6; 0; 0; 10; 0; 20]).

(** The warning for a skipped band: offline first, then the pixel type. *)
Definition skip_warning (bn : option Z) (tag : byte) : warning :=
  if nonzero (BANDTYPE_IS_OFFDB (u8 tag)) then W_offline bn
  else W_bandtype bn tag.

(** Offset after [k] bands starting at offset [p]: a skipped band takes
    its tag, a processed one its tag, its nodata byte and [n] payload
    bytes. *)
Fixpoint bands_end (wkb : list byte) (n k p : nat) : nat :=
  match k with
  | O => p
  | S k' => bands_end wkb n k' (next_band wkb n p)
  end.

(** A 1-band input of width 0 and height 3, with its tag and nodata byte. *)
Definition empty_input : list byte :=
  bytes (be_header 0 1 be_1_0 be_1_0 be_0_0 be_0_0 be_0_0 be_0_0 0 3
           ++ [4; 0]).

(** Offset of band [k] of an input, after its header and the bands before
    it, skipped or processed. *)
Definition band_start (wkb : list byte) (hd : header) (k : nat) : nat :=
  bands_end wkb (h_pixels hd) k HEADER_SIZE.

(** What the band at offset [p] leaves in its channel of pixel [q], which
    held [old]: a skipped band leaves it alone, a processed one writes its
    payload byte for that pixel. *)
Definition band_channel (wkb : list byte) (p q : nat) (old : option byte)
  : option byte :=
  match nth_error wkb p with
  | Some t => if band_skipped t then old else nth_error wkb (p + 2 + q)
  | None => old
  end.

(** The 61 bytes of a header on the wire: the endianness flag, then the
    fields in the byte order it announces.  The six doubles are given by
    their IEEE 754 bit patterns. *)
Definition header_bytes (e version numBands scaleX scaleY ipX ipY skewX skewY
                           srid width height : Z) : list byte :=
  [byte_of e] ++ wire_bytes e 2 version ++ wire_bytes e 2 numBands
    ++ wire_bytes e 8 scaleX ++ wire_bytes e 8 scaleY
    ++ wire_bytes e 8 ipX ++ wire_bytes e 8 ipY
    ++ wire_bytes e 8 skewX ++ wire_bytes e 8 skewY
    ++ wire_bytes e 4 srid ++ wire_bytes e 2 width ++ wire_bytes e 2 height.

(** * Properties *)

(** ** Lists *)

Lemma length_upd {A} (i : nat) (v : A) (l : list A) :
  length (upd i v l) = length l.
Proof.
  revert i; induction l as [|x t IH]; intros [|i]; simpl; auto.
Qed.

Lemma nth_error_upd {A} (l : list A) (i j : nat) (v : A) :
  (i < length l)%nat ->
  nth_error (upd i v l) j = if Nat.eqb j i then Some v else nth_error l j.
Proof.
  revert i j; induction l as [|x t IH]; intros i j Hi; simpl in Hi.
  - lia.
  - destruct i as [|i], j as [|j]; simpl; auto.
    apply IH; lia.
Qed.

Lemma skipn_nth_error {A} (l : list A) (p : nat) (v : A) :
  nth_error l p = Some v -> skipn p l = v :: skipn (S p) l.
Proof.
  revert p; induction l as [|x t IH]; intros [|p] H; simpl in *;
    try discriminate.
  - congruence.
  - apply IH in H. rewrite H. destruct t; reflexivity.
Qed.

Lemma slice_S (wkb : list byte) (p n : nat) (v : byte) :
  nth_error wkb p = Some v -> slice wkb p (S n) = v :: slice wkb (S p) n.
Proof.
  intros H. unfold slice. rewrite (skipn_nth_error _ _ _ H). reflexivity.
Qed.

Lemma length_slice (wkb : list byte) (p n : nat) :
  (p + n <= length wkb)%nat -> length (slice wkb p n) = n.
Proof.
  intros H. unfold slice. rewrite length_firstn, length_skipn. lia.
Qed.

Lemma slice_add (wkb : list byte) (p n m : nat) :
  (p + n <= length wkb)%nat ->
  slice wkb p (n + m) = slice wkb p n ++ slice wkb (p + n) m.
Proof.
  intros H. unfold slice.
  rewrite <- (firstn_skipn n (skipn p wkb)) at 1.
  rewrite firstn_app, length_firstn, length_skipn.
  replace (Nat.min n (length wkb - p)) with n by lia.
  rewrite firstn_firstn. replace (Nat.min (n + m) n) with n by lia.
  replace (n + m - n)%nat with m by lia.
  rewrite skipn_skipn. replace (n + p)%nat with (p + n)%nat by lia.
  reflexivity.
Qed.

Lemma nth_error_slice (wkb : list byte) (p n i : nat) :
  (i < n)%nat -> nth_error (slice wkb p n) i = nth_error wkb (p + i).
Proof.
  intros H. unfold slice.
  rewrite nth_error_firstn.
  destruct (Nat.ltb_spec i n); [|lia].
  apply nth_error_skipn.
Qed.

(** ** The filled image *)

Lemma fill_cons chans i v rest d :
  fill chans i (v :: rest) d = fill chans (S i) rest (paint chans i v d).
Proof. reflexivity. Qed.

Lemma length_paint chans i v d : length (paint chans i v d) = length d.
Proof.
  unfold paint. revert d; induction chans as [|c cs IH]; intros d; simpl; auto.
  rewrite IH. apply length_upd.
Qed.

Lemma length_fill chans payload : forall i d,
  length (fill chans i payload d) = length d.
Proof.
  induction payload as [|v rest IH]; intros i d; simpl; auto.
  rewrite IH. apply length_paint.
Qed.

Lemma fill_app chans l1 : forall l2 i d,
  fill chans i (l1 ++ l2) d = fill chans (i + length l1) l2 (fill chans i l1 d).
Proof.
  induction l1 as [|v rest IH]; intros l2 i d; simpl.
  - f_equal. lia.
  - rewrite IH. f_equal. lia.
Qed.

Lemma nth_error_paint chans : forall i v d q c,
  (4 * i + 3 < length d)%nat -> (c < 4)%nat ->
  Forall (fun c' => c' < 4)%nat chans ->
  nth_error (paint chans i v d) (4 * q + c) =
  if Nat.eqb q i && existsb (Nat.eqb c) chans
  then Some v else nth_error d (4 * q + c).
Proof.
  unfold paint.
  induction chans as [|c' cs IH]; intros i v d q c Hd Hc Hcs;
    cbn [fold_left existsb].
  - rewrite andb_false_r. reflexivity.
  - inversion Hcs as [|? ? Hc' Hcs']; subst.
    rewrite IH by (rewrite ?length_upd; auto).
    rewrite nth_error_upd by lia.
    destruct (Nat.eqb_spec q i) as [->|Hq]; cbn [andb orb].
    + destruct (Nat.eqb_spec c c') as [->|Hcc]; cbn [andb orb].
      * rewrite Nat.eqb_refl. destruct (existsb _ cs); reflexivity.
      * destruct (Nat.eqb_spec (4 * i + c) (4 * i + c')); [lia|].
        reflexivity.
    + destruct (Nat.eqb_spec (4 * q + c) (4 * i + c')); [lia|].
      reflexivity.
Qed.

Lemma nth_error_fill chans payload : forall i d q c,
  (4 * (i + length payload) <= length d)%nat -> (c < 4)%nat ->
  Forall (fun c' => c' < 4)%nat chans ->
  nth_error (fill chans i payload d) (4 * q + c) =
  if Nat.leb i q && Nat.ltb q (i + length payload)
     && existsb (Nat.eqb c) chans
  then nth_error payload (q - i) else nth_error d (4 * q + c).
Proof.
  induction payload as [|v rest IH]; intros i d q c Hd Hc Hcs.
  - cbn [fill length].
    destruct (Nat.leb_spec i q), (Nat.ltb_spec q (i + 0)); cbn [andb];
      try reflexivity; lia.
  - rewrite fill_cons. cbn [length] in *.
    rewrite IH by (rewrite ?length_paint; auto; lia).
    rewrite nth_error_paint by (auto; lia).
    destruct (Nat.leb_spec (S i) q), (Nat.ltb_spec q (S i + length rest));
      destruct (Nat.leb_spec i q), (Nat.ltb_spec q (i + S (length rest)));
      destruct (Nat.eqb_spec q i); cbn [andb]; try lia; try reflexivity.
    + replace (q - i)%nat with (S (q - S i)) by lia.
      destruct (existsb _ chans); reflexivity.
    + subst q. rewrite Nat.sub_diag.
      destruct (existsb _ chans); reflexivity.
Qed.

(** ** Machine integers *)

Lemma int32_small z : - 2 ^ 31 <= z < 2 ^ 31 -> int32 z = z.
Proof.
  intros H. unfold int32. rewrite Z.mod_small; lia.
Qed.

Lemma pixel_offset_small y x w :
  0 <= y -> 0 <= x -> 0 <= w -> 4 * (y * w + x) <= INT_MAX ->
  pixel_offset y x w 4 = 4 * (y * w + x).
Proof.
  intros Hy Hx Hw H. unfold pixel_offset, INT_MAX in *.
  assert (0 <= y * w) by nia.
  rewrite (int32_small (y * w)) by lia.
  rewrite (int32_small (y * w * 4)) by lia.
  rewrite (int32_small (x * 4)) by lia.
  rewrite int32_small by lia. lia.
Qed.

(** ** Running the primitives *)

Lemma advance_advance n m s : advance m (advance n s) = advance (n + m) s.
Proof. unfold advance; simpl. f_equal. lia. Qed.

Lemma advance_0 s : advance 0 s = s.
Proof. destruct s; unfold advance; simpl. f_equal. lia. Qed.

Lemma read_uint8_some wkb s v :
  nth_error wkb (ptr_ s) = Some v -> read_uint8 wkb s = Some (v, advance 1 s).
Proof. intros H. unfold read_uint8. rewrite H. reflexivity. Qed.

Lemma store_some off val d s :
  0 <= off < Z.of_nat (length d) ->
  store off val d s = Some (upd (Z.to_nat off) val d, s).
Proof.
  intros H. unfold store.
  destruct (Z.leb_spec 0 off), (Z.ltb_spec off (Z.of_nat (length d)));
    simpl; try lia. reflexivity.
Qed.

(** ** Running the pixel loops

    The two nested loops of a band, for a loop body that reads one byte and
    writes it into the channels [chans] of the pixel at (y, x). *)

Section PixelLoops.

Variable wkb : list byte.
Variable chans : list nat.
Variable body : Z -> Z -> list byte -> M (list byte).

Hypothesis body_run : forall y x d s v,
  nth_error wkb (ptr_ s) = Some v ->
  0 <= y -> 0 <= x -> 0 <= width_ s ->
  4 * (y * width_ s + x) + 3 <= INT_MAX ->
  4 * (y * width_ s + x) + 3 < Z.of_nat (length d) ->
  body y x d s
  = Some (paint chans (Z.to_nat (y * width_ s + x)) v d, advance 1 s).

Lemma row_run : forall n x d s y,
  0 <= y -> 0 <= x -> 0 <= width_ s ->
  (ptr_ s + n <= length wkb)%nat ->
  4 * (y * width_ s + x + Z.of_nat n) <= INT_MAX ->
  4 * (y * width_ s + x + Z.of_nat n) <= Z.of_nat (length d) ->
  for_loop n x (body y) d s
  = Some (fill chans (Z.to_nat (y * width_ s + x)) (slice wkb (ptr_ s) n) d,
          advance n s).
Proof.
  induction n as [|n IH]; intros x d s y Hy Hx Hw Hp Hi Hd.
  - cbn [for_loop]. unfold ret, slice. rewrite advance_0. reflexivity.
  - destruct (nth_error wkb (ptr_ s)) as [v|] eqn:Hv.
    2:{ apply nth_error_None in Hv. lia. }
    assert (0 <= y * width_ s) by nia.
    cbn [for_loop]. unfold bind at 1.
    rewrite (body_run y x d s v) by (auto; lia).
    rewrite IH; cbn [advance width_ ptr_];
      rewrite ?length_paint; try lia.
    rewrite (slice_S _ _ n _ Hv), fill_cons, advance_advance.
    replace (ptr_ s + 1)%nat with (S (ptr_ s)) by lia.
    replace (Z.to_nat (y * width_ s + (x + 1)))
      with (S (Z.to_nat (y * width_ s + x))) by lia.
    reflexivity.
Qed.

Lemma rows_run : forall n y d s,
  0 <= y -> 0 <= width_ s ->
  (ptr_ s + n * Z.to_nat (width_ s) <= length wkb)%nat ->
  4 * ((y + Z.of_nat n) * width_ s) <= INT_MAX ->
  4 * ((y + Z.of_nat n) * width_ s) <= Z.of_nat (length d) ->
  rows body y n d s
  = Some (fill chans (Z.to_nat (y * width_ s))
               (slice wkb (ptr_ s) (n * Z.to_nat (width_ s))) d,
          advance (n * Z.to_nat (width_ s)) s).
Proof.
  unfold rows.
  induction n as [|n IH]; intros y d s Hy Hw Hp Hi Hd.
  - cbn [for_loop Nat.mul]. unfold ret, slice. rewrite advance_0.
    reflexivity.
  - assert (0 <= y * width_ s) by nia.
    cbn [for_loop]. unfold bind at 1. unfold bind at 1. unfold get at 1.
    rewrite row_run by (auto; nia).
    rewrite IH; cbn [advance width_ ptr_];
      rewrite ?length_fill; try nia.
    rewrite advance_advance.
    replace (S n * Z.to_nat (width_ s))%nat
      with (Z.to_nat (width_ s) + n * Z.to_nat (width_ s))%nat by lia.
    rewrite slice_add by nia.
    rewrite fill_app, length_slice by nia.
    replace (Z.to_nat ((y + 1) * width_ s))
      with (Z.to_nat (y * width_ s + 0) + Z.to_nat (width_ s))%nat by nia.
    rewrite Z.add_0_r. reflexivity.
Qed.

End PixelLoops.

Lemma grayscale_pixel_run wkb y x d s v :
  nth_error wkb (ptr_ s) = Some v ->
  0 <= y -> 0 <= x -> 0 <= width_ s ->
  4 * (y * width_ s + x) + 3 <= INT_MAX ->
  4 * (y * width_ s + x) + 3 < Z.of_nat (length d) ->
  grayscale_pixel wkb 4 y x d s
  = Some (paint [0; 1; 2]%nat (Z.to_nat (y * width_ s + x)) v d, advance 1 s).
Proof.
  intros Hv Hy Hx Hw Hi Hd.
  assert (0 <= y * width_ s) by nia.
  unfold grayscale_pixel, bind, get. rewrite (read_uint8_some _ _ _ Hv).
  cbn [width_ advance].
  rewrite pixel_offset_small by (auto; lia).
  unfold INT_MAX in *.
  rewrite !int32_small by lia.
  rewrite store_some by lia.
  rewrite store_some by (rewrite length_upd; lia).
  rewrite store_some by (rewrite !length_upd; lia).
  unfold paint. cbn [fold_left]. repeat f_equal; lia.
Qed.

Lemma rgb_pixel_run wkb bn y x d s v :
  0 <= bn < 4 ->
  nth_error wkb (ptr_ s) = Some v ->
  0 <= y -> 0 <= x -> 0 <= width_ s ->
  4 * (y * width_ s + x) + 3 <= INT_MAX ->
  4 * (y * width_ s + x) + 3 < Z.of_nat (length d) ->
  rgb_pixel wkb 4 bn y x d s
  = Some (paint [Z.to_nat bn] (Z.to_nat (y * width_ s + x)) v d, advance 1 s).
Proof.
  intros Hbn Hv Hy Hx Hw Hi Hd.
  assert (0 <= y * width_ s) by nia.
  unfold rgb_pixel, bind, get. rewrite (read_uint8_some _ _ _ Hv).
  cbn [width_ advance].
  rewrite pixel_offset_small by (auto; lia).
  unfold INT_MAX in *.
  rewrite !int32_small by lia.
  rewrite store_some by lia.
  unfold paint. cbn [fold_left]. repeat f_equal; lia.
Qed.

(** ** Running the header

    What a primitive read returns depends on the cursor only: it is the
    field at the cursor's offset, and the cursor moves by the field's
    width. *)

Ltac unfold_read :=
  unfold at_field, field, read_int32, read_uint32, read_float64, read_uint16,
    read_uint8, bind, peek, skip, ret, at_offset;
  repeat (cbn [ptr_ advance pgraster_wkb_reader Nat.add];
          match goal with
          | |- context [nth_error ?l ?i] => destruct (nth_error l i)
          end);
  try reflexivity.

Lemma peek0_field wkb s : peek wkb 0 s = at_field (peek wkb 0) 0 s.
Proof. unfold_read. rewrite advance_0. reflexivity. Qed.

Lemma read_uint16_field wkb e s :
  read_uint16 wkb e s = at_field (read_uint16 wkb e) 2 s.
Proof. unfold_read. Qed.

Lemma read_float64_field wkb e s :
  read_float64 wkb e s = at_field (read_float64 wkb e) 8 s.
Proof. unfold_read. Qed.

Lemma read_int32_field wkb e s :
  read_int32 wkb e s = at_field (read_int32 wkb e) 4 s.
Proof. unfold_read. Qed.

Lemma at_field_some {A} (m : M A) width s p a :
  ptr_ s = p -> field m p = Some a ->
  at_field m width s = Some (a, advance width s).
Proof. intros <- H. unfold at_field. rewrite H. reflexivity. Qed.

Lemma parse_header_version wkb hd :
  parse_header wkb = Some hd -> hdr_version wkb = Some (h_version hd).
Proof.
  unfold parse_header, hdr_version, obind. intros H.
  repeat match type of H with
         | match ?o with _ => _ end = _ => destruct o; try discriminate
         end.
  injection H as <-. reflexivity.
Qed.

Ltac read_field E :=
  erewrite at_field_some; [ | | exact E]; [ | reflexivity].

Lemma get_raster_version wkb uninit size v :
  hdr_version wkb = Some v -> v <> 0 ->
  get_raster wkb uninit (pgraster_wkb_reader size)
  = Some (None, mk_state size 3 0 0 0 [W_version v]).
Proof.
  unfold hdr_version, hdr_endian, obind. intros H Hv.
  destruct (field (peek wkb 0) 0) as [e|] eqn:He; [|discriminate].
  unfold get_raster. unfold bind at 1.
  rewrite peek0_field; read_field He.
  unfold bind at 1. unfold skip at 1.
  unfold bind at 1.
  rewrite read_uint16_field; read_field H.
  unfold nonzero. destruct (Z.eqb_spec v 0); [contradiction|].
  reflexivity.
Qed.

Lemma get_raster_header wkb uninit size hd :
  parse_header wkb = Some hd -> h_version hd = 0 ->
  get_raster wkb uninit (pgraster_wkb_reader size)
  = decode_bands wkb uninit hd (after_header size hd []).
Proof.
  unfold parse_header, hdr_endian, obind. intros H Hv.
  repeat match type of H with
         | match ?o with _ => _ end = _ =>
             let E := fresh "E" in destruct o eqn:E; try discriminate
         end.
  injection H as <-. cbn [h_version] in Hv. subst.
  unfold get_raster. unfold bind at 1.
  rewrite peek0_field; read_field E.
  unfold bind at 1. unfold skip at 1.
  unfold bind at 1.
  rewrite read_uint16_field; read_field E0.
  cbn [nonzero Z.eqb negb].
  unfold bind at 1.
  rewrite read_uint16_field; read_field E1.
  unfold bind at 1. unfold set_numBands at 1.
  cbn [ptr_ advance Nat.add wkbsize_ numBands_ width_ height_ warnings
       pgraster_wkb_reader].
  unfold bind at 1.
  rewrite read_float64_field; read_field E2.
  unfold bind at 1.
  rewrite read_float64_field; read_field E3.
  unfold bind at 1.
  rewrite read_float64_field; read_field E4.
  unfold bind at 1.
  rewrite read_float64_field; read_field E5.
  unfold bind at 1.
  rewrite read_float64_field; read_field E6.
  unfold bind at 1.
  rewrite read_float64_field; read_field E7.
  unfold bind at 1.
  rewrite read_int32_field; read_field E8.
  unfold bind at 1.
  rewrite read_uint16_field; read_field E9.
  unfold bind at 1. unfold set_width at 1.
  cbn [ptr_ advance Nat.add wkbsize_ numBands_ width_ height_ warnings].
  unfold bind at 1.
  rewrite read_uint16_field; read_field E10.
  unfold bind at 1. unfold set_height at 1.
  cbn [ptr_ advance Nat.add wkbsize_ numBands_ width_ height_ warnings].
  unfold decode_bands, header_extent, after_header, HEADER_SIZE.
  cbn [h_skewX h_skewY h_numBands h_width h_height h_ipX h_ipY h_scaleX
       h_scaleY].
  destruct (dtrue d3 || dtrue d4); [reflexivity|].
  unfold bind at 1. unfold get at 1. cbn [numBands_].
  reflexivity.
Qed.

(** ** Running a band *)

Lemma add_warnings_nil s : add_warnings [] s = s.
Proof. destruct s; unfold add_warnings; simpl. rewrite app_nil_r. reflexivity. Qed.

Lemma warn_run w s : warn w s = Some (tt, add_warnings [w] s).
Proof. reflexivity. Qed.

Lemma band_skipped_false tag :
  band_skipped tag = false ->
  nonzero (if nonzero (BANDTYPE_IS_OFFDB (u8 tag)) then 1 else 0) = false
  /\ (BANDTYPE_PIXTYPE (u8 tag) >? PT_8BUI)
     || (BANDTYPE_PIXTYPE (u8 tag) <? PT_8BSI) = false.
Proof.
  unfold band_skipped. intros H.
  apply orb_false_iff in H as [H H2]. apply orb_false_iff in H as [H0 H1].
  rewrite H0, H1, H2. split; reflexivity.
Qed.

Lemma offline_nonzero tag :
  nonzero (if nonzero (BANDTYPE_IS_OFFDB (u8 tag)) then 1 else 0)
  = nonzero (BANDTYPE_IS_OFFDB (u8 tag)).
Proof. destruct (nonzero (BANDTYPE_IS_OFFDB (u8 tag))); reflexivity. Qed.

Lemma read_grayscale_offline wkb r s tag :
  nth_error wkb (ptr_ s) = Some tag ->
  nonzero (BANDTYPE_IS_OFFDB (u8 tag)) = true ->
  read_grayscale wkb r s
  = Some (set_premultiplied true (image_set_white r),
          add_warnings [W_offline None] (advance 1 s)).
Proof.
  intros Ht Hoff. unfold read_grayscale. unfold bind at 1.
  rewrite (read_uint8_some _ _ _ Ht), offline_nonzero, Hoff.
  reflexivity.
Qed.

Lemma read_grayscale_supported wkb r s tag nodata :
  nth_error wkb (ptr_ s) = Some tag ->
  band_skipped tag = false ->
  nth_error wkb (ptr_ s + 1) = Some nodata ->
  0 <= width_ s -> 0 <= height_ s ->
  (ptr_ s + 2 + payload_size s <= length wkb)%nat ->
  4 * (height_ s * width_ s) <= INT_MAX ->
  length (data_ r) = (4 * payload_size s)%nat ->
  read_grayscale wkb r s
  = Some (set_data (fill [0; 1; 2]%nat 0
                         (slice wkb (ptr_ s + 2) (payload_size s))
                         (map (fun _ => xff) (data_ r)))
                   (set_premultiplied true (image_set_white r)),
          advance (2 + payload_size s) (add_warnings (nodata_warning tag) s)).
Proof.
  intros Ht Hsk Hn Hw Hh Hp Hi Hd. unfold payload_size in *.
  destruct (band_skipped_false _ Hsk) as [Hoff Htype].
  unfold read_grayscale. unfold bind at 1.
  rewrite (read_uint8_some _ _ _ Ht), Hoff, Htype.
  unfold bind at 1. rewrite (read_uint8_some wkb _ nodata) by exact Hn.
  unfold bind at 1.
  assert (Hwarn :
    (if nonzero (if nonzero (BANDTYPE_HAS_NODATA (u8 tag)) then 1 else 0)
     then warn W_nodata_unsupported else ret tt) (advance 1 (advance 1 s))
    = Some (tt, add_warnings (nodata_warning tag) (advance 2 s))).
  { unfold nodata_warning.
    destruct (nonzero (BANDTYPE_HAS_NODATA (u8 tag))); cbn [nonzero Z.eqb negb].
    - rewrite warn_run, advance_advance. reflexivity.
    - unfold ret. rewrite add_warnings_nil, advance_advance. reflexivity. }
  rewrite Hwarn. unfold bind at 1. unfold get at 1.
  cbn [height_ add_warnings advance].
  unfold bind at 1.
  match goal with
  | |- context [for_loop ?n 0 ?f ?d0 ?s0] =>
      change (for_loop n 0 f d0 s0) with (rows (grayscale_pixel wkb 4) 0 n d0 s0)
  end.
  rewrite (rows_run wkb [0; 1; 2]%nat);
    cbn [width_ ptr_ data_ set_premultiplied image_set_white add_warnings
         advance];
    rewrite ?length_map, ?Hd, ?Z2Nat.id by lia;
    auto using grayscale_pixel_run; try nia.
  unfold ret. cbn [Z.mul Z.to_nat]. unfold advance, add_warnings.
  cbn [wkbsize_ ptr_ numBands_ width_ height_ warnings].
  rewrite (Nat.add_assoc (ptr_ s)). reflexivity.
Qed.

Lemma rgb_band_offline wkb bn acc s tag :
  nth_error wkb (ptr_ s) = Some tag ->
  nonzero (BANDTYPE_IS_OFFDB (u8 tag)) = true ->
  rgb_band wkb bn acc s
  = Some (acc, add_warnings [W_offline (Some bn)] (advance 1 s)).
Proof.
  intros Ht Hoff. destruct acc as [nd d].
  unfold rgb_band. unfold bind at 1.
  rewrite (read_uint8_some _ _ _ Ht), offline_nonzero, Hoff.
  reflexivity.
Qed.

Lemma rgb_band_unsupported wkb bn acc s tag :
  nth_error wkb (ptr_ s) = Some tag ->
  nonzero (BANDTYPE_IS_OFFDB (u8 tag)) = false ->
  (BANDTYPE_PIXTYPE (u8 tag) >? PT_8BUI)
  || (BANDTYPE_PIXTYPE (u8 tag) <? PT_8BSI) = true ->
  rgb_band wkb bn acc s
  = Some (acc, add_warnings [W_bandtype (Some bn) tag] (advance 1 s)).
Proof.
  intros Ht Hoff Hty. destruct acc as [nd d].
  unfold rgb_band. unfold bind at 1.
  rewrite (read_uint8_some _ _ _ Ht), offline_nonzero, Hoff, Hty.
  reflexivity.
Qed.

Lemma rgb_band_supported wkb bn nodataval d s tag tmp :
  0 <= bn < 4 ->
  nth_error wkb (ptr_ s) = Some tag ->
  band_skipped tag = false ->
  nth_error wkb (ptr_ s + 1) = Some tmp ->
  0 <= width_ s -> 0 <= height_ s ->
  (ptr_ s + 2 + payload_size s <= length wkb)%nat ->
  4 * (height_ s * width_ s) <= INT_MAX ->
  length d = (4 * payload_size s)%nat ->
  rgb_band wkb bn (nodataval, d) s
  = Some ((if negb (nonzero bn) then tmp else nodataval,
           fill [Z.to_nat bn] 0 (slice wkb (ptr_ s + 2) (payload_size s)) d),
          advance (2 + payload_size s)
                  (add_warnings (mismatch_warning bn tmp nodataval) s)).
Proof.
  intros Hbn Ht Hsk Hn Hw Hh Hp Hi Hd. unfold payload_size in *.
  destruct (band_skipped_false _ Hsk) as [Hoff Htype].
  unfold rgb_band. unfold bind at 1.
  rewrite (read_uint8_some _ _ _ Ht), Hoff, Htype.
  unfold bind at 1. rewrite (read_uint8_some wkb _ tmp) by exact Hn.
  unfold bind at 1.
  assert (Hwarn :
    (if negb (nonzero bn) then ret tmp
     else if negb (u8 tmp =? u8 nodataval)
          then warn (W_nodataval bn tmp nodataval);;; ret nodataval
          else ret nodataval) (advance 1 (advance 1 s))
    = Some (if negb (nonzero bn) then tmp else nodataval,
            add_warnings (mismatch_warning bn tmp nodataval) (advance 2 s))).
  { unfold mismatch_warning. rewrite advance_advance.
    destruct (negb (nonzero bn)).
    - unfold ret. rewrite add_warnings_nil. reflexivity.
    - destruct (negb (u8 tmp =? u8 nodataval)).
      + reflexivity.
      + unfold ret. rewrite add_warnings_nil. reflexivity. }
  rewrite Hwarn. unfold bind at 1. unfold get at 1.
  cbn [height_ add_warnings advance].
  unfold bind at 1.
  match goal with
  | |- context [for_loop ?n 0 ?f ?d0 ?s0] =>
      change (for_loop n 0 f d0 s0) with (rows (rgb_pixel wkb 4 bn) 0 n d0 s0)
  end.
  rewrite (rows_run wkb [Z.to_nat bn]);
    cbn [width_ ptr_ add_warnings advance];
    rewrite ?Hd, ?Z2Nat.id by lia;
    auto using rgb_pixel_run; try nia.
  unfold ret. cbn [Z.mul Z.to_nat]. unfold advance, add_warnings.
  cbn [wkbsize_ ptr_ numBands_ width_ height_ warnings].
  rewrite (Nat.add_assoc (ptr_ s)). reflexivity.
Qed.

(** ** Inputs that agree on a range of offsets *)

Lemma agree_sub wkb1 wkb2 lo hi lo' hi' :
  agree wkb1 wkb2 lo hi -> (lo <= lo')%nat -> (hi' <= hi)%nat ->
  agree wkb1 wkb2 lo' hi'.
Proof. intros H Hlo Hhi i Hi. apply H. lia. Qed.

Lemma agree_firstn wkb1 wkb2 n :
  firstn n wkb1 = firstn n wkb2 -> agree wkb1 wkb2 0 n.
Proof.
  intros H i Hi.
  rewrite <- (firstn_skipn n wkb1), <- (firstn_skipn n wkb2), H.
  assert (i < length (firstn n wkb2) \/ length (firstn n wkb2) <= i)%nat
    as [Hlt|Hge] by lia.
  - rewrite !nth_error_app1 by lia. reflexivity.
  - (* both lists are shorter than [n]: they are their own prefixes *)
    assert (Hlen : (length (firstn n wkb2) < n)%nat) by lia.
    assert (Hl1 : length (firstn n wkb1) = length (firstn n wkb2))
      by (rewrite H; reflexivity).
    rewrite !length_firstn in *.
    rewrite !skipn_all2 by lia. reflexivity.
Qed.

Ltac agree_fields H :=
  unfold field, read_int32, read_uint32, read_float64, read_uint16,
    read_uint8, bind, peek, skip, ret, at_offset;
  repeat (cbn [ptr_ advance pgraster_wkb_reader Nat.add];
          match goal with
          | |- context [nth_error ?l ?i] =>
              rewrite (H i) by lia;
              match goal with
              | |- context [nth_error ?l' i] => destruct (nth_error l' i)
              end
          end);
  try reflexivity.

Lemma field_peek0_agree wkb1 wkb2 p :
  agree wkb1 wkb2 p (p + 1) ->
  field (peek wkb1 0) p = field (peek wkb2 0) p.
Proof. intros H. agree_fields H. Qed.

Lemma field_uint16_agree wkb1 wkb2 e p :
  agree wkb1 wkb2 p (p + 2) ->
  field (read_uint16 wkb1 e) p = field (read_uint16 wkb2 e) p.
Proof. intros H. agree_fields H. Qed.

Lemma field_float64_agree wkb1 wkb2 e p :
  agree wkb1 wkb2 p (p + 8) ->
  field (read_float64 wkb1 e) p = field (read_float64 wkb2 e) p.
Proof. intros H. agree_fields H. Qed.

Lemma field_int32_agree wkb1 wkb2 e p :
  agree wkb1 wkb2 p (p + 4) ->
  field (read_int32 wkb1 e) p = field (read_int32 wkb2 e) p.
Proof. intros H. agree_fields H. Qed.

Lemma hdr_version_agree wkb1 wkb2 :
  agree wkb1 wkb2 0 3 -> hdr_version wkb1 = hdr_version wkb2.
Proof.
  intros H. unfold hdr_version, hdr_endian.
  rewrite (field_peek0_agree wkb1 wkb2) by (eapply agree_sub; eauto; lia).
  destruct (field (peek wkb2 0) 0); cbn [obind]; auto.
  apply field_uint16_agree. eapply agree_sub; eauto; lia.
Qed.

Lemma parse_header_agree wkb1 wkb2 :
  agree wkb1 wkb2 0 HEADER_SIZE -> parse_header wkb1 = parse_header wkb2.
Proof.
  unfold HEADER_SIZE. intros H. unfold parse_header, hdr_endian.
  rewrite (field_peek0_agree wkb1 wkb2) by (eapply agree_sub; eauto; lia).
  destruct (field (peek wkb2 0) 0) as [e|]; cbn [obind]; auto.
  rewrite !(field_uint16_agree wkb1 wkb2) by (eapply agree_sub; eauto; lia).
  rewrite !(field_float64_agree wkb1 wkb2) by (eapply agree_sub; eauto; lia).
  rewrite !(field_int32_agree wkb1 wkb2) by (eapply agree_sub; eauto; lia).
  reflexivity.
Qed.

(** ** Unsupported inputs *)

(** C7: when the 2-byte version field is not zero, [get_raster] returns the
    null raster with the "WKB version unsupported" warning, the cursor stops
    right after the version field (offset 3), and no byte after that field
    has any influence on the outcome. *)
Theorem C7_unsupported_version wkb size uninit v :
  hdr_version wkb = Some v -> v <> 0 ->
  decode wkb size uninit = Some (None, [W_version v])
  /\ final_cursor wkb size uninit = Some 3%nat
  /\ (forall wkb', firstn 3 wkb' = firstn 3 wkb ->
                   decode wkb' size uninit = decode wkb size uninit).
Proof.
  intros Hv Hnz.
  assert (Hrun : forall w, hdr_version w = Some v ->
                           decode w size uninit = Some (None, [W_version v])).
  { intros w Hw. unfold decode.
    rewrite (get_raster_version _ _ _ _ Hw Hnz). reflexivity. }
  split; [auto|]. split.
  - unfold final_cursor. rewrite (get_raster_version _ _ _ _ Hv Hnz).
    reflexivity.
  - intros wkb' Hpre. rewrite (Hrun wkb Hv). apply Hrun.
    rewrite <- Hv. apply hdr_version_agree, agree_firstn, Hpre.
Qed.

Lemma C7_unsupported_version_witness :
  decode version1_input 3 x00 = Some (None, [W_version 256])
  /\ final_cursor version1_input 3 x00 = Some 3%nat.
Proof.
  destruct (C7_unsupported_version version1_input 3 x00 256) as (H1 & H2 & _).
  - reflexivity.
  - discriminate.
  - split; assumption.
Defined.

Lemma decode_bands_count wkb uninit hd s :
  dtrue (h_skewX hd) = false -> dtrue (h_skewY hd) = false ->
  h_numBands hd <> 1 -> h_numBands hd <> 3 ->
  decode_bands wkb uninit hd s
  = Some (None, add_warnings [W_bands (h_numBands hd)] s).
Proof.
  intros Hx Hy H1 H3. unfold decode_bands. rewrite Hx, Hy. cbn [orb].
  destruct (Z.eqb_spec (h_numBands hd) 1); [contradiction|].
  destruct (Z.eqb_spec (h_numBands hd) 3); [contradiction|].
  reflexivity.
Qed.

(** C8: when the header is there, with version 0 and no skew, and the number
    of bands is neither 1 nor 3, [get_raster] returns the null raster with the
    "bands is not supported" warning, the cursor stops at the end of the
    header (offset 61), and no byte after the header (no band header, no
    pixel) has any influence on the outcome. *)
Theorem C8_unsupported_band_count wkb size uninit hd :
  parse_header wkb = Some hd -> h_version hd = 0 ->
  dtrue (h_skewX hd) = false -> dtrue (h_skewY hd) = false ->
  h_numBands hd <> 1 -> h_numBands hd <> 3 ->
  decode wkb size uninit = Some (None, [W_bands (h_numBands hd)])
  /\ final_cursor wkb size uninit = Some HEADER_SIZE
  /\ (forall wkb', firstn HEADER_SIZE wkb' = firstn HEADER_SIZE wkb ->
                   decode wkb' size uninit = decode wkb size uninit).
Proof.
  intros Hp Hv Hx Hy H1 H3.
  assert (Hrun : forall w, parse_header w = Some hd ->
            get_raster w uninit (pgraster_wkb_reader size)
            = Some (None, add_warnings [W_bands (h_numBands hd)]
                                       (after_header size hd []))).
  { intros w Hw. rewrite (get_raster_header _ _ _ _ Hw Hv).
    apply decode_bands_count; assumption. }
  split; [|split].
  - unfold decode. rewrite (Hrun wkb Hp). reflexivity.
  - unfold final_cursor. rewrite (Hrun wkb Hp). reflexivity.
  - intros wkb' Hpre. unfold decode. rewrite (Hrun wkb Hp), (Hrun wkb'); auto.
    rewrite <- Hp. apply parse_header_agree, agree_firstn, Hpre.
Qed.

Lemma C8_unsupported_band_count_witness :
  decode two_bands_input 61 x00 = Some (None, [W_bands 2])
  /\ final_cursor two_bands_input 61 x00 = Some 61%nat.
Proof.
  destruct (parse_header two_bands_input) as [hd|] eqn:Hp;
    [|vm_compute in Hp; discriminate].
  assert (Hhd : h_version hd = 0 /\ dtrue (h_skewX hd) = false
                /\ dtrue (h_skewY hd) = false /\ h_numBands hd = 2).
  { vm_compute in Hp. injection Hp as <-. repeat split. }
  destruct Hhd as (Hv & Hx & Hy & Hn).
  destruct (C8_unsupported_band_count two_bands_input 61 x00 hd Hp Hv Hx Hy)
    as (H1 & H2 & _); try (rewrite Hn; discriminate).
  rewrite Hn in H1. split; assumption.
Defined.

(** ** Offline bands *)

Lemma offdb_bit tag :
  nonzero (BANDTYPE_IS_OFFDB (u8 tag)) = Z.testbit (u8 tag) 7.
Proof. destruct tag; reflexivity. Qed.

(** C3, as stated, fails: the band of this 1-band input has the
    off-database bit set, and the cursor after it is at offset 62, right
    after the tag byte, not at 63, after the tag and the nodata byte. *)
Lemma C3_counterexample :
  nth_error offline_gray_input HEADER_SIZE = Some (byte_of 132)
  /\ Z.testbit (u8 (byte_of 132)) 7 = true
  /\ final_cursor offline_gray_input 65 x00 = Some (HEADER_SIZE + 1)%nat
  /\ final_cursor offline_gray_input 65 x00 <> Some (HEADER_SIZE + 2)%nat.
Proof. vm_compute. repeat split; discriminate. Qed.

(** C3, amended: for a band whose tag byte has the off-database bit (bit 7)
    set, nothing is consumed after the tag: no pixel byte and not the nodata
    byte either.  In both paths the cursor after the band is right after the
    1-byte tag, the image is left as it was (white, in the 1-band path), and
    in the 3-band path the next band starts there. *)
Theorem C3_offline_band wkb s tag :
  nth_error wkb (ptr_ s) = Some tag ->
  Z.testbit (u8 tag) 7 = true ->
  (forall r, exists r' s',
      read_grayscale wkb r s = Some (r', s')
      /\ ptr_ s' = (ptr_ s + 1)%nat
      /\ data_ r' = map (fun _ => xff) (data_ r))
  /\ (forall bn acc, exists s',
         rgb_band wkb bn acc s = Some (acc, s')
         /\ ptr_ s' = (ptr_ s + 1)%nat).
Proof.
  intros Ht Hbit. rewrite <- offdb_bit in Hbit. split.
  - intros r. do 2 eexists.
    rewrite (read_grayscale_offline _ _ _ _ Ht Hbit).
    repeat split.
  - intros bn acc. eexists.
    rewrite (rgb_band_offline _ _ _ _ _ Ht Hbit).
    repeat split.
Qed.

Lemma C3_offline_band_witness :
  exists s',
    rgb_band offline_gray_input 0 (x00, [xff; xff; xff; xff])
             (at_offset HEADER_SIZE)
    = Some ((x00, [xff; xff; xff; xff]), s')
    /\ ptr_ s' = 62%nat.
Proof.
  destruct (C3_offline_band offline_gray_input (at_offset HEADER_SIZE)
                            (byte_of 132)) as [_ H].
  - reflexivity.
  - reflexivity.
  - exact (H 0 (x00, [xff; xff; xff; xff])).
Defined.

(** ** Valid inputs *)

Lemma supported_band_not_skipped tag :
  supported_band tag -> band_skipped tag = false.
Proof.
  intros [Hoff Hty]. unfold band_skipped. rewrite offdb_bit, Hoff.
  unfold PT_8BSI, PT_8BUI in *.
  destruct Hty as [-> | ->]; reflexivity.
Qed.

Lemma field_uint16_range wkb e p v :
  field (read_uint16 wkb e) p = Some v -> 0 <= v < 65536.
Proof.
  unfold field, read_uint16, bind, peek, skip, ret. intros H.
  repeat match type of H with
         | context [nth_error ?l ?i] => destruct (nth_error l i)
         end; try discriminate.
  injection H as <-. unfold uint16. apply Z.mod_pos_bound. reflexivity.
Qed.

Lemma parse_header_size wkb hd :
  parse_header wkb = Some hd ->
  0 <= h_width hd < 65536 /\ 0 <= h_height hd < 65536.
Proof.
  unfold parse_header, obind. intros H.
  repeat match type of H with
         | match ?o with _ => _ end = _ =>
             let E := fresh "E" in destruct o eqn:E; try discriminate
         end.
  injection H as <-. cbn [h_width h_height].
  split; eapply field_uint16_range; eassumption.
Qed.

Lemma nth_error_white n i :
  (i < n)%nat -> nth_error (map (fun _ : byte => xff) (repeat x00 n)) i = Some xff.
Proof.
  intros H. rewrite nth_error_map, nth_error_repeat by exact H. reflexivity.
Qed.

Lemma pixel_index rows cols row col :
  (row < rows)%nat -> (col < cols)%nat -> (row * cols + col < rows * cols)%nat.
Proof. intros. nia. Qed.

Lemma decode_bands_gray wkb uninit hd s :
  dtrue (h_skewX hd) = false -> dtrue (h_skewY hd) = false ->
  h_numBands hd = 1 ->
  decode_bands wkb uninit hd s
  = (r <- read_grayscale wkb
            (new_raster (header_extent hd) (h_width hd) (h_height hd)) ;;
     ret (Some r)) s.
Proof.
  intros Hx Hy Hn. unfold decode_bands. rewrite Hx, Hy, Hn. reflexivity.
Qed.

Lemma decode_bands_rgb wkb uninit hd s :
  dtrue (h_skewX hd) = false -> dtrue (h_skewY hd) = false ->
  h_numBands hd = 3 ->
  decode_bands wkb uninit hd s
  = (r <- read_rgb wkb uninit
            (new_raster (header_extent hd) (h_width hd) (h_height hd)) ;;
     ret (Some r)) s.
Proof.
  intros Hx Hy Hn. unfold decode_bands. rewrite Hx, Hy, Hn. reflexivity.
Qed.



(** ** Three supported bands *)

Lemma rgb_band_supported_at wkb bn nodataval d s p :
  0 <= bn < 4 -> ptr_ s = p -> supported_at wkb p ->
  0 <= width_ s -> 0 <= height_ s ->
  (p + 2 + payload_size s <= length wkb)%nat ->
  4 * (height_ s * width_ s) <= INT_MAX ->
  length d = (4 * payload_size s)%nat ->
  exists nodataval' ws,
    rgb_band wkb bn (nodataval, d) s
    = Some ((nodataval',
             fill [Z.to_nat bn] 0 (slice wkb (p + 2) (payload_size s)) d),
            advance (2 + payload_size s) (add_warnings ws s)).
Proof.
  intros Hbn <- (tag & Ht & Hs) Hw Hh Hlen Hint Hd.
  destruct (nth_error wkb (ptr_ s + 1)) as [tmp|] eqn:Hnd.
  2:{ apply nth_error_None in Hnd. lia. }
  do 2 eexists.
  apply (rgb_band_supported wkb bn nodataval d s tag tmp);
    auto using supported_band_not_skipped.
Qed.

Lemma payload_size_advance k ws s :
  payload_size (advance k (add_warnings ws s)) = payload_size s.
Proof. reflexivity. Qed.

Lemma read_rgb_supported wkb uninit r s :
  numBands_ s = 3 ->
  (forall k, (k < 3)%nat ->
             supported_at wkb (ptr_ s + k * (2 + payload_size s))) ->
  0 <= width_ s -> 0 <= height_ s ->
  (ptr_ s + 3 * (2 + payload_size s) <= length wkb)%nat ->
  4 * (height_ s * width_ s) <= INT_MAX ->
  length (data_ r) = (4 * payload_size s)%nat ->
  exists ws,
    read_rgb wkb uninit r s
    = Some (set_data (rgb_image wkb (ptr_ s) (payload_size s)
                                (map (fun _ => xff) (data_ r)))
                     (set_premultiplied true (image_set_white r)),
            advance (3 * (2 + payload_size s)) (add_warnings ws s)).
Proof.
  intros Hn Htags Hw Hh Hlen Hint Hd.
  set (n := payload_size s) in *.
  unfold read_rgb. unfold bind at 1. unfold get at 1. rewrite Hn.
  change (Z.to_nat 3) with 3%nat. cbn [for_loop].
  cbn [data_ set_premultiplied image_set_white].
  destruct (rgb_band_supported_at wkb 0 uninit
              (map (fun _ => xff) (data_ r)) s (ptr_ s + 0 * (2 + n)))
    as (nd0 & ws0 & E0);
    rewrite ?length_map; auto; try lia.
  unfold bind at 1. unfold bind at 1. rewrite E0. fold n.
  set (s1 := advance (2 + n) (add_warnings ws0 s)).
  destruct (rgb_band_supported_at wkb (0 + 1) nd0
              (fill [Z.to_nat 0] 0 (slice wkb (ptr_ s + 0 * (2 + n) + 2) n)
                    (map (fun _ => xff) (data_ r)))
              s1 (ptr_ s + 1 * (2 + n)))
    as (nd1 & ws1 & E1);
    subst s1; rewrite ?length_fill, ?length_map, ?payload_size_advance;
    cbn [ptr_ width_ height_ advance add_warnings]; fold n;
    auto; try lia.
  unfold bind at 1. rewrite E1, !payload_size_advance. fold n.
  set (s2 := advance (2 + n) (add_warnings ws1
                (advance (2 + n) (add_warnings ws0 s)))).
  destruct (rgb_band_supported_at wkb (0 + 1 + 1) nd1
              (fill [Z.to_nat (0 + 1)] 0
                    (slice wkb (ptr_ s + 1 * (2 + n) + 2) n)
                 (fill [Z.to_nat 0] 0 (slice wkb (ptr_ s + 0 * (2 + n) + 2) n)
                       (map (fun _ => xff) (data_ r))))
              s2 (ptr_ s + 2 * (2 + n)))
    as (nd2 & ws2 & E2);
    subst s2; rewrite ?length_fill, ?length_map, ?payload_size_advance;
    cbn [ptr_ width_ height_ advance add_warnings]; fold n;
    auto; try lia.
  unfold bind at 1. rewrite E2, !payload_size_advance. fold n.
  exists (ws0 ++ ws1 ++ ws2).
  unfold ret, rgb_image, set_data, advance, add_warnings.
  cbn [snd ptr_ width_ height_ numBands_ wkbsize_ warnings ext_ data_width
       data_height data_ premultiplied_alpha_ set_premultiplied
       image_set_white].
  rewrite <- !app_assoc.
  change (Z.to_nat (0 + 1 + 1)) with 2%nat.
  change (Z.to_nat (0 + 1)) with 1%nat.
  change (Z.to_nat 0) with 0%nat.
  do 3 f_equal. lia.
Qed.

Lemma field_uint16_length wkb e p v :
  field (read_uint16 wkb e) p = Some v -> (p + 2 <= length wkb)%nat.
Proof.
  unfold field, read_uint16, bind, peek, skip, ret, at_offset.
  cbn [ptr_ advance pgraster_wkb_reader Nat.add]. intros H.
  destruct (nth_error wkb (p + 0));
    cbn [ptr_ advance pgraster_wkb_reader Nat.add] in H; [|discriminate].
  destruct (nth_error wkb (p + 1)) eqn:E; [|discriminate].
  assert (nth_error wkb (p + 1) <> None) as Hn by congruence.
  apply nth_error_Some in Hn. lia.
Qed.

Lemma parse_header_length wkb hd :
  parse_header wkb = Some hd -> (HEADER_SIZE <= length wkb)%nat.
Proof.
  unfold parse_header, obind. intros H.
  repeat match type of H with
         | match ?o with _ => _ end = _ =>
             let E := fresh "E" in destruct o eqn:E; try discriminate
         end.
  apply field_uint16_length in E10. exact E10.
Qed.

Lemma slice_skipn wkb a b n : slice wkb (a + b) n = slice (skipn a wkb) b n.
Proof.
  unfold slice. rewrite skipn_skipn. f_equal. f_equal. lia.
Qed.

Lemma rgb_image_skipn wkb p n d :
  rgb_image wkb p n d = rgb_image (skipn p wkb) 0 n d.
Proof.
  unfold rgb_image. rewrite <- !Nat.add_assoc, !slice_skipn. reflexivity.
Qed.

Lemma nth_error_rgb_image wkb p n d q c :
  (p + 3 * (2 + n) <= length wkb)%nat -> (4 * n <= length d)%nat ->
  (q < n)%nat -> (c < 4)%nat ->
  nth_error (rgb_image wkb p n d) (4 * q + c)
  = if Nat.ltb c 3 then nth_error wkb (p + c * (2 + n) + 2 + q)
    else nth_error d (4 * q + c).
Proof.
  intros Hlen Hd Hq Hc. unfold rgb_image.
  rewrite !nth_error_fill;
    rewrite ?length_fill, ?length_slice; try lia;
    try (repeat constructor; lia).
  destruct (Nat.ltb_spec q (0 + n)); [|lia].
  cbn [Nat.leb andb]. rewrite Nat.sub_0_r.
  rewrite !nth_error_slice by lia.
  destruct c as [|[|[|[|c]]]]; try lia; reflexivity.
Qed.

Lemma decode_rgb_run wkb size uninit hd :
  parse_header wkb = Some hd -> h_version hd = 0 ->
  dtrue (h_skewX hd) = false -> dtrue (h_skewY hd) = false ->
  h_numBands hd = 3 ->
  (forall k, (k < 3)%nat -> supported_at wkb (band_offset hd k)) ->
  (band_offset hd 3 <= length wkb)%nat ->
  4 * (h_height hd * h_width hd) <= INT_MAX ->
  exists ws s,
    get_raster wkb uninit (pgraster_wkb_reader size)
    = Some (Some (mk_raster (header_extent hd) (h_width hd) (h_height hd)
                    (rgb_image wkb HEADER_SIZE (h_pixels hd)
                               (repeat xff (4 * h_pixels hd)))
                    true), s)
    /\ ptr_ s = band_offset hd 3 /\ warnings s = ws.
Proof.
  intros Hp Hv Hx Hy Hn Htags Hlen Hint.
  destruct (parse_header_size _ _ Hp) as [Hw Hh].
  rewrite (get_raster_header _ _ _ _ Hp Hv), decode_bands_rgb by assumption.
  unfold band_offset, h_pixels, h_rows, h_cols in *.
  pose proof (read_rgb_supported wkb uninit
                (new_raster (header_extent hd) (h_width hd) (h_height hd))
                (after_header size hd [])) as E.
  destruct E as [ws E];
    try (unfold after_header, payload_size, new_raster;
         cbn [ptr_ width_ height_ numBands_ data_]; rewrite ?repeat_length;
         auto; lia).
  unfold bind at 1. rewrite E. unfold ret.
  unfold after_header, payload_size, new_raster, set_data, set_premultiplied,
    image_set_white.
  cbn [ptr_ width_ height_ numBands_ data_ ext_ data_width data_height
       premultiplied_alpha_].
  rewrite map_repeat.
  replace (Z.to_nat (4 * h_width hd * h_height hd))
    with (4 * (Z.to_nat (h_height hd) * Z.to_nat (h_width hd)))%nat by lia.
  do 2 eexists. split; [reflexivity|]. split; reflexivity.
Qed.



(** ** The extent *)

Lemma read_grayscale_shape wkb r s r' s' :
  read_grayscale wkb r s = Some (r', s') ->
  ext_ r' = ext_ r /\ data_width r' = data_width r
  /\ data_height r' = data_height r /\ premultiplied_alpha_ r' = true.
Proof.
  unfold read_grayscale, bind, ret, warn, get. intros H.
  repeat match type of H with
         | match ?o with _ => _ end = _ =>
             destruct o as [[? ?]|]; try discriminate
         | (if ?c then _ else _) _ = _ => destruct c
         | (if ?c then _ else _) = _ => destruct c
         end;
    injection H as <- _; repeat split.
Qed.

Lemma read_rgb_shape wkb uninit r s r' s' :
  read_rgb wkb uninit r s = Some (r', s') ->
  ext_ r' = ext_ r /\ data_width r' = data_width r
  /\ data_height r' = data_height r /\ premultiplied_alpha_ r' = true.
Proof.
  unfold read_rgb, bind, ret, get. intros H.
  destruct (for_loop _ _ _ _ _) as [[? ?]|]; try discriminate.
  injection H as <- _; repeat split.
Qed.

Lemma decode_extent wkb size uninit hd r ws :
  parse_header wkb = Some hd ->
  decode wkb size uninit = Some (Some r, ws) ->
  ext_ r = header_extent hd.
Proof.
  intros Hp. unfold decode.
  destruct (Z.eq_dec (h_version hd) 0) as [Hv|Hv].
  - rewrite (get_raster_header _ _ _ _ Hp Hv). unfold decode_bands.
    destruct (dtrue (h_skewX hd) || dtrue (h_skewY hd)); [discriminate|].
    destruct (h_numBands hd =? 1).
    { unfold bind, ret.
      destruct (read_grayscale _ _ _) as [[r' s']|] eqn:E; [|discriminate].
      intros H. injection H as <- _.
      apply read_grayscale_shape in E. apply E. }
    destruct (h_numBands hd =? 3).
    { unfold bind, ret.
      destruct (read_rgb _ _ _ _) as [[r' s']|] eqn:E; [|discriminate].
      intros H. injection H as <- _.
      apply read_rgb_shape in E. apply E. }
    discriminate.
  - rewrite (get_raster_version wkb uninit size (h_version hd));
      auto using parse_header_version.
    discriminate.
Qed.

(** C2, as stated, fails: the header with scale (2, -2), origin (0, 100),
    width 10 and height 5 does not decode to the extent [0,0]-[20,100]. *)
Lemma C2_counterexample :
  decoded_extent extent_input 113 x00
  <> Some (mk_box2d (double_of_int 0) (double_of_int 0)
                    (double_of_int 20) (double_of_int 100)).
Proof. vm_compute. discriminate. Qed.

Lemma decode_complete wkb size uninit hd :
  parse_header wkb = Some hd -> h_version hd = 0 ->
  dtrue (h_skewX hd) = false -> dtrue (h_skewY hd) = false ->
  complete_bands wkb hd ->
  4 * (h_height hd * h_width hd) <= INT_MAX ->
  exists r ws, decode wkb size uninit = Some (Some r, ws).
Proof.
  intros Hp Hv Hx Hy [(Hn & Ht & Hlen)|(Hn & Ht & Hlen)] Hint.
  - destruct (parse_header_size _ _ Hp) as [Hw Hh].
    destruct Ht as (tag & Ht & Hs).
    unfold band_offset, h_pixels, h_rows, h_cols, HEADER_SIZE in *.
    cbn [Nat.mul Nat.add] in Ht.
    destruct (nth_error wkb (61 + 1)) as [nodata|] eqn:Hnd.
    2:{ apply nth_error_None in Hnd. lia. }
    unfold decode.
    rewrite (get_raster_header _ _ _ _ Hp Hv), decode_bands_gray
      by assumption.
    unfold bind at 1.
    rewrite (read_grayscale_supported wkb _ _ tag nodata);
      unfold after_header, payload_size, HEADER_SIZE, new_raster;
      cbn [ptr_ width_ height_ data_]; rewrite ?repeat_length;
      auto using supported_band_not_skipped; try lia.
    do 2 eexists. reflexivity.
  - destruct (decode_rgb_run wkb size uninit hd) as (ws & s & E & _ & _);
      auto.
    unfold decode. rewrite E. do 2 eexists. reflexivity.
Qed.

(** C2, amended: the extent of the raster decoded from a header with
    scaleX=2.0, scaleY=-2.0, originX=0.0, originY=100.0, width=10, height=5
    is [0,90]-[20,100]: on each axis the bounds are the minimum and the
    maximum of the origin and of the origin plus size times scale, here
    min(100, 100 + 5 * -2) = 90 to 100 on Y.  This is the extent of every
    raster [get_raster] returns, and it returns one for every complete
    input. *)
Theorem C2_extent wkb size uninit hd :
  parse_header wkb = Some hd ->
  let x1 := dadd (h_ipX hd) (dmul (double_of_int (h_width hd)) (h_scaleX hd)) in
  let y1 := dadd (h_ipY hd) (dmul (double_of_int (h_height hd)) (h_scaleY hd)) in
  (forall r ws,
      decode wkb size uninit = Some (Some r, ws) ->
      ext_ r = mk_box2d (dmin (h_ipX hd) x1) (dmin (h_ipY hd) y1)
                        (dmax (h_ipX hd) x1) (dmax (h_ipY hd) y1)
      /\ (h_scaleX hd = double_of_int 2 -> h_scaleY hd = double_of_int (-2) ->
          h_ipX hd = double_of_int 0 -> h_ipY hd = double_of_int 100 ->
          h_width hd = 10 -> h_height hd = 5 ->
          ext_ r = mk_box2d (double_of_int 0) (double_of_int 90)
                            (double_of_int 20) (double_of_int 100)))
  /\ (h_version hd = 0 ->
      dtrue (h_skewX hd) = false -> dtrue (h_skewY hd) = false ->
      complete_bands wkb hd ->
      4 * (h_height hd * h_width hd) <= INT_MAX ->
      exists r ws, decode wkb size uninit = Some (Some r, ws)).
Proof.
  intros Hp x1 y1. split.
  2:{ intros. eapply decode_complete; eauto. }
  intros r ws Hd.
  assert (He : ext_ r = mk_box2d (dmin (h_ipX hd) x1) (dmin (h_ipY hd) y1)
                                 (dmax (h_ipX hd) x1) (dmax (h_ipY hd) y1)).
  { rewrite (decode_extent _ _ _ _ _ _ Hp Hd).
    unfold header_extent, box2d_init, dmin, dmax. fold x1 y1.
    destruct (dlt (h_ipX hd) x1), (dlt (h_ipY hd) y1); reflexivity. }
  split; [exact He|].
  intros Hsx Hsy Hx Hy Hw Hh. rewrite He. subst x1 y1.
  rewrite Hsx, Hsy, Hx, Hy, Hw, Hh. vm_compute. reflexivity.
Qed.

Lemma C2_extent_witness :
  decoded_extent extent_input 113 x00
  = Some (mk_box2d (double_of_int 0) (double_of_int 90)
                   (double_of_int 20) (double_of_int 100)).
Proof.
  destruct (parse_header extent_input) as [hd|] eqn:Hp;
    [|vm_compute in Hp; discriminate].
  assert (Hhd : h_version hd = 0 /\ dtrue (h_skewX hd) = false
                /\ dtrue (h_skewY hd) = false /\ h_numBands hd = 1
                /\ h_width hd = 10 /\ h_height hd = 5
                /\ h_scaleX hd = double_of_int 2
                /\ h_scaleY hd = double_of_int (-2)
                /\ h_ipX hd = double_of_int 0
                /\ h_ipY hd = double_of_int 100).
  { vm_compute in Hp. injection Hp as <-. repeat split. }
  destruct Hhd as (Hv & Hx & Hy & Hn & Hw & Hh & Hsx & Hsy & Hox & Hoy).
  destruct (C2_extent extent_input 113 x00 hd Hp) as [Hext Hret].
  destruct (Hret Hv Hx Hy) as (r & ws & Hd).
  - left. split; [exact Hn|].
    unfold band_offset, h_pixels, h_rows, h_cols. rewrite Hw, Hh. split.
    + exists (byte_of 4). split; [reflexivity|].
      split; [reflexivity | right; reflexivity].
    + vm_compute. lia.
  - rewrite Hw, Hh. vm_compute. discriminate.
  - unfold decoded_extent. rewrite Hd. f_equal.
    apply (Hext r ws Hd); assumption.
Defined.

(** ** The size of the buffer

    No primitive looks at [wkbsize_]: a computation run from a reader with
    another size does the same, and leaves that other size in place. *)

Lemma size_blind_ret {A} (a : A) : size_blind (ret a).
Proof. intros z s. reflexivity. Qed.

Lemma size_blind_bind {A B} (m : M A) (k : A -> M B) :
  size_blind m -> (forall a, size_blind (k a)) -> size_blind (bind m k).
Proof.
  intros Hm Hk z s. unfold bind. rewrite Hm.
  destruct (m s) as [[a s']|]; [apply Hk | reflexivity].
Qed.

Lemma size_blind_for_loop {A} (body : Z -> A -> M A) :
  (forall i a, size_blind (body i a)) ->
  forall n i a, size_blind (for_loop n i body a).
Proof.
  intros Hb. induction n as [|n IH]; intros i a; cbn [for_loop].
  - apply size_blind_ret.
  - apply size_blind_bind; auto.
Qed.

Lemma size_blind_warn w : size_blind (warn w).
Proof. intros z s. reflexivity. Qed.

Lemma size_blind_skip n : size_blind (skip n).
Proof. intros z s. reflexivity. Qed.

Lemma size_blind_peek wkb i : size_blind (peek wkb i).
Proof.
  intros z s. unfold peek. cbn [resize ptr_].
  destruct (nth_error wkb (ptr_ s + i)); reflexivity.
Qed.

Lemma size_blind_read_uint8 wkb : size_blind (read_uint8 wkb).
Proof.
  intros z s. unfold read_uint8. cbn [resize ptr_].
  destruct (nth_error wkb (ptr_ s)); reflexivity.
Qed.

Lemma size_blind_store off v d : size_blind (store off v d).
Proof.
  intros z s. unfold store.
  destruct ((0 <=? off) && (off <? Z.of_nat (length d))); reflexivity.
Qed.

Lemma size_blind_get_width : size_blind (get width_).
Proof. intros z s. reflexivity. Qed.

Lemma size_blind_get_height : size_blind (get height_).
Proof. intros z s. reflexivity. Qed.

Lemma size_blind_get_numBands : size_blind (get numBands_).
Proof. intros z s. reflexivity. Qed.

Lemma size_blind_set_numBands v : size_blind (set_numBands v).
Proof. intros z s. reflexivity. Qed.

Lemma size_blind_set_width v : size_blind (set_width v).
Proof. intros z s. reflexivity. Qed.

Lemma size_blind_set_height v : size_blind (set_height v).
Proof. intros z s. reflexivity. Qed.

Create HintDb blind.

#[local] Hint Resolve size_blind_ret size_blind_warn size_blind_skip
  size_blind_peek size_blind_read_uint8 size_blind_store
  size_blind_get_width size_blind_get_height size_blind_get_numBands
  size_blind_set_numBands size_blind_set_width size_blind_set_height
  : blind.

Ltac blind :=
  repeat first
    [ solve [auto with blind]
    | apply size_blind_bind; [|intros]
    | apply size_blind_for_loop; intros
    | match goal with
      | |- size_blind (if ?c then _ else _) => destruct c
      | |- size_blind (let '(_, _) := ?p in _) => destruct p
      end ].

Lemma size_blind_read_uint16 wkb e : size_blind (read_uint16 wkb e).
Proof. unfold read_uint16. blind. Qed.

Lemma size_blind_read_float64 wkb e : size_blind (read_float64 wkb e).
Proof. unfold read_float64. blind. Qed.

Lemma size_blind_read_int32 wkb e : size_blind (read_int32 wkb e).
Proof. unfold read_int32, read_uint32. blind. Qed.

#[local] Hint Resolve size_blind_read_uint16 size_blind_read_float64
  size_blind_read_int32 : blind.

Lemma size_blind_read_grayscale wkb r : size_blind (read_grayscale wkb r).
Proof. unfold read_grayscale, grayscale_pixel. blind. Qed.

Lemma size_blind_read_rgb wkb uninit r : size_blind (read_rgb wkb uninit r).
Proof. unfold read_rgb, rgb_band, rgb_pixel. blind. Qed.

#[local] Hint Resolve size_blind_read_grayscale size_blind_read_rgb : blind.

Lemma size_blind_get_raster wkb uninit : size_blind (get_raster wkb uninit).
Proof. unfold get_raster. blind. Qed.

Ltac read_in_memory wkb :=
  unfold read_int32, read_uint32, read_float64, read_uint16, bind, peek,
    skip, ret;
  repeat (cbn [ptr_];
          match goal with
          | |- context [nth_error wkb ?i] =>
              let E := fresh "E" in
              destruct (nth_error wkb i) eqn:E;
              [|apply nth_error_None in E; lia]
          end);
  eexists; reflexivity.

(** C1, as stated, fails: the buffer given to the reader is the first 63
    bytes of the scenario of C5 (header, tag and nodata byte), the two pixel
    bytes lie after its end.  The reads of the pixels advance the cursor
    past the end of the buffer, to 65, nothing fails, and a raster filled
    with the bytes found after the buffer is returned. *)
Lemma C1_counterexample :
  63 < Z.of_nat (length scenario_gray)
  /\ final_cursor scenario_gray 63 x00 = Some 65%nat
  /\ exists r,
      decode scenario_gray 63 x00 = Some (Some r, [])
      /\ data_ r = bytes [10; 10; 10; 255; 20; 20; 20; 255].
Proof.
  split; [vm_compute; reflexivity|].
  split; [vm_compute; reflexivity|].
  eexists. split; vm_compute; reflexivity.
Qed.

(** C1, amended: no primitive read compares the cursor with the end of the
    buffer.  Whatever the size given to the reader, a read whose bytes are
    addressable memory returns the value found at the cursor and advances
    the cursor by its width, past the end of the buffer too; and what
    [get_raster] returns (null or a raster, with its warnings) does not
    depend on the size of the buffer at all: there is no
    UnexpectedEndOfInput outcome. *)
Theorem C1_no_bounds_check :
  (forall wkb s b,
      nth_error wkb (ptr_ s) = Some b ->
      read_uint8 wkb s = Some (b, advance 1 s))
  /\ (forall wkb e s,
         (ptr_ s + 2 <= length wkb)%nat ->
         exists v, read_uint16 wkb e s = Some (v, advance 2 s))
  /\ (forall wkb e s,
         (ptr_ s + 4 <= length wkb)%nat ->
         exists v, read_int32 wkb e s = Some (v, advance 4 s))
  /\ (forall wkb e s,
         (ptr_ s + 8 <= length wkb)%nat ->
         exists v, read_float64 wkb e s = Some (v, advance 8 s))
  /\ (forall wkb uninit size size',
         decode wkb size uninit = decode wkb size' uninit).
Proof.
  split; [exact read_uint8_some|].
  split; [intros wkb e s H; read_in_memory wkb|].
  split; [intros wkb e s H; read_in_memory wkb|].
  split; [intros wkb e s H; read_in_memory wkb|].
  intros wkb uninit size size'. unfold decode.
  change (pgraster_wkb_reader size)
    with (resize size (pgraster_wkb_reader size')).
  rewrite size_blind_get_raster.
  destruct (get_raster wkb uninit (pgraster_wkb_reader size')) as [[r s]|];
    reflexivity.
Qed.

Lemma C1_no_bounds_check_witness :
  read_uint8 scenario_gray at_end_of_buffer
  = Some (byte_of 10, advance 1 at_end_of_buffer)
  /\ wkbsize_ at_end_of_buffer < Z.of_nat (ptr_ (advance 1 at_end_of_buffer)).
Proof.
  split.
  - apply (proj1 C1_no_bounds_check scenario_gray at_end_of_buffer).
    reflexivity.
  - vm_compute. reflexivity.
Defined.

(** ** Two inputs decoded side by side

    Two runs are compared up to the warnings (and the size of the buffer):
    same result, same cursor and same header fields in the reader. *)

Lemma cur_eq_refl s : cur_eq s s.
Proof. repeat split. Qed.

Lemma cur_eq_advance n s1 s2 :
  cur_eq s1 s2 -> cur_eq (advance n s1) (advance n s2).
Proof.
  intros (Hp & Hn & Hw & Hh). unfold cur_eq, advance. cbn.
  rewrite Hp. auto.
Qed.

Lemma cur_eq_add_warnings ws1 ws2 s1 s2 :
  cur_eq s1 s2 -> cur_eq (add_warnings ws1 s1) (add_warnings ws2 s2).
Proof. intros H. exact H. Qed.

Lemma out_rel_bind {A B} (R : A -> A -> Prop) (Q : B -> B -> Prop)
      (m1 m2 : M A) (k1 k2 : A -> M B) s1 s2 :
  out_rel R (m1 s1) (m2 s2) ->
  (forall a1 a2 s1' s2',
      m1 s1 = Some (a1, s1') -> m2 s2 = Some (a2, s2') ->
      R a1 a2 -> cur_eq s1' s2' -> out_rel Q (k1 a1 s1') (k2 a2 s2')) ->
  out_rel Q (bind m1 k1 s1) (bind m2 k2 s2).
Proof.
  unfold bind, out_rel at 1. intros H Hk.
  destruct (m1 s1) as [[a1 s1']|], (m2 s2) as [[a2 s2']|];
    try contradiction; [|exact I].
  destruct H. apply Hk; auto.
Qed.

Lemma grayscale_pixel_one_byte wkb ps y x d s :
  grayscale_pixel wkb ps y x d s
  = one_byte_body wkb (grayscale_stores ps y x) d s.
Proof.
  unfold grayscale_pixel, one_byte_body, grayscale_stores, bind, read_uint8,
    get, store, obind.
  destruct (nth_error wkb (ptr_ s)); [|reflexivity].
  cbn [width_ advance].
  repeat match goal with
         | |- context [if ?c then _ else _] => destruct c; try reflexivity
         end.
Qed.

Lemma rgb_pixel_one_byte wkb ps bn y x d s :
  rgb_pixel wkb ps bn y x d s = one_byte_body wkb (rgb_stores ps bn y x) d s.
Proof.
  unfold rgb_pixel, one_byte_body, rgb_stores, bind, read_uint8, get, store.
  destruct (nth_error wkb (ptr_ s)); [|reflexivity].
  cbn [width_ advance].
  destruct (_ && _); reflexivity.
Qed.

Section SideBySide.

Variables wkb1 wkb2 : list byte.

(** The body of the inner loop, for the row [y]. *)
Variable body : list byte -> Z -> Z -> list byte -> M (list byte).
Variable stores : Z -> Z -> Z -> byte -> list byte -> option (list byte).
Hypothesis body_one_byte : forall wkb y x d s,
  body wkb y x d s = one_byte_body wkb (stores y x) d s.

Lemma body_sim y x d s1 s2 :
  cur_eq s1 s2 ->
  nth_error wkb1 (ptr_ s1) = nth_error wkb2 (ptr_ s1) ->
  out_rel eq (body wkb1 y x d s1) (body wkb2 y x d s2).
Proof.
  intros Hc Hb. rewrite !body_one_byte. unfold one_byte_body.
  destruct Hc as (Hp & Hn & Hw & Hh). rewrite <- Hp, <- Hw, <- Hb.
  destruct (nth_error wkb1 (ptr_ s1)); [|exact I].
  destruct (stores y x (width_ s1) b d); [|exact I].
  split; [reflexivity|]. apply cur_eq_advance. repeat split; auto.
Qed.

Lemma body_step wkb y x d s d' s' :
  body wkb y x d s = Some (d', s') -> s' = advance 1 s.
Proof.
  rewrite body_one_byte. unfold one_byte_body.
  destruct (nth_error wkb (ptr_ s)); [|discriminate].
  destruct (stores y x (width_ s) b d); [|discriminate].
  intros H. injection H as _ <-. reflexivity.
Qed.

Lemma row_step wkb y : forall n x d s d' s',
  for_loop n x (body wkb y) d s = Some (d', s') -> s' = advance n s.
Proof.
  induction n as [|n IH]; intros x d s d' s'; cbn [for_loop].
  - unfold ret. intros H. injection H as _ <-. rewrite advance_0.
    reflexivity.
  - unfold bind.
    destruct (body wkb y x d s) as [[d1 s1]|] eqn:E; [|discriminate].
    intros H. apply IH in H. apply body_step in E. subst.
    rewrite advance_advance. reflexivity.
Qed.

Lemma row_sim y : forall n x d s1 s2,
  cur_eq s1 s2 ->
  agree wkb1 wkb2 (ptr_ s1) (ptr_ s1 + n) ->
  out_rel eq (for_loop n x (body wkb1 y) d s1)
             (for_loop n x (body wkb2 y) d s2).
Proof.
  induction n as [|n IH]; intros x d s1 s2 Hc Ha; cbn [for_loop].
  - split; [reflexivity | exact Hc].
  - apply (out_rel_bind eq eq).
    + apply body_sim; [exact Hc | apply Ha; lia].
    + intros a1 a2 s1' s2' E1 E2 <- Hc'.
      apply IH; [exact Hc'|].
      apply body_step in E1. subst s1'. cbn [ptr_ advance].
      eapply agree_sub; [exact Ha | lia | lia].
Qed.

Lemma rows_step wkb : forall n y d s d' s',
  rows (body wkb) y n d s = Some (d', s') ->
  s' = advance (n * Z.to_nat (width_ s)) s.
Proof.
  unfold rows.
  induction n as [|n IH]; intros y d s d' s'; cbn [for_loop].
  - unfold ret. intros H. injection H as _ <-. rewrite advance_0.
    reflexivity.
  - unfold bind at 1. unfold bind at 1. unfold get at 1.
    destruct (for_loop (Z.to_nat (width_ s)) 0 (body wkb y) d s)
      as [[d1 s1]|] eqn:E; [|discriminate].
    intros H. apply IH in H. apply row_step in E. subst.
    cbn [width_ advance]. rewrite advance_advance. reflexivity.
Qed.

Lemma rows_sim : forall n y d s1 s2,
  cur_eq s1 s2 ->
  agree wkb1 wkb2 (ptr_ s1) (ptr_ s1 + n * Z.to_nat (width_ s1)) ->
  out_rel eq (rows (body wkb1) y n d s1) (rows (body wkb2) y n d s2).
Proof.
  unfold rows.
  induction n as [|n IH]; intros y d s1 s2 Hc Ha; cbn [for_loop].
  - split; [reflexivity | exact Hc].
  - apply (out_rel_bind eq eq).
    + unfold bind, get.
      replace (width_ s2) with (width_ s1) by apply Hc.
      apply row_sim; [exact Hc|].
      eapply agree_sub; [exact Ha | lia | lia].
    + intros a1 a2 s1' s2' E1 E2 <- Hc'.
      apply IH; [exact Hc'|].
      unfold bind, get in E1. apply row_step in E1. subst s1'.
      cbn [ptr_ width_ advance].
      eapply agree_sub; [exact Ha | lia | lia].
Qed.

End SideBySide.

(** What a band does, with no assumption on what follows its tag. *)

Lemma rgb_band_skipped wkb bn acc s tag :
  nth_error wkb (ptr_ s) = Some tag -> band_skipped tag = true ->
  exists ws, rgb_band wkb bn acc s = Some (acc, add_warnings ws (advance 1 s)).
Proof.
  intros Ht Hsk. unfold band_skipped in Hsk.
  destruct (nonzero (BANDTYPE_IS_OFFDB (u8 tag))) eqn:Hoff.
  - eexists. apply (rgb_band_offline _ _ _ _ _ Ht Hoff).
  - eexists. apply (rgb_band_unsupported _ _ _ _ _ Ht Hoff).
    cbn [orb] in Hsk. exact Hsk.
Qed.

Lemma rgb_band_processed wkb bn nodataval d s tag :
  nth_error wkb (ptr_ s) = Some tag -> band_skipped tag = false ->
  rgb_band wkb bn (nodataval, d) s
  = match nth_error wkb (ptr_ s + 1) with
    | None => None
    | Some tmp =>
        match rows (rgb_pixel wkb 4 bn) 0 (Z.to_nat (height_ s)) d
                   (add_warnings (mismatch_warning bn tmp nodataval)
                                 (advance 2 s)) with
        | Some (d', s') =>
            Some ((if negb (nonzero bn) then tmp else nodataval, d'), s')
        | None => None
        end
    end.
Proof.
  intros Ht Hsk.
  destruct (band_skipped_false _ Hsk) as [Hoff Htype].
  unfold rgb_band. unfold bind at 1.
  rewrite (read_uint8_some _ _ _ Ht), Hoff, Htype.
  unfold bind at 1. unfold read_uint8 at 1. cbn [ptr_ advance].
  destruct (nth_error wkb (ptr_ s + 1)) as [tmp|]; [|reflexivity].
  unfold bind at 1.
  assert (Hwarn : forall s0,
    (if negb (nonzero bn) then ret tmp
     else if negb (u8 tmp =? u8 nodataval)
          then warn (W_nodataval bn tmp nodataval);;; ret nodataval
          else ret nodataval) s0
    = Some (if negb (nonzero bn) then tmp else nodataval,
            add_warnings (mismatch_warning bn tmp nodataval) s0)).
  { intros s0. unfold mismatch_warning.
    destruct (negb (nonzero bn)).
    - unfold ret. rewrite add_warnings_nil. reflexivity.
    - destruct (negb (u8 tmp =? u8 nodataval)).
      + reflexivity.
      + unfold ret. rewrite add_warnings_nil. reflexivity. }
  rewrite Hwarn. unfold bind at 1. unfold get at 1.
  cbn [height_ add_warnings advance wkbsize_ ptr_ numBands_ width_ warnings].
  unfold bind at 1. unfold rows, ret.
  rewrite advance_advance. reflexivity.
Qed.

Lemma read_grayscale_skipped wkb r s tag :
  nth_error wkb (ptr_ s) = Some tag -> band_skipped tag = true ->
  exists ws,
    read_grayscale wkb r s
    = Some (set_premultiplied true (image_set_white r),
            add_warnings ws (advance 1 s)).
Proof.
  intros Ht Hsk. unfold band_skipped in Hsk.
  destruct (nonzero (BANDTYPE_IS_OFFDB (u8 tag))) eqn:Hoff.
  - eexists. apply (read_grayscale_offline _ _ _ _ Ht Hoff).
  - cbn [orb] in Hsk. eexists.
    unfold read_grayscale. unfold bind at 1.
    rewrite (read_uint8_some _ _ _ Ht), offline_nonzero, Hoff, Hsk.
    reflexivity.
Qed.

Lemma read_grayscale_processed wkb r s tag :
  nth_error wkb (ptr_ s) = Some tag -> band_skipped tag = false ->
  read_grayscale wkb r s
  = match nth_error wkb (ptr_ s + 1) with
    | None => None
    | Some _ =>
        match rows (grayscale_pixel wkb 4) 0 (Z.to_nat (height_ s))
                   (map (fun _ => xff) (data_ r))
                   (add_warnings (nodata_warning tag) (advance 2 s)) with
        | Some (d', s') =>
            Some (set_data d' (set_premultiplied true (image_set_white r)), s')
        | None => None
        end
    end.
Proof.
  intros Ht Hsk.
  destruct (band_skipped_false _ Hsk) as [Hoff Htype].
  unfold read_grayscale. unfold bind at 1.
  rewrite (read_uint8_some _ _ _ Ht), Hoff, Htype.
  unfold bind at 1. unfold read_uint8 at 1. cbn [ptr_ advance].
  destruct (nth_error wkb (ptr_ s + 1)) as [nodata|]; [|reflexivity].
  unfold bind at 1.
  assert (Hwarn : forall s0,
    (if nonzero (if nonzero (BANDTYPE_HAS_NODATA (u8 tag)) then 1 else 0)
     then warn W_nodata_unsupported else ret tt) s0
    = Some (tt, add_warnings (nodata_warning tag) s0)).
  { intros s0. unfold nodata_warning.
    destruct (nonzero (BANDTYPE_HAS_NODATA (u8 tag))); cbn [nonzero Z.eqb negb].
    - apply warn_run.
    - unfold ret. rewrite add_warnings_nil. reflexivity. }
  rewrite Hwarn. unfold bind at 1. unfold get at 1.
  cbn [height_ add_warnings advance wkbsize_ ptr_ numBands_ width_ warnings].
  unfold bind at 1. unfold rows, ret.
  rewrite advance_advance. reflexivity.
Qed.

Section Bands.

Variables wkb1 wkb2 : list byte.

(** Number of payload bytes of a band. *)
Variable n : nat.

Lemma rgb_band_sim bn nd1 nd2 d s1 s2 :
  cur_eq s1 s2 -> payload_size s1 = n -> band_rel wkb1 wkb2 n (ptr_ s1) ->
  out_rel (fun a1 a2 => snd a1 = snd a2)
          (rgb_band wkb1 bn (nd1, d) s1) (rgb_band wkb2 bn (nd2, d) s2)
  /\ (forall acc s1',
         rgb_band wkb1 bn (nd1, d) s1 = Some (acc, s1') ->
         ptr_ s1' = next_band wkb1 n (ptr_ s1) /\ payload_size s1' = n).
Proof.
  intros Hc Hn Hrel. unfold band_rel, next_band in *.
  pose proof Hc as (Hp & Hnb & Hw & Hh).
  destruct (nth_error wkb1 (ptr_ s1)) as [t1|] eqn:E1;
    destruct (nth_error wkb2 (ptr_ s1)) as [t2|] eqn:E2;
    try contradiction.
  2:{ unfold rgb_band, bind, read_uint8. rewrite <- Hp, E1, E2.
      split; [exact I | discriminate]. }
  destruct Hrel as [Hsk Hproc]. rewrite Hp in E2.
  destruct (band_skipped t1) eqn:Hsk1; symmetry in Hsk.
  - destruct (rgb_band_skipped wkb1 bn (nd1, d) s1 t1 E1 Hsk1) as [ws1 R1].
    destruct (rgb_band_skipped wkb2 bn (nd2, d) s2 t2 E2 Hsk) as [ws2 R2].
    rewrite R1, R2. split.
    + split; [reflexivity|].
      apply cur_eq_add_warnings, cur_eq_advance, Hc.
    + intros acc s1' H. injection H as _ <-. split; reflexivity || exact Hn.
  - destruct (Hproc eq_refl) as [Hnd Hag].
    rewrite (rgb_band_processed wkb1 bn nd1 d s1 t1 E1 Hsk1).
    rewrite (rgb_band_processed wkb2 bn nd2 d s2 t2 E2 Hsk).
    rewrite <- Hp, <- Hh.
    destruct (nth_error wkb1 (ptr_ s1 + 1)) as [tmp1|];
      destruct (nth_error wkb2 (ptr_ s1 + 1)) as [tmp2|];
      try contradiction.
    2:{ split; [exact I | discriminate]. }
    pose proof (rows_sim wkb1 wkb2 (fun wkb => rgb_pixel wkb 4 bn)
                  (rgb_stores 4 bn)
                  (fun wkb => rgb_pixel_one_byte wkb 4 bn)
                  (Z.to_nat (height_ s1)) 0 d
                  (add_warnings (mismatch_warning bn tmp1 nd1) (advance 2 s1))
                  (add_warnings (mismatch_warning bn tmp2 nd2) (advance 2 s2)))
      as Hsim.
    pose proof (rows_step (fun wkb => rgb_pixel wkb 4 bn) (rgb_stores 4 bn)
                  (fun wkb => rgb_pixel_one_byte wkb 4 bn) wkb1
                  (Z.to_nat (height_ s1)) 0 d
                  (add_warnings (mismatch_warning bn tmp1 nd1) (advance 2 s1)))
      as Hstep.
    cbv beta in Hsim, Hstep.
    destruct (rows (rgb_pixel wkb1 4 bn) 0 (Z.to_nat (height_ s1)) d _)
      as [[d1 s1'']|];
      destruct (rows (rgb_pixel wkb2 4 bn) 0 (Z.to_nat (height_ s1)) d _)
      as [[d2 s2'']|].
    + destruct Hsim as [<- Hc''].
      * apply cur_eq_add_warnings, cur_eq_advance, Hc.
      * cbn [ptr_ width_ add_warnings advance]. rewrite <- Hn in Hag.
        exact Hag.
      * split; [split; [reflexivity | exact Hc'']|].
        intros acc s1' H. injection H as _ <-.
        rewrite (Hstep _ _ eq_refl).
        cbn [ptr_ width_ add_warnings advance]. rewrite <- Hn.
        unfold payload_size. cbn [width_ height_]. split; [lia|reflexivity].
    + exfalso. apply Hsim.
      * apply cur_eq_add_warnings, cur_eq_advance, Hc.
      * cbn [ptr_ width_ add_warnings advance]. rewrite <- Hn in Hag.
        exact Hag.
    + exfalso. apply Hsim.
      * apply cur_eq_add_warnings, cur_eq_advance, Hc.
      * cbn [ptr_ width_ add_warnings advance]. rewrite <- Hn in Hag.
        exact Hag.
    + split; [exact I | discriminate].
Qed.

Lemma band_loop_sim : forall k bn nd1 nd2 d s1 s2,
  cur_eq s1 s2 -> payload_size s1 = n -> bands_rel wkb1 wkb2 n k (ptr_ s1) ->
  out_rel (fun a1 a2 => snd a1 = snd a2)
          (for_loop k bn (rgb_band wkb1) (nd1, d) s1)
          (for_loop k bn (rgb_band wkb2) (nd2, d) s2).
Proof.
  induction k as [|k IH]; intros bn nd1 nd2 d s1 s2 Hc Hn Hrel;
    cbn [for_loop].
  - split; [reflexivity | exact Hc].
  - destruct Hrel as [Hb Hrest].
    destruct (rgb_band_sim bn nd1 nd2 d s1 s2 Hc Hn Hb) as [Hsim Hstep].
    apply (out_rel_bind (fun a1 a2 => snd a1 = snd a2)
                        (fun a1 a2 => snd a1 = snd a2)); [exact Hsim|].
    intros [nd1' d1'] [nd2' d2'] s1' s2' E1 E2 Heq Hc'.
    cbn [snd] in Heq. subst d2'.
    destruct (Hstep _ _ E1) as [Hp' Hn'].
    apply IH; auto. rewrite Hp'. exact Hrest.
Qed.

Lemma read_rgb_sim u1 u2 r s1 s2 :
  cur_eq s1 s2 -> payload_size s1 = n ->
  bands_rel wkb1 wkb2 n (Z.to_nat (numBands_ s1)) (ptr_ s1) ->
  out_rel eq (read_rgb wkb1 u1 r s1) (read_rgb wkb2 u2 r s2).
Proof.
  intros Hc Hn Hrel. unfold read_rgb.
  unfold bind at 1 3. unfold get.
  replace (numBands_ s2) with (numBands_ s1) by apply Hc.
  apply (out_rel_bind (fun a1 a2 => snd a1 = snd a2) eq).
  - apply band_loop_sim; assumption.
  - intros a1 a2 s1' s2' _ _ Heq Hc'. unfold ret. rewrite Heq.
    split; [reflexivity | exact Hc'].
Qed.

Lemma read_grayscale_sim r s1 s2 :
  cur_eq s1 s2 -> payload_size s1 = n -> band_rel wkb1 wkb2 n (ptr_ s1) ->
  out_rel eq (read_grayscale wkb1 r s1) (read_grayscale wkb2 r s2).
Proof.
  intros Hc Hn Hrel. unfold band_rel in *.
  pose proof Hc as (Hp & Hnb & Hw & Hh).
  destruct (nth_error wkb1 (ptr_ s1)) as [t1|] eqn:E1;
    destruct (nth_error wkb2 (ptr_ s1)) as [t2|] eqn:E2;
    try contradiction.
  2:{ unfold read_grayscale, bind, read_uint8. rewrite <- Hp, E1, E2.
      exact I. }
  destruct Hrel as [Hsk Hproc]. rewrite Hp in E2.
  destruct (band_skipped t1) eqn:Hsk1; symmetry in Hsk.
  - destruct (read_grayscale_skipped wkb1 r s1 t1 E1 Hsk1) as [ws1 R1].
    destruct (read_grayscale_skipped wkb2 r s2 t2 E2 Hsk) as [ws2 R2].
    rewrite R1, R2. split; [reflexivity|].
    apply cur_eq_add_warnings, cur_eq_advance, Hc.
  - destruct (Hproc eq_refl) as [Hnd Hag].
    rewrite (read_grayscale_processed wkb1 r s1 t1 E1 Hsk1).
    rewrite (read_grayscale_processed wkb2 r s2 t2 E2 Hsk).
    rewrite <- Hp, <- Hh.
    destruct (nth_error wkb1 (ptr_ s1 + 1)) as [tmp1|];
      destruct (nth_error wkb2 (ptr_ s1 + 1)) as [tmp2|];
      try contradiction; [|exact I].
    pose proof (rows_sim wkb1 wkb2 (fun wkb => grayscale_pixel wkb 4)
                  (grayscale_stores 4)
                  (fun wkb => grayscale_pixel_one_byte wkb 4)
                  (Z.to_nat (height_ s1)) 0 (map (fun _ => xff) (data_ r))
                  (add_warnings (nodata_warning t1) (advance 2 s1))
                  (add_warnings (nodata_warning t2) (advance 2 s2)))
      as Hsim.
    cbv beta in Hsim.
    assert (Hres : out_rel eq
      (rows (grayscale_pixel wkb1 4) 0 (Z.to_nat (height_ s1))
            (map (fun _ => xff) (data_ r))
            (add_warnings (nodata_warning t1) (advance 2 s1)))
      (rows (grayscale_pixel wkb2 4) 0 (Z.to_nat (height_ s1))
            (map (fun _ => xff) (data_ r))
            (add_warnings (nodata_warning t2) (advance 2 s2)))).
    { apply Hsim.
      - apply cur_eq_add_warnings, cur_eq_advance, Hc.
      - cbn [ptr_ width_ add_warnings advance]. rewrite <- Hn in Hag.
        exact Hag. }
    unfold out_rel in Hres |- *.
    destruct (rows (grayscale_pixel wkb1 4) _ _ _ _) as [[d1 s1'']|];
      destruct (rows (grayscale_pixel wkb2 4) _ _ _ _) as [[d2 s2'']|];
      try contradiction; [|exact I].
    destruct Hres as [<- Hc'']. split; [reflexivity | exact Hc''].
Qed.

End Bands.

(** ** [get_raster] on any input *)

Ltac header_read lem :=
  unfold bind at 1; rewrite lem; unfold at_field at 1;
  cbn [ptr_ advance pgraster_wkb_reader Nat.add wkbsize_ numBands_ width_
       height_ warnings];
  match goal with
  | |- context [field ?m ?p] =>
      let E := fresh "E" in destruct (field m p) eqn:E; [|reflexivity]
  end;
  cbn [obind] in *.

Lemma get_raster_incomplete wkb uninit size :
  parse_header wkb = None ->
  hdr_version wkb = None \/ hdr_version wkb = Some 0 ->
  get_raster wkb uninit (pgraster_wkb_reader size) = None.
Proof.
  unfold parse_header, hdr_version, hdr_endian. intros H Hv.
  unfold get_raster.
  header_read peek0_field.
  unfold bind at 1. unfold skip at 1.
  header_read read_uint16_field.
  assert (z0 = 0) as -> by (destruct Hv; congruence).
  cbn [nonzero Z.eqb negb].
  header_read read_uint16_field.
  unfold bind at 1. unfold set_numBands at 1.
  cbn [ptr_ advance Nat.add wkbsize_ numBands_ width_ height_ warnings].
  do 6 header_read read_float64_field.
  header_read read_int32_field.
  header_read read_uint16_field.
  unfold bind at 1. unfold set_width at 1.
  cbn [ptr_ advance Nat.add wkbsize_ numBands_ width_ height_ warnings].
  header_read read_uint16_field.
  discriminate.
Qed.

Lemma get_raster_cases wkb uninit size :
  get_raster wkb uninit (pgraster_wkb_reader size)
  = get_raster_spec wkb uninit size.
Proof.
  unfold get_raster_spec.
  destruct (hdr_version wkb) as [v|] eqn:Hv.
  - unfold nonzero. destruct (Z.eqb_spec v 0) as [->|Hnz]; cbn [negb].
    + destruct (parse_header wkb) as [hd|] eqn:Hp.
      * apply get_raster_header; [exact Hp|].
        apply parse_header_version in Hp. congruence.
      * apply get_raster_incomplete; auto.
    + apply get_raster_version; assumption.
  - apply get_raster_incomplete; auto.
    unfold hdr_version in Hv. unfold parse_header.
    destruct (hdr_endian wkb); cbn [obind] in *; [|reflexivity].
    rewrite Hv. reflexivity.
Qed.

(** ** Headers that differ in the srid *)

Lemma field_int32_defined wkb e p :
  (p + 4 <= length wkb)%nat -> exists v, field (read_int32 wkb e) p = Some v.
Proof.
  intros H.
  unfold field, read_int32, read_uint32, bind, peek, skip, ret, at_offset.
  repeat (cbn [ptr_ advance pgraster_wkb_reader Nat.add];
          match goal with
          | |- context [nth_error wkb ?i] =>
              let E := fresh "E" in
              destruct (nth_error wkb i) eqn:E;
              [|apply nth_error_None in E; lia]
          end).
  eexists; reflexivity.
Qed.

Lemma agree_sym wkb1 wkb2 lo hi :
  agree wkb1 wkb2 lo hi -> agree wkb2 wkb1 lo hi.
Proof. intros H i Hi. symmetry. apply H, Hi. Qed.

Ltac solve_agree :=
  match goal with
  | H : agree ?a ?b _ _ |- agree ?a ?b _ _ =>
      solve [eapply agree_sub; [exact H | cbn; lia | cbn; lia]]
  end.

Lemma parse_header_srid wkb1 wkb2 hd :
  agree wkb1 wkb2 0 53 -> agree wkb1 wkb2 57 HEADER_SIZE ->
  length wkb1 = length wkb2 ->
  parse_header wkb1 = Some hd ->
  exists srid, parse_header wkb2 = Some (with_srid srid hd).
Proof.
  unfold HEADER_SIZE. intros Hlo Hhi Hlen Hp.
  pose proof (parse_header_length _ _ Hp) as Hl. unfold HEADER_SIZE in Hl.
  destruct (field_int32_defined wkb2 (h_endian hd) 53) as [srid Hs]; [lia|].
  exists srid. revert Hp. unfold parse_header, hdr_endian, obind. intros Hp.
  repeat match type of Hp with
         | match ?o with _ => _ end = _ =>
             let E := fresh "E" in destruct o eqn:E; try discriminate
         end.
  injection Hp as <-. cbn [h_endian] in Hs. unfold with_srid.
  cbn [h_endian h_version h_numBands h_scaleX h_scaleY h_ipX h_ipY h_skewX
       h_skewY h_srid h_width h_height].
  rewrite <- (field_peek0_agree wkb1 wkb2) by solve_agree.
  rewrite E.
  rewrite <- !(field_uint16_agree wkb1 wkb2)
    by solve_agree.
  rewrite <- !(field_float64_agree wkb1 wkb2)
    by solve_agree.
  rewrite E0, E1, E2, E3, E4, E5, E6, E7, Hs, E9, E10. reflexivity.
Qed.

Lemma parse_header_srid_none wkb1 wkb2 :
  agree wkb1 wkb2 0 53 -> agree wkb1 wkb2 57 HEADER_SIZE ->
  length wkb1 = length wkb2 ->
  parse_header wkb1 = None -> parse_header wkb2 = None.
Proof.
  intros Hlo Hhi Hlen Hp.
  destruct (parse_header wkb2) as [hd2|] eqn:Hp2; [|reflexivity].
  destruct (parse_header_srid wkb2 wkb1 hd2) as [srid H];
    auto using agree_sym.
  congruence.
Qed.

Lemma decode_bands_with_srid wkb uninit srid hd :
  decode_bands wkb uninit (with_srid srid hd) = decode_bands wkb uninit hd.
Proof. reflexivity. Qed.

Lemma decode_bands_sim wkb1 wkb2 u1 u2 hd s1 s2 :
  cur_eq s1 s2 -> numBands_ s1 = h_numBands hd -> payload_size s1 = h_pixels hd ->
  bands_rel wkb1 wkb2 (h_pixels hd) (bands_read hd) (ptr_ s1) ->
  out_rel eq (decode_bands wkb1 u1 hd s1) (decode_bands wkb2 u2 hd s2).
Proof.
  intros Hc Hnb Hn Hrel. unfold decode_bands, bands_read in *.
  destruct (dtrue (h_skewX hd) || dtrue (h_skewY hd)).
  { split; [reflexivity | exact Hc]. }
  destruct (Z.eqb_spec (h_numBands hd) 1) as [H1|H1].
  { apply (out_rel_bind eq eq).
    - apply (read_grayscale_sim wkb1 wkb2 (h_pixels hd)); auto. apply Hrel.
    - intros a1 a2 s1' s2' _ _ <- Hc'. split; [reflexivity | exact Hc']. }
  destruct (Z.eqb_spec (h_numBands hd) 3) as [H3|H3].
  { apply (out_rel_bind eq eq).
    - apply (read_rgb_sim wkb1 wkb2 (h_pixels hd)); auto.
      rewrite Hnb, H3. exact Hrel.
    - intros a1 a2 s1' s2' _ _ <- Hc'. split; [reflexivity | exact Hc']. }
  split; [reflexivity | exact Hc].
Qed.

Lemma decode_sim wkb1 wkb2 size1 size2 u1 u2 :
  agree wkb1 wkb2 0 53 -> agree wkb1 wkb2 57 HEADER_SIZE ->
  length wkb1 = length wkb2 ->
  (forall hd, parse_header wkb1 = Some hd ->
              bands_rel wkb1 wkb2 (h_pixels hd) (bands_read hd) HEADER_SIZE) ->
  outcome (decode wkb1 size1 u1) = outcome (decode wkb2 size2 u2).
Proof.
  intros Hlo Hhi Hlen Hrel. unfold decode.
  rewrite !get_raster_cases. unfold get_raster_spec.
  rewrite <- (hdr_version_agree wkb1 wkb2) by (unfold HEADER_SIZE in *; solve_agree).
  destruct (hdr_version wkb1) as [v|]; [|reflexivity].
  destruct (nonzero v); [reflexivity|].
  destruct (parse_header wkb1) as [hd|] eqn:Hp.
  - destruct (parse_header_srid wkb1 wkb2 hd Hlo Hhi Hlen Hp) as [srid Hp2].
    rewrite Hp2, decode_bands_with_srid.
    pose proof (decode_bands_sim wkb1 wkb2 u1 u2 hd
                  (after_header size1 hd [])
                  (after_header size2 (with_srid srid hd) [])) as Hsim.
    unfold out_rel in Hsim.
    destruct (decode_bands wkb1 u1 hd _) as [[r1 s1]|];
      destruct (decode_bands wkb2 u2 hd _) as [[r2 s2]|];
      cbn [outcome].
    + destruct Hsim as [<- _]; auto; try reflexivity.
      repeat split.
    + exfalso. apply Hsim; auto; try reflexivity. repeat split.
    + exfalso. apply Hsim; auto; try reflexivity. repeat split.
    + reflexivity.
  - rewrite (parse_header_srid_none wkb1 wkb2 Hlo Hhi Hlen Hp). reflexivity.
Qed.

(** ** Where the tags and the nodata bytes are

    The offsets at which the decoders read a band tag, and those at which
    they read a nodata byte, for [k] bands from offset [p] on: a skipped
    band takes its tag only, a processed one its tag, its nodata byte and
    [n] payload bytes. *)

Lemma band_tags_ge wkb n : forall k p i,
  In i (band_tags wkb n k p) -> (p <= i)%nat.
Proof.
  induction k as [|k IH]; intros p i; cbn [band_tags In].
  - contradiction.
  - intros [<-|H]; [lia|].
    destruct (nth_error wkb p) as [t|]; [|contradiction].
    apply IH in H. destruct (band_skipped t); lia.
Qed.

Lemma band_nodata_gt wkb n : forall k p i,
  In i (band_nodata wkb n k p) -> (p < i)%nat.
Proof.
  induction k as [|k IH]; intros p i; cbn [band_nodata].
  - contradiction.
  - destruct (nth_error wkb p) as [t|]; [|contradiction].
    destruct (band_skipped t).
    + intros H. apply IH in H. lia.
    + intros [<-|H]; [lia|]. apply IH in H. lia.
Qed.

Lemma same_length_nth_error (wkb1 wkb2 : list byte) i :
  length wkb1 = length wkb2 ->
  same_some (nth_error wkb1 i) (nth_error wkb2 i).
Proof.
  intros Hlen. unfold same_some.
  destruct (nth_error wkb1 i) eqn:E1, (nth_error wkb2 i) eqn:E2; auto.
  - apply nth_error_None in E2.
    assert (nth_error wkb1 i <> None) as H by congruence.
    apply nth_error_Some in H. lia.
  - apply nth_error_None in E1.
    assert (nth_error wkb2 i <> None) as H by congruence.
    apply nth_error_Some in H. lia.
Qed.

Lemma same_length_agree (wkb1 wkb2 : list byte) lo hi :
  length wkb1 = length wkb2 ->
  (forall i b1 b2, (lo <= i < hi)%nat ->
                   nth_error wkb1 i = Some b1 -> nth_error wkb2 i = Some b2 ->
                   b1 = b2) ->
  agree wkb1 wkb2 lo hi.
Proof.
  intros Hlen H i Hi.
  pose proof (same_length_nth_error wkb1 wkb2 i Hlen) as Hs.
  unfold same_some in Hs.
  destruct (nth_error wkb1 i) eqn:E1, (nth_error wkb2 i) eqn:E2;
    try contradiction; [|reflexivity].
  f_equal. eapply H; eauto.
Qed.

Lemma bands_rel_differ wkb1 wkb2 n :
  length wkb1 = length wkb2 ->
  forall k p,
    (forall i b1 b2,
        (p <= i)%nat ->
        nth_error wkb1 i = Some b1 -> nth_error wkb2 i = Some b2 ->
        b1 = b2
        \/ (In i (band_tags wkb1 n k p) /\ band_skipped b1 = band_skipped b2)
        \/ In i (band_nodata wkb1 n k p)) ->
    bands_rel wkb1 wkb2 n k p.
Proof.
  intros Hlen. induction k as [|k IH]; intros p H; cbn [bands_rel].
  - exact I.
  - split.
    + unfold band_rel.
      pose proof (same_length_nth_error wkb1 wkb2 p Hlen) as Hs.
      unfold same_some in Hs.
      destruct (nth_error wkb1 p) as [t1|] eqn:E1,
               (nth_error wkb2 p) as [t2|] eqn:E2; try contradiction;
        [|exact I].
      assert (Hsk : band_skipped t1 = band_skipped t2).
      { destruct (H p t1 t2) as [->|[[_ Hsk]|Hn]]; auto.
        apply band_nodata_gt in Hn. lia. }
      split; [exact Hsk|]. intros Hproc.
      split; [apply same_length_nth_error, Hlen|].
      apply same_length_agree; [exact Hlen|].
      intros i b1 b2 Hi B1 B2.
      destruct (H i b1 b2) as [->|[[Ht _]|Hn]]; auto; try lia; exfalso.
      * cbn [band_tags In] in Ht. rewrite E1, Hproc in Ht.
        destruct Ht as [<-|Ht]; [lia|]. apply band_tags_ge in Ht. lia.
      * cbn [band_nodata] in Hn. rewrite E1, Hproc in Hn.
        destruct Hn as [<-|Hn]; [lia|]. apply band_nodata_gt in Hn. lia.
    + apply IH. intros i b1 b2 Hi B1 B2. unfold next_band in Hi.
      destruct (H i b1 b2) as [->|[[Ht Hsk]|Hn]]; auto.
      * destruct (nth_error wkb1 p) as [t|] eqn:E;
          [destruct (band_skipped t)|]; lia.
      * right. left. split; [|exact Hsk].
        cbn [band_tags In] in Ht. unfold next_band.
        destruct (nth_error wkb1 p) as [t|] eqn:E.
        -- destruct Ht as [<-|Ht]; [|exact Ht].
           destruct (band_skipped t); lia.
        -- destruct Ht as [<-|[]]. congruence.
      * right. right. cbn [band_nodata] in Hn. unfold next_band.
        destruct (nth_error wkb1 p) as [t|] eqn:E; [|contradiction].
        destruct (band_skipped t); [exact Hn|].
        destruct Hn as [<-|Hn]; [lia | exact Hn].
Qed.

Lemma decode_harmless wkb1 wkb2 size1 size2 u1 u2 :
  differ_only (harmless wkb1) wkb1 wkb2 ->
  outcome (decode wkb1 size1 u1) = outcome (decode wkb2 size2 u2).
Proof.
  intros [Hlen H].
  assert (Hhdr : forall i b1 b2,
             (i < 53 \/ 57 <= i < HEADER_SIZE)%nat ->
             nth_error wkb1 i = Some b1 -> nth_error wkb2 i = Some b2 ->
             b1 = b2).
  { unfold HEADER_SIZE. intros i b1 b2 Hi B1 B2.
    destruct (H i b1 b2 B1 B2) as [->|[Hs|[[Ht _]|Hn]]]; auto; exfalso.
    - lia.
    - unfold tag_offsets in Ht. destruct (parse_header wkb1); [|contradiction].
      apply band_tags_ge in Ht. unfold HEADER_SIZE in Ht. lia.
    - unfold nodata_offsets in Hn.
      destruct (parse_header wkb1); [|contradiction].
      apply band_nodata_gt in Hn. unfold HEADER_SIZE in Hn. lia. }
  apply decode_sim; auto.
  - apply same_length_agree; auto.
    intros i b1 b2 Hi B1 B2. apply (Hhdr i b1 b2); auto; lia.
  - apply same_length_agree; auto.
    intros i b1 b2 Hi B1 B2. apply (Hhdr i b1 b2); auto; lia.
  - intros hd Hp. apply bands_rel_differ; [exact Hlen|].
    intros i b1 b2 Hi B1 B2. unfold HEADER_SIZE in Hi.
    destruct (H i b1 b2 B1 B2) as [->|[Hs|[[Ht Hsk]|Hn]]]; auto.
    + lia.
    + right. left. unfold tag_offsets in Ht. rewrite Hp in Ht. auto.
    + right. right. unfold nodata_offsets in Hn. rewrite Hp in Hn. exact Hn.
Qed.

(** ** Bytes that do not change the raster *)

Lemma pixtype_bits b1 b2 :
  (forall k, 0 <= k < 4 -> Z.testbit (u8 b1) k = Z.testbit (u8 b2) k) ->
  BANDTYPE_PIXTYPE (u8 b1) = BANDTYPE_PIXTYPE (u8 b2).
Proof.
  intros H. unfold BANDTYPE_PIXTYPE, BANDTYPE_PIXTYPE_MASK.
  apply Z.bits_inj'. intros k Hk. rewrite !Z.land_spec.
  destruct (Z.ltb_spec k 4) as [Hlt|Hge].
  - rewrite H by lia. reflexivity.
  - change 15 with (Z.ones 4). rewrite Z.ones_spec_high by lia.
    rewrite !andb_false_r. reflexivity.
Qed.

Lemma band_skipped_bits b1 b2 :
  Z.testbit (u8 b1) 7 = Z.testbit (u8 b2) 7 ->
  BANDTYPE_PIXTYPE (u8 b1) = BANDTYPE_PIXTYPE (u8 b2) ->
  band_skipped b1 = band_skipped b2.
Proof.
  intros H7 Hp. unfold band_skipped. rewrite !offdb_bit, H7, Hp. reflexivity.
Qed.

Lemma differ_only_weaken (P Q : nat -> byte -> byte -> Prop) wkb1 wkb2 :
  (forall i b1 b2, P i b1 b2 -> Q i b1 b2) ->
  differ_only P wkb1 wkb2 -> differ_only Q wkb1 wkb2.
Proof.
  intros HPQ [Hlen H]. split; [exact Hlen|].
  intros i b1 b2 B1 B2. destruct (H i b1 b2 B1 B2); auto.
Qed.

Lemma differ_only_upd (P : nat -> byte -> byte -> Prop) wkb p b1 b2 :
  nth_error wkb p = Some b1 -> P p b1 b2 ->
  differ_only P wkb (upd p b2 wkb).
Proof.
  intros Hb HP.
  assert (Hp : (p < length wkb)%nat)
    by (apply nth_error_Some; congruence).
  split; [symmetry; apply length_upd|].
  intros i c1 c2 C1 C2. rewrite nth_error_upd in C2 by exact Hp.
  destruct (Nat.eqb_spec i p) as [->|Hi].
  - right. congruence.
  - left. congruence.
Qed.

(** C10: two inputs that differ only in the bytes of the spatial reference
    id (offsets 53 to 56) and in bits 6, 5, 4 of the tag bytes of their
    bands decode to the same result: both undefined, both null, or the same
    raster (extent, size, pixel bytes, premultiplied flag).  Only the
    warnings can differ. *)
Theorem C10_srid_and_flags wkb1 wkb2 size uninit :
  differ_only (srid_or_flags wkb1) wkb1 wkb2 ->
  outcome (decode wkb1 size uninit) = outcome (decode wkb2 size uninit).
Proof.
  intros H. apply decode_harmless.
  revert H. apply differ_only_weaken.
  intros i b1 b2 [Hs|[Ht Hf]]; [left; exact Hs|].
  right. left. split; [exact Ht|].
  apply band_skipped_bits.
  - apply Hf; discriminate.
  - apply pixtype_bits. intros k Hk. apply Hf; lia.
Qed.

Lemma tag_offsets_scenario_rgb :
  tag_offsets scenario_rgb = [61; 65; 69]%nat.
Proof. vm_compute. reflexivity. Qed.

Lemma C10_srid_and_flags_witness :
  outcome (decode scenario_rgb 73 x00)
  = outcome (decode scenario_rgb_flags 73 x00).
Proof.
  set (mid := upd 54 (byte_of 16) scenario_rgb).
  transitivity (outcome (decode mid 73 x00)).
  - apply C10_srid_and_flags.
    apply (differ_only_upd _ scenario_rgb 54 x00 (byte_of 16)).
    + reflexivity.
    + left. lia.
  - apply C10_srid_and_flags.
    apply (differ_only_upd _ mid 61 (byte_of 4) (byte_of 116)).
    + reflexivity.
    + right. split.
      * assert (Hm : tag_offsets mid = [61; 65; 69]%nat)
          by (vm_compute; reflexivity).
        rewrite Hm. left. reflexivity.
      * intros k H4 H5 H6.
        change (u8 (byte_of 4)) with 4. change (u8 (byte_of 116)) with 116.
        change 116 with (Z.lor 4 112).
        rewrite Z.lor_spec.
        assert (Z.testbit 112 k = false) as ->; [|symmetry; apply orb_false_r].
        destruct (Z.ltb_spec k 0) as [Hneg|Hpos];
          [apply Z.testbit_neg_r; exact Hneg|].
        destruct (Z.ltb_spec k 7) as [Hlt|Hge].
        -- assert (k = 0 \/ k = 1 \/ k = 2 \/ k = 3) as [->|[->|[->| ->]]]
             by lia; reflexivity.
        -- apply (Z.bits_above_log2 112 k); [lia|].
           change (Z.log2 112) with 6. lia.
Defined.



(** ** The nodata value of the 3-band path *)

(** C4, as stated, fails: here band 0 is skipped, band 1 is the first
    processed band (nodata 5) and band 2 is a later processed band with
    another nodata value (7).  The value 5 is not remembered: nothing is,
    since the only assignment to [nodataval] is for band 0.  Bands 1 and 2
    are compared with what the variable held before the loop: with 7 there,
    band 1 is reported and band 2 is not; with 0 there, both are reported
    as different from 0. *)
Lemma C4_counterexample :
  decoded_warnings offline_first_input 70 (byte_of 7)
  = Some [W_offline (Some 0); W_nodataval 1 (byte_of 5) (byte_of 7)]
  /\ decoded_warnings offline_first_input 70 (byte_of 0)
     = Some [W_offline (Some 0); W_nodataval 1 (byte_of 5) (byte_of 0);
             W_nodataval 2 (byte_of 7) (byte_of 0)]
  /\ decoded_warnings offline_first_input 70 (byte_of 7)
     <> Some [W_offline (Some 0); W_nodataval 2 (byte_of 7) (byte_of 5)].
Proof.
  split; [vm_compute; reflexivity|].
  split; [vm_compute; reflexivity|].
  vm_compute. discriminate.
Qed.

(** C4, amended: in the 3-band path the nodata value that is remembered is
    that of band 0, when band 0 is processed; a later processed band leaves
    the remembered value as it is, and a nodata value that differs from it
    only adds a warning: the band's pixels are written and the cursor moves
    as for any processed band, whatever the two values are.  Accordingly,
    two inputs that differ only in nodata bytes of processed bands decode to
    the same raster. *)
Theorem C4_nodata_mismatch :
  (forall wkb bn nodataval d s tag tmp,
      0 <= bn < 4 ->
      nth_error wkb (ptr_ s) = Some tag -> band_skipped tag = false ->
      nth_error wkb (ptr_ s + 1) = Some tmp ->
      0 <= width_ s -> 0 <= height_ s ->
      (ptr_ s + 2 + payload_size s <= length wkb)%nat ->
      4 * (height_ s * width_ s) <= INT_MAX ->
      length d = (4 * payload_size s)%nat ->
      rgb_band wkb bn (nodataval, d) s
      = Some ((if bn =? 0 then tmp else nodataval,
               fill [Z.to_nat bn] 0
                    (slice wkb (ptr_ s + 2) (payload_size s)) d),
              advance (2 + payload_size s)
                (add_warnings
                   (if bn =? 0 then []
                    else if u8 tmp =? u8 nodataval then []
                         else [W_nodataval bn tmp nodataval]) s)))
  /\ (forall wkb1 wkb2 size uninit,
         differ_only (nodata_byte wkb1) wkb1 wkb2 ->
         outcome (decode wkb1 size uninit) = outcome (decode wkb2 size uninit)).
Proof.
  split.
  - intros wkb bn nodataval d s tag tmp Hbn Ht Hsk Hn Hw Hh Hlen Hint Hd.
    rewrite (rgb_band_supported wkb bn nodataval d s tag tmp) by assumption.
    unfold mismatch_warning, nonzero.
    destruct (bn =? 0); cbn [negb]; [reflexivity|].
    destruct (u8 tmp =? u8 nodataval); reflexivity.
  - intros wkb1 wkb2 size uninit H. apply decode_harmless.
    revert H. apply differ_only_weaken.
    intros i b1 b2 Hn. right. right. exact Hn.
Qed.

Lemma C4_nodata_mismatch_witness :
  rgb_band scenario_rgb 2 (x00, bytes [10; 30; 255; 255; 20; 40; 255; 255])
           at_third_band
  = Some ((x00, bytes [10; 30; 50; 255; 20; 40; 60; 255]),
          mk_state 73 73 3 2 1 [W_nodataval 2 (byte_of 9) x00]).
Proof.
  rewrite (proj1 C4_nodata_mismatch scenario_rgb 2 x00 _ at_third_band
                 (byte_of 68) (byte_of 9)).
  - vm_compute. reflexivity.
  - lia.
  - reflexivity.
  - reflexivity.
  - reflexivity.
  - vm_compute. discriminate.
  - vm_compute. discriminate.
  - vm_compute. lia.
  - vm_compute. discriminate.
  - reflexivity.
Defined.

(** * More on the cursor *)

(** ** Values on the wire *)

Lemma u8_byte_of z : u8 (byte_of z) = z mod 256.
Proof.
  unfold u8, byte_of.
  pose proof (Z.mod_pos_bound z 256 eq_refl) as Hb.
  destruct (Byte.of_N (Z.to_N (z mod 256))) as [b|] eqn:E.
  - apply Byte.to_of_N in E. rewrite E. lia.
  - apply Byte.of_N_None_iff in E. lia.
Qed.

Lemma lor_shiftl a b n :
  0 <= n -> 0 <= a < 2 ^ n -> Z.lor a (Z.shiftl b n) = a + b * 2 ^ n.
Proof.
  intros Hn Ha. rewrite <- Z.add_lor_land, Z.shiftl_mul_pow2 by exact Hn.
  assert (Z.land a (b * 2 ^ n) = 0) as ->; [|lia].
  rewrite <- Z.shiftl_mul_pow2 by exact Hn.
  apply Z.bits_inj'. intros m Hm. rewrite Z.land_spec, Z.bits_0.
  destruct (Z.ltb_spec m n) as [Hlt|Hge].
  - rewrite Z.shiftl_spec_low by exact Hlt. apply andb_false_r.
  - assert (Z.testbit a m = false) as ->; [|reflexivity].
    destruct (Z.eq_dec a 0) as [->|Hnz]; [apply Z.bits_0|].
    apply Z.bits_above_log2; [lia|].
    apply Z.log2_lt_pow2; [lia|].
    assert (2 ^ n <= 2 ^ m) by (apply Z.pow_le_mono_r; lia). lia.
Qed.

Lemma land_255 z : 0 <= z < 256 -> Z.land z 255 = z.
Proof.
  intros H. change 255 with (Z.ones 8). rewrite Z.land_ones by lia.
  apply Z.mod_small. exact H.
Qed.

Lemma nth_error_mid {A} (pre l post : list A) p k :
  p = length pre -> (k < length l)%nat ->
  nth_error (pre ++ l ++ post) (p + k) = nth_error l k.
Proof.
  intros -> Hk. rewrite nth_error_app2 by lia.
  replace (length pre + k - length pre)%nat with k by lia.
  apply nth_error_app1. exact Hk.
Qed.

Ltac wire_read pre post s :=
  unfold read_int32, read_uint32, read_float64, read_uint16, bind, peek,
    skip, ret;
  match goal with
  | |- context [pre ++ ?l ++ post] =>
      let L := fresh "L" in
      let W := fresh "W" in
      let HW := fresh "HW" in
      set (L := l);
      assert (HW : forall k, (k < length L)%nat ->
                     nth_error (pre ++ L ++ post) (ptr_ s + k) = nth_error L k)
        by (intros; apply nth_error_mid; auto);
      set (W := pre ++ L ++ post) in *; clearbody W;
      unfold wire_bytes, be_bytes in L;
      match goal with
      | _ := context [nonzero ?e] |- _ => destruct (nonzero e)
      end;
      cbn [le_bytes rev app] in L; subst L;
      repeat (rewrite HW by (cbn [length]; lia); cbn [nth_error ptr_]);
      rewrite !u8_byte_of
  end.

Ltac mod_bounds :=
  repeat match goal with
         | |- context [?z mod 256] =>
             lazymatch goal with
             | _ : 0 <= z mod 256 < 256 |- _ => fail
             | _ => pose proof (Z.mod_pos_bound z 256 eq_refl)
             end
         end.

Lemma uint16_of_bytes v :
  0 <= v < 65536 ->
  uint16 (Z.lor (v mod 256) (Z.shiftl (v / 256 mod 256) 8)) = v.
Proof.
  intros H. mod_bounds.
  rewrite lor_shiftl by lia. unfold uint16.
  change (2 ^ 8) with 256. change (2 ^ 16) with 65536.
  rewrite Z.mod_small; Z.div_mod_to_equations; lia.
Qed.

(** X1: [read_uint16] reads a 16-bit value back from its two bytes in the
    byte order of the endianness flag (least significant byte first when the
    flag is not zero, most significant first when it is zero), wherever they
    lie in the input, and moves the cursor by 2. *)
Theorem X1_read_uint16_wire pre post e v s :
  0 <= v < 65536 -> ptr_ s = length pre ->
  read_uint16 (pre ++ wire_bytes e 2 v ++ post) e s = Some (v, advance 2 s).
Proof.
  intros Hv Hp. wire_read pre post s.
  - rewrite uint16_of_bytes by exact Hv. reflexivity.
  - rewrite Z.lor_comm, uint16_of_bytes by exact Hv. reflexivity.
Qed.

Lemma X1_read_uint16_wire_witness :
  read_uint16 (bytes [9; 9; 9] ++ wire_bytes 0 2 513 ++ bytes [7]) 0
              (at_offset 3)
  = Some (513, advance 2 (at_offset 3))
  /\ wire_bytes 0 2 513 = bytes [2; 1]
  /\ wire_bytes 1 2 513 = bytes [1; 2].
Proof.
  split; [|split; reflexivity].
  apply X1_read_uint16_wire; [lia | reflexivity].
Defined.

Ltac pows :=
  repeat match goal with
         | |- context [2 ^ Zpos ?k] =>
             let r := eval vm_compute in (2 ^ Zpos k) in
             change (2 ^ Zpos k) with r
         | H : context [2 ^ Zpos ?k] |- _ =>
             let r := eval vm_compute in (2 ^ Zpos k) in
             change (2 ^ Zpos k) with r in H
         end.

Lemma byte_at32 b k :
  0 <= b < 256 -> 0 <= k <= 24 ->
  uint32 (Z.shiftl (uint32 (Z.land b 255)) k) = Z.shiftl b k.
Proof.
  intros Hb Hk. rewrite land_255 by exact Hb. unfold uint32.
  rewrite (Z.mod_small b) by lia.
  rewrite Z.shiftl_mul_pow2 by lia.
  assert (0 < 2 ^ k <= 2 ^ 24)
    by (split; [apply Z.pow_pos_nonneg | apply Z.pow_le_mono_r]; lia).
  apply Z.mod_small. pows. nia.
Qed.

Lemma byte_at64 b k :
  0 <= b < 256 -> 0 <= k <= 56 ->
  uint64 (Z.shiftl (uint64 (Z.land b 255)) k) = Z.shiftl b k.
Proof.
  intros Hb Hk. rewrite land_255 by exact Hb. unfold uint64.
  rewrite (Z.mod_small b) by lia.
  rewrite Z.shiftl_mul_pow2 by lia.
  assert (0 < 2 ^ k <= 2 ^ 56)
    by (split; [apply Z.pow_pos_nonneg | apply Z.pow_le_mono_r]; lia).
  apply Z.mod_small. pows. nia.
Qed.

Ltac assemble :=
  mod_bounds;
  repeat (rewrite byte_at32 by lia);
  repeat (rewrite byte_at64 by lia);
  rewrite ?Z.shiftl_0_r;
  rewrite (lor_shiftl (_ mod 256)) by (pows; lia);
  repeat (rewrite (lor_shiftl (_ + _)) by (pows; lia));
  pows.

Lemma uint32_of_bytes v :
  uint32 (Z.lor (Z.lor (Z.lor
            (uint32 (Z.shiftl (uint32 (Z.land (v mod 256) 255)) 0))
            (uint32 (Z.shiftl (uint32 (Z.land (v / 256 mod 256) 255)) 8)))
            (uint32 (Z.shiftl (uint32 (Z.land (v / 256 / 256 mod 256) 255)) 16)))
            (uint32 (Z.shiftl
                       (uint32 (Z.land (v / 256 / 256 / 256 mod 256) 255)) 24)))
  = v mod 2 ^ 32.
Proof.
  assemble. unfold uint32. pows. Z.div_mod_to_equations. lia.
Qed.

Lemma uint64_of_bytes v :
  uint64 (Z.lor (Z.lor (Z.lor (Z.lor (Z.lor (Z.lor (Z.lor
    (uint64 (Z.shiftl (uint64 (Z.land (v mod 256) 255)) 0))
    (uint64 (Z.shiftl (uint64 (Z.land (v / 256 mod 256) 255)) 8)))
    (uint64 (Z.shiftl (uint64 (Z.land (v / 256 / 256 mod 256) 255)) 16)))
    (uint64 (Z.shiftl (uint64 (Z.land (v / 256 / 256 / 256 mod 256) 255)) 24)))
    (uint64 (Z.shiftl
       (uint64 (Z.land (v / 256 / 256 / 256 / 256 mod 256) 255)) 32)))
    (uint64 (Z.shiftl
       (uint64 (Z.land (v / 256 / 256 / 256 / 256 / 256 mod 256) 255)) 40)))
    (uint64 (Z.shiftl
       (uint64 (Z.land (v / 256 / 256 / 256 / 256 / 256 / 256 mod 256) 255))
       48)))
    (uint64 (Z.shiftl
       (uint64
          (Z.land (v / 256 / 256 / 256 / 256 / 256 / 256 / 256 mod 256) 255))
       56)))
  = v mod 2 ^ 64.
Proof.
  assemble. unfold uint64. pows. Z.div_mod_to_equations. lia.
Qed.

(** X2: [read_uint32] reads a value back from its four bytes in the byte
    order of the endianness flag, modulo 2^32, and [read_int32] reads a
    signed 32-bit value back from the four bytes of its two's complement;
    both move the cursor by 4. *)
Theorem X2_read_int32_wire pre post e v s :
  ptr_ s = length pre ->
  read_uint32 (pre ++ wire_bytes e 4 v ++ post) e s
  = Some (v mod 2 ^ 32, advance 4 s)
  /\ (- 2 ^ 31 <= v < 2 ^ 31 ->
      read_int32 (pre ++ wire_bytes e 4 v ++ post) e s
      = Some (v, advance 4 s)).
Proof.
  intros Hp.
  assert (H32 : read_uint32 (pre ++ wire_bytes e 4 v ++ post) e s
                = Some (v mod 2 ^ 32, advance 4 s)).
  { wire_read pre post s; rewrite uint32_of_bytes; reflexivity. }
  split; [exact H32|].
  intros Hv. unfold read_int32, bind. rewrite H32. unfold ret, int32.
  do 2 f_equal. pows. Z.div_mod_to_equations. lia.
Qed.

Lemma X2_read_int32_wire_witness :
  read_int32 (wire_bytes 1 4 (-2)) 1 (at_offset 0)
  = Some (-2, advance 4 (at_offset 0))
  /\ wire_bytes 1 4 (-2) = bytes [254; 255; 255; 255].
Proof.
  split; [|reflexivity].
  apply (X2_read_int32_wire [] [] 1 (-2) (at_offset 0)); [reflexivity | lia].
Defined.

(** X3: [read_float64] returns the double whose IEEE-754 binary64 bits are
    the 64-bit integer stored in the eight bytes under the cursor, in the
    byte order of the endianness flag, and moves the cursor by 8. *)
Theorem X3_read_float64_wire pre post e i s :
  ptr_ s = length pre ->
  read_float64 (pre ++ wire_bytes e 8 i ++ post) e s
  = Some (double_of_bits (i mod 2 ^ 64), advance 8 s).
Proof.
  intros Hp. wire_read pre post s; rewrite uint64_of_bytes; reflexivity.
Qed.

Lemma X3_read_float64_wire_witness :
  read_float64 (bytes [0] ++ wire_bytes 0 8 4636737291354636288 ++ []) 0
               (at_offset 1)
  = Some (double_of_int 100, advance 8 (at_offset 1))
  /\ wire_bytes 0 8 4636737291354636288 = bytes be_100_0.
Proof.
  split; [|reflexivity].
  apply (X3_read_float64_wire (bytes [0]) [] 0 4636737291354636288
                              (at_offset 1)).
  reflexivity.
Defined.

(** * More on [get_raster] *)

(** ** Rotated rasters *)

Lemma dtrue_false_iff x : dtrue x = false <-> is_zero x.
Proof.
  unfold dtrue, is_zero. split.
  - destruct x as [[|]|[|]| |[|] m e]; cbn; intros H;
      try discriminate; auto.
  - intros [-> | ->]; reflexivity.
Qed.

Lemma decode_bands_rotation wkb uninit hd s :
  dtrue (h_skewX hd) || dtrue (h_skewY hd) = true ->
  decode_bands wkb uninit hd s = Some (None, add_warnings [W_rotation] s).
Proof.
  intros H. unfold decode_bands. rewrite H. reflexivity.
Qed.

(** X4: when the version is 0 and one of the two skews is anything but a
    zero (positive or negative zero are the only values let through: NaN
    and the infinities are rejected too), [get_raster] returns the null
    raster with the "raster rotation is not supported" warning; the whole
    header has been read (cursor at 61) and no byte after it has any
    influence. *)
Theorem X4_rotation wkb size uninit hd :
  parse_header wkb = Some hd -> h_version hd = 0 ->
  ~ is_zero (h_skewX hd) \/ ~ is_zero (h_skewY hd) ->
  decode wkb size uninit = Some (None, [W_rotation])
  /\ final_cursor wkb size uninit = Some HEADER_SIZE
  /\ (forall wkb', firstn HEADER_SIZE wkb' = firstn HEADER_SIZE wkb ->
                   decode wkb' size uninit = decode wkb size uninit).
Proof.
  intros Hp Hv Hsk.
  assert (Hrot : dtrue (h_skewX hd) || dtrue (h_skewY hd) = true).
  { apply orb_true_iff.
    destruct (dtrue (h_skewX hd)) eqn:Ex; [left; reflexivity|].
    destruct (dtrue (h_skewY hd)) eqn:Ey; [right; reflexivity|].
    apply dtrue_false_iff in Ex. apply dtrue_false_iff in Ey. tauto. }
  assert (Hrun : forall w, parse_header w = Some hd ->
            get_raster w uninit (pgraster_wkb_reader size)
            = Some (None, add_warnings [W_rotation] (after_header size hd []))).
  { intros w Hw. rewrite (get_raster_header _ _ _ _ Hw Hv).
    apply decode_bands_rotation, Hrot. }
  split; [|split].
  - unfold decode. rewrite (Hrun wkb Hp). reflexivity.
  - unfold final_cursor. rewrite (Hrun wkb Hp). reflexivity.
  - intros wkb' Hpre. unfold decode. rewrite (Hrun wkb Hp), (Hrun wkb'); auto.
    rewrite <- Hp. apply parse_header_agree, agree_firstn, Hpre.
Qed.

Lemma X4_rotation_witness :
  decode rotated_input 61 x00 = Some (None, [W_rotation])
  /\ final_cursor rotated_input 61 x00 = Some HEADER_SIZE.
Proof.
  destruct (parse_header rotated_input) as [hd|] eqn:Hp;
    [|vm_compute in Hp; discriminate].
  assert (Hhd : h_version hd = 0 /\ h_skewX hd = double_of_int 1).
  { vm_compute in Hp. injection Hp as <-. split; reflexivity. }
  destruct Hhd as (Hv & Hx).
  destruct (X4_rotation rotated_input 61 x00 hd Hp Hv) as (H1 & H2 & _).
  - left. rewrite Hx. intros [H|H]; vm_compute in H; discriminate.
  - split; assumption.
Defined.

(** ** A single band that is skipped *)

Lemma read_grayscale_skip wkb r s tag :
  nth_error wkb (ptr_ s) = Some tag -> band_skipped tag = true ->
  read_grayscale wkb r s
  = Some (set_premultiplied true (image_set_white r),
          add_warnings [skip_warning None tag] (advance 1 s)).
Proof.
  intros Ht Hsk. unfold band_skipped in Hsk. unfold skip_warning.
  destruct (nonzero (BANDTYPE_IS_OFFDB (u8 tag))) eqn:Hoff.
  - apply (read_grayscale_offline _ _ _ _ Ht Hoff).
  - cbn [orb] in Hsk.
    unfold read_grayscale. unfold bind at 1.
    rewrite (read_uint8_some _ _ _ Ht), offline_nonzero, Hoff, Hsk.
    reflexivity.
Qed.

Lemma rgb_band_skip wkb bn acc s tag :
  nth_error wkb (ptr_ s) = Some tag -> band_skipped tag = true ->
  rgb_band wkb bn acc s
  = Some (acc, add_warnings [skip_warning (Some bn) tag] (advance 1 s)).
Proof.
  intros Ht Hsk. unfold band_skipped in Hsk. unfold skip_warning.
  destruct (nonzero (BANDTYPE_IS_OFFDB (u8 tag))) eqn:Hoff.
  - apply (rgb_band_offline _ _ _ _ _ Ht Hoff).
  - apply (rgb_band_unsupported _ _ _ _ _ Ht Hoff).
    cbn [orb] in Hsk. exact Hsk.
Qed.

(** X5: a 1-band input (version 0, no skew) whose band is not offline but
    has a pixel type other than 3 and 4 is not an error: [get_raster]
    returns a raster of the header's size, premultiplied, in which every
    byte is 255 (opaque white), with the one warning "band type
    unsupported"; only the tag byte of the band is consumed (cursor at 62). *)
Theorem X5_unsupported_pixel_type wkb size uninit hd tag :
  parse_header wkb = Some hd -> h_version hd = 0 ->
  dtrue (h_skewX hd) = false -> dtrue (h_skewY hd) = false ->
  h_numBands hd = 1 ->
  nth_error wkb HEADER_SIZE = Some tag ->
  Z.testbit (u8 tag) 7 = false ->
  BANDTYPE_PIXTYPE (u8 tag) < PT_8BSI \/ PT_8BUI < BANDTYPE_PIXTYPE (u8 tag) ->
  decode wkb size uninit
  = Some (Some (mk_raster (header_extent hd) (h_width hd) (h_height hd)
                  (repeat xff (Z.to_nat (4 * h_width hd * h_height hd)))
                  true),
          [W_bandtype None tag])
  /\ final_cursor wkb size uninit = Some (HEADER_SIZE + 1)%nat.
Proof.
  intros Hp Hv Hx Hy Hn Ht Hoff Hty.
  assert (Hsk : band_skipped tag = true).
  { unfold band_skipped. rewrite offdb_bit, Hoff. cbn [orb].
    apply orb_true_iff.
    destruct Hty; [right; apply Z.ltb_lt | left; apply Z.gtb_lt]; lia. }
  assert (Hw : skip_warning None tag = W_bandtype None tag).
  { unfold skip_warning. rewrite offdb_bit, Hoff. reflexivity. }
  assert (Hrun : get_raster wkb uninit (pgraster_wkb_reader size)
    = Some (Some (mk_raster (header_extent hd) (h_width hd) (h_height hd)
                    (repeat xff (Z.to_nat (4 * h_width hd * h_height hd)))
                    true),
            add_warnings [W_bandtype None tag]
                         (advance 1 (after_header size hd [])))).
  { rewrite (get_raster_header _ _ _ _ Hp Hv), decode_bands_gray
      by assumption.
    unfold bind at 1.
    rewrite (read_grayscale_skip wkb _ _ tag) by assumption.
    rewrite Hw. unfold ret, new_raster, image_set_white, set_premultiplied.
    cbn [ext_ data_width data_height data_ premultiplied_alpha_].
    rewrite map_repeat. reflexivity. }
  unfold decode, final_cursor. rewrite Hrun. split; reflexivity.
Qed.

Lemma X5_unsupported_pixel_type_witness :
  exists r,
    decode wide_pixels_input 67 x00
    = Some (Some r, [W_bandtype None (byte_of 6)])
    /\ data_ r = bytes [255; 255; 255; 255; 255; 255; 255; 255]
    /\ final_cursor wide_pixels_input 67 x00 = Some 62%nat.
Proof.
  destruct (parse_header wide_pixels_input) as [hd|] eqn:Hp;
    [|vm_compute in Hp; discriminate].
  assert (Hhd : h_version hd = 0 /\ dtrue (h_skewX hd) = false
                /\ dtrue (h_skewY hd) = false /\ h_numBands hd = 1
                /\ h_width hd = 2 /\ h_height hd = 1).
  { vm_compute in Hp. injection Hp as <-. repeat split. }
  destruct Hhd as (Hv & Hx & Hy & Hn & Hw & Hh).
  destruct (X5_unsupported_pixel_type wide_pixels_input 67 x00 hd (byte_of 6)
              Hp Hv Hx Hy Hn) as [Hd Hc].
  - reflexivity.
  - reflexivity.
  - right. vm_compute. reflexivity.
  - eexists. split; [exact Hd|]. split; [|exact Hc].
    cbn [data_]. rewrite Hw, Hh. reflexivity.
Defined.

(** ** The image keeps its size *)

Lemma grayscale_stores_length ps y x w v d d' :
  grayscale_stores ps y x w v d = Some d' -> length d' = length d.
Proof.
  unfold grayscale_stores, obind.
  repeat match goal with
         | |- context [if ?c then _ else _] => destruct c; try discriminate
         end.
  intros H. injection H as <-. rewrite !length_upd. reflexivity.
Qed.

Lemma rgb_stores_length ps bn y x w v d d' :
  rgb_stores ps bn y x w v d = Some d' -> length d' = length d.
Proof.
  unfold rgb_stores. destruct (_ && _); [|discriminate].
  intros H. injection H as <-. apply length_upd.
Qed.

Section LoopFacts.

Variable wkb : list byte.
Variable body : Z -> Z -> list byte -> M (list byte).
Variable stores : Z -> Z -> Z -> byte -> list byte -> option (list byte).

Hypothesis body_one_byte : forall y x d s,
  body y x d s = one_byte_body wkb (stores y x) d s.

Hypothesis stores_length : forall y x w v d d',
  stores y x w v d = Some d' -> length d' = length d.

Lemma body_facts y x d s d' s' :
  body y x d s = Some (d', s') ->
  length d' = length d /\ s' = advance 1 s /\ (ptr_ s < length wkb)%nat.
Proof.
  rewrite body_one_byte. unfold one_byte_body.
  destruct (nth_error wkb (ptr_ s)) as [v|] eqn:E; [|discriminate].
  destruct (stores y x (width_ s) v d) as [d1|] eqn:Es; [|discriminate].
  intros H. injection H as <- <-.
  split; [eapply stores_length; eauto|]. split; [reflexivity|].
  apply nth_error_Some. congruence.
Qed.

Lemma row_facts y : forall n x d s d' s',
  for_loop n x (body y) d s = Some (d', s') ->
  length d' = length d /\ s' = advance n s
  /\ ((ptr_ s <= length wkb)%nat -> (ptr_ s + n <= length wkb)%nat).
Proof.
  induction n as [|n IH]; intros x d s d' s'; cbn [for_loop].
  - unfold ret. intros H. injection H as <- <-. rewrite advance_0.
    repeat split. lia.
  - unfold bind.
    destruct (body y x d s) as [[d1 s1]|] eqn:E; [|discriminate].
    intros H. apply IH in H. apply body_facts in E.
    destruct E as (L1 & -> & P1). destruct H as (L2 & -> & P2).
    cbn [ptr_ advance] in P2. rewrite advance_advance.
    repeat split; [congruence | lia].
Qed.

Lemma rows_facts : forall n y d s d' s',
  rows body y n d s = Some (d', s') ->
  length d' = length d /\ s' = advance (n * Z.to_nat (width_ s)) s
  /\ ((ptr_ s <= length wkb)%nat ->
      (ptr_ s + n * Z.to_nat (width_ s) <= length wkb)%nat).
Proof.
  unfold rows.
  induction n as [|n IH]; intros y d s d' s'; cbn [for_loop].
  - unfold ret. intros H. injection H as <- <-. rewrite advance_0.
    repeat split. lia.
  - unfold bind at 1. unfold bind at 1. unfold get at 1.
    destruct (for_loop (Z.to_nat (width_ s)) 0 (body y) d s)
      as [[d1 s1]|] eqn:E; [|discriminate].
    intros H. apply IH in H. apply row_facts in E.
    destruct E as (L1 & -> & P1). destruct H as (L2 & -> & P2).
    cbn [ptr_ width_ advance] in *. rewrite advance_advance.
    repeat split; [congruence | lia].
Qed.

End LoopFacts.

Lemma rows_grayscale_facts wkb n y d s d' s' :
  rows (grayscale_pixel wkb 4) y n d s = Some (d', s') ->
  length d' = length d /\ s' = advance (n * Z.to_nat (width_ s)) s
  /\ ((ptr_ s <= length wkb)%nat ->
      (ptr_ s + n * Z.to_nat (width_ s) <= length wkb)%nat).
Proof.
  apply (rows_facts wkb (grayscale_pixel wkb 4) (grayscale_stores 4)).
  - apply grayscale_pixel_one_byte.
  - apply grayscale_stores_length.
Qed.

Lemma rows_rgb_facts wkb bn n y d s d' s' :
  rows (rgb_pixel wkb 4 bn) y n d s = Some (d', s') ->
  length d' = length d /\ s' = advance (n * Z.to_nat (width_ s)) s
  /\ ((ptr_ s <= length wkb)%nat ->
      (ptr_ s + n * Z.to_nat (width_ s) <= length wkb)%nat).
Proof.
  apply (rows_facts wkb (rgb_pixel wkb 4 bn) (rgb_stores 4 bn)).
  - apply rgb_pixel_one_byte.
  - apply rgb_stores_length.
Qed.

(** What a band leaves behind, whatever the input. *)

Lemma read_grayscale_facts wkb r s r' s' :
  read_grayscale wkb r s = Some (r', s') ->
  exists tag,
    nth_error wkb (ptr_ s) = Some tag
    /\ length (data_ r') = length (data_ r)
    /\ cur_eq s' (advance (if band_skipped tag then 1
                            else 2 + payload_size s) s)
    /\ ((ptr_ s <= length wkb)%nat -> (ptr_ s' <= length wkb)%nat).
Proof.
  destruct (nth_error wkb (ptr_ s)) as [tag|] eqn:Ht.
  2:{ unfold read_grayscale, bind, read_uint8. rewrite Ht. discriminate. }
  assert (Hin : (ptr_ s < length wkb)%nat)
    by (apply nth_error_Some; congruence).
  exists tag. split; [reflexivity|].
  destruct (band_skipped tag) eqn:Hsk.
  - rewrite (read_grayscale_skip _ _ _ _ Ht Hsk) in H.
    injection H as <- <-.
    cbn [data_ set_premultiplied image_set_white ptr_ add_warnings advance].
    rewrite length_map. repeat split. lia.
  - rewrite (read_grayscale_processed _ _ _ _ Ht Hsk) in H.
    destruct (nth_error wkb (ptr_ s + 1)) as [nd|] eqn:Hnd; [|discriminate].
    assert (Hin1 : (ptr_ s + 1 < length wkb)%nat)
      by (apply nth_error_Some; congruence).
    destruct (rows _ _ _ _ _) as [[d1 s1]|] eqn:E; [|discriminate].
    injection H as <- <-.
    apply rows_grayscale_facts in E. destruct E as (L & -> & P).
    cbn [data_ set_data ptr_ width_ height_ add_warnings advance] in *.
    rewrite length_map in L. unfold payload_size.
    repeat split; auto;
      cbn [ptr_ width_ height_ numBands_ add_warnings advance]; lia.
Qed.

Lemma rgb_band_facts wkb bn nd d s nd' d' s' :
  rgb_band wkb bn (nd, d) s = Some ((nd', d'), s') ->
  exists tag,
    nth_error wkb (ptr_ s) = Some tag
    /\ length d' = length d
    /\ cur_eq s' (advance (if band_skipped tag then 1
                            else 2 + payload_size s) s)
    /\ ((ptr_ s <= length wkb)%nat -> (ptr_ s' <= length wkb)%nat).
Proof.
  intros H.
  destruct (nth_error wkb (ptr_ s)) as [tag|] eqn:Ht.
  2:{ unfold rgb_band, bind, read_uint8 in H. rewrite Ht in H.
      discriminate. }
  assert (Hin : (ptr_ s < length wkb)%nat)
    by (apply nth_error_Some; congruence).
  exists tag. split; [reflexivity|].
  destruct (band_skipped tag) eqn:Hsk.
  - rewrite (rgb_band_skip _ _ _ _ _ Ht Hsk) in H.
    injection H as _ <- <-.
    cbn [ptr_ add_warnings advance]. repeat split. lia.
  - rewrite (rgb_band_processed _ _ _ _ _ _ Ht Hsk) in H.
    destruct (nth_error wkb (ptr_ s + 1)) as [tmp|] eqn:Hnd; [|discriminate].
    assert (Hin1 : (ptr_ s + 1 < length wkb)%nat)
      by (apply nth_error_Some; congruence).
    destruct (rows _ _ _ _ _) as [[d1 s1]|] eqn:E; [|discriminate].
    injection H as _ <- <-.
    apply rows_rgb_facts in E. destruct E as (L & -> & P).
    cbn [ptr_ width_ height_ add_warnings advance] in *.
    unfold payload_size.
    repeat split; auto;
      cbn [ptr_ width_ height_ numBands_ add_warnings advance]; lia.
Qed.

Lemma next_band_some wkb n p tag :
  nth_error wkb p = Some tag ->
  next_band wkb n p = (p + (if band_skipped tag then 1 else 2 + n))%nat.
Proof.
  intros H. unfold next_band. rewrite H.
  destruct (band_skipped tag); lia.
Qed.

Lemma band_loop_facts wkb : forall k bn nd d s acc' s',
  for_loop k bn (rgb_band wkb) (nd, d) s = Some (acc', s') ->
  length (snd acc') = length d
  /\ ptr_ s' = bands_end wkb (payload_size s) k (ptr_ s)
  /\ (ptr_ s <= ptr_ s')%nat
  /\ ((ptr_ s <= length wkb)%nat -> (ptr_ s' <= length wkb)%nat).
Proof.
  induction k as [|k IH]; intros bn nd d s acc' s'; cbn [for_loop bands_end].
  - unfold ret. intros H. injection H as <- <-. cbn [snd]. repeat split; lia.
  - unfold bind.
    destruct (rgb_band wkb bn (nd, d) s) as [[[nd1 d1] s1]|] eqn:E;
      [|discriminate].
    intros H. apply IH in H. apply rgb_band_facts in E.
    destruct E as (tag & Ht & L1 & (P1 & _ & W1 & H1) & M1).
    destruct H as (L2 & P2 & F2 & M2).
    cbn [ptr_ width_ height_ advance] in *.
    assert (Hn : payload_size s1 = payload_size s)
      by (unfold payload_size; rewrite W1, H1; reflexivity).
    rewrite (next_band_some _ _ _ _ Ht), <- P1, <- Hn.
    repeat split; auto; try congruence; try lia.
Qed.

Lemma read_rgb_facts wkb uninit r s r' s' :
  read_rgb wkb uninit r s = Some (r', s') ->
  length (data_ r') = length (data_ r)
  /\ ptr_ s' = bands_end wkb (payload_size s) (Z.to_nat (numBands_ s)) (ptr_ s)
  /\ ((ptr_ s <= length wkb)%nat -> (ptr_ s' <= length wkb)%nat).
Proof.
  unfold read_rgb. unfold bind at 1. unfold get at 1. unfold bind, ret.
  destruct (for_loop _ _ _ _ _) as [[acc s1]|] eqn:E; [|discriminate].
  intros H. injection H as <- <-. apply band_loop_facts in E.
  cbn [data_ set_data set_premultiplied image_set_white] in *.
  rewrite length_map in E. destruct E as (L & P & _ & M).
  repeat split; auto.
Qed.

(** What is known of every raster [get_raster] returns. *)
Lemma get_raster_facts wkb uninit size r s' :
  get_raster wkb uninit (pgraster_wkb_reader size) = Some (Some r, s') ->
  exists hd,
    parse_header wkb = Some hd /\ h_version hd = 0
    /\ dtrue (h_skewX hd) = false /\ dtrue (h_skewY hd) = false
    /\ (h_numBands hd = 1 \/ h_numBands hd = 3)
    /\ ext_ r = header_extent hd
    /\ data_width r = h_width hd /\ data_height r = h_height hd
    /\ premultiplied_alpha_ r = true
    /\ length (data_ r) = Z.to_nat (4 * h_width hd * h_height hd)
    /\ ptr_ s' = bands_end wkb (h_pixels hd) (bands_read hd) HEADER_SIZE
    /\ (ptr_ s' <= length wkb)%nat.
Proof.
  rewrite get_raster_cases. unfold get_raster_spec.
  destruct (hdr_version wkb) as [v|] eqn:Hv; [|discriminate].
  unfold nonzero. destruct (Z.eqb_spec v 0) as [->|Hnz]; cbn [negb];
    [|discriminate].
  destruct (parse_header wkb) as [hd|] eqn:Hp; [|discriminate].
  pose proof (parse_header_length _ _ Hp) as Hlen.
  pose proof (parse_header_version _ _ Hp) as Hv'.
  assert (Hv0 : h_version hd = 0) by congruence.
  unfold decode_bands, bands_read.
  destruct (dtrue (h_skewX hd)) eqn:Hx; [discriminate|].
  destruct (dtrue (h_skewY hd)) eqn:Hy; [discriminate|].
  cbn [orb].
  destruct (Z.eqb_spec (h_numBands hd) 1) as [H1|H1].
  { unfold bind, ret.
    destruct (read_grayscale _ _ _) as [[r1 s1]|] eqn:E; [|discriminate].
    intros H. injection H as <- <-. exists hd.
    pose proof (read_grayscale_shape _ _ _ _ _ E) as (S1 & S2 & S3 & S4).
    apply read_grayscale_facts in E.
    destruct E as (tag & Ht & L & (P & _) & M).
    unfold after_header, new_raster, payload_size in *.
    cbn [ptr_ width_ height_ advance data_ ext_ data_width data_height] in *.
    rewrite repeat_length in L. rewrite H1.
    repeat split; auto.
    change (1 =? 1) with true. cbn iota. cbn [bands_end].
    rewrite (next_band_some _ _ _ _ Ht), P.
    unfold h_pixels, h_rows, h_cols. reflexivity. }
  destruct (Z.eqb_spec (h_numBands hd) 3) as [H3|H3]; [|discriminate].
  unfold bind, ret.
  destruct (read_rgb _ _ _ _) as [[r1 s1]|] eqn:E; [|discriminate].
  intros H. injection H as <- <-. exists hd.
  pose proof (read_rgb_shape _ _ _ _ _ _ E) as (S1 & S2 & S3 & S4).
  apply read_rgb_facts in E. destruct E as (L & P & M).
  unfold after_header, new_raster, payload_size in *.
  cbn [ptr_ width_ height_ numBands_ advance data_ ext_ data_width
       data_height] in *.
  rewrite repeat_length in L. rewrite H3 in P |- *.
  repeat split; auto.
Qed.

Lemma decode_inv wkb size uninit r ws :
  decode wkb size uninit = Some (r, ws) ->
  exists s', get_raster wkb uninit (pgraster_wkb_reader size) = Some (r, s')
             /\ warnings s' = ws.
Proof.
  unfold decode.
  destruct (get_raster wkb uninit (pgraster_wkb_reader size)) as [[r1 s1]|];
    [|discriminate].
  intros H. injection H as <- <-. eauto.
Qed.

(** ** Every raster returned *)

(** X6: [get_raster] returns a raster only for a header of version 0, with
    both skews zero and 1 or 3 bands; that raster has the extent computed
    from the header, the header's width and height, the premultiplied flag
    set, and an image of exactly 4 * width * height bytes, whatever the
    bands were. *)
Theorem X6_raster_shape wkb size uninit r ws :
  decode wkb size uninit = Some (Some r, ws) ->
  exists hd,
    parse_header wkb = Some hd /\ h_version hd = 0
    /\ is_zero (h_skewX hd) /\ is_zero (h_skewY hd)
    /\ (h_numBands hd = 1 \/ h_numBands hd = 3)
    /\ ext_ r = header_extent hd
    /\ data_width r = h_width hd /\ data_height r = h_height hd
    /\ premultiplied_alpha_ r = true
    /\ length (data_ r) = Z.to_nat (4 * h_width hd * h_height hd).
Proof.
  intros H. apply decode_inv in H. destruct H as (s' & H & _).
  apply get_raster_facts in H.
  destruct H as (hd & Hp & Hv & Hx & Hy & Hn & He & Hw & Hh & Hpm & Hl & _).
  exists hd. rewrite <- !dtrue_false_iff. repeat split; auto.
Qed.

Lemma X6_raster_shape_witness :
  exists r hd,
    decode offline_first_input 70 x00
    = Some (Some r, [W_offline (Some 0);
                     W_nodataval 1 (byte_of 5) x00;
                     W_nodataval 2 (byte_of 7) x00])
    /\ parse_header offline_first_input = Some hd
    /\ h_numBands hd = 3
    /\ length (data_ r) = Z.to_nat (4 * h_width hd * h_height hd).
Proof.
  destruct (decode offline_first_input 70 x00) as [[[r|] ws]|] eqn:Hd;
    try (vm_compute in Hd; discriminate).
  destruct (X6_raster_shape _ _ _ _ _ Hd)
    as (hd & Hp & _ & _ & _ & Hn & _ & _ & _ & _ & Hl).
  exists r, hd.
  assert (Hws : ws = [W_offline (Some 0); W_nodataval 1 (byte_of 5) x00;
                      W_nodataval 2 (byte_of 7) x00]).
  { vm_compute in Hd. injection Hd as _ <-. reflexivity. }
  subst ws. repeat split; auto.
  destruct Hn as [Hn|Hn]; [|exact Hn].
  vm_compute in Hp. injection Hp as <-. discriminate Hn.
Defined.

(** ** What is consumed *)

(** X7: when [get_raster] returns a raster, the cursor has gone over the
    61 bytes of the header and, for each band read (1 or 3), over 1 byte if
    the band is skipped and over 2 + width * height bytes if it is
    processed; all these bytes lie inside the memory. *)
Theorem X7_bytes_consumed wkb size uninit r ws :
  decode wkb size uninit = Some (Some r, ws) ->
  exists hd c,
    parse_header wkb = Some hd
    /\ final_cursor wkb size uninit = Some c
    /\ c = bands_end wkb (h_pixels hd) (bands_read hd) HEADER_SIZE
    /\ (c <= length wkb)%nat.
Proof.
  intros H. apply decode_inv in H. destruct H as (s' & H & _).
  unfold final_cursor. rewrite H. apply get_raster_facts in H.
  destruct H as (hd & Hp & _ & _ & _ & _ & _ & _ & _ & _ & _ & Hc & Hl).
  exists hd, (ptr_ s'). repeat split; auto.
Qed.

Lemma X7_bytes_consumed_witness :
  final_cursor offline_first_input 70 x00 = Some 70%nat
  /\ (61 + 1 + (2 + 2) + (2 + 2) = 70)%nat.
Proof.
  split; [|reflexivity].
  destruct (decode offline_first_input 70 x00) as [[[r|] ws]|] eqn:Hd;
    try (vm_compute in Hd; discriminate).
  destruct (X7_bytes_consumed _ _ _ _ _ Hd) as (hd & c & Hp & Hc & -> & _).
  rewrite Hc. f_equal.
  vm_compute in Hp. injection Hp as <-. vm_compute. reflexivity.
Defined.

(** ** Inputs cut short *)

Lemma hdr_version_length wkb v :
  hdr_version wkb = Some v -> (3 <= length wkb)%nat.
Proof.
  unfold hdr_version, obind.
  destruct (hdr_endian wkb); [|discriminate].
  intros H. apply field_uint16_length in H. exact H.
Qed.

Lemma decode_gray_returns wkb size uninit hd :
  parse_header wkb = Some hd -> h_version hd = 0 ->
  dtrue (h_skewX hd) = false -> dtrue (h_skewY hd) = false ->
  h_numBands hd = 1 ->
  forall ws, decode wkb size uninit <> Some (None, ws).
Proof.
  intros Hp Hv Hx Hy Hn ws. unfold decode.
  rewrite (get_raster_header _ _ _ _ Hp Hv), decode_bands_gray by assumption.
  unfold bind, ret.
  destruct (read_grayscale _ _ _) as [[r s]|]; discriminate.
Qed.

(** X10: an input cut short has no defined result, because [get_raster]
    reads past the end of the memory it is given: when fewer than 3 bytes
    are there; when the version is 0 and fewer than the 61 bytes of the
    header are there; and when a 1-band header (version 0, no skew) with a
    supported band is followed by fewer than the 2 + width * height bytes of
    the band. *)
Theorem X10_truncated wkb size uninit :
  ((length wkb < 3)%nat -> decode wkb size uninit = None)
  /\ (hdr_version wkb = Some 0 -> (length wkb < HEADER_SIZE)%nat ->
      decode wkb size uninit = None)
  /\ (forall hd tag,
         parse_header wkb = Some hd -> h_version hd = 0 ->
         dtrue (h_skewX hd) = false -> dtrue (h_skewY hd) = false ->
         h_numBands hd = 1 ->
         nth_error wkb HEADER_SIZE = Some tag -> supported_band tag ->
         (length wkb < HEADER_SIZE + 2 + h_pixels hd)%nat ->
         decode wkb size uninit = None).
Proof.
  split; [|split].
  - intros Hl. unfold decode. rewrite get_raster_cases. unfold get_raster_spec.
    destruct (hdr_version wkb) as [v|] eqn:Hv; [|reflexivity].
    apply hdr_version_length in Hv. lia.
  - intros Hv Hl. unfold decode. rewrite get_raster_cases.
    unfold get_raster_spec. rewrite Hv. cbn [nonzero Z.eqb negb].
    destruct (parse_header wkb) as [hd|] eqn:Hp; [|reflexivity].
    apply parse_header_length in Hp. lia.
  - intros hd tag Hp Hv Hx Hy Hn Ht Hs Hl.
    destruct (decode wkb size uninit) as [[[r|] ws]|] eqn:Hd;
      [| |reflexivity]; exfalso.
    + apply decode_inv in Hd. destruct Hd as (s' & Hd & _).
      apply get_raster_facts in Hd.
      destruct Hd as (hd' & Hp' & _ & _ & _ & _ & _ & _ & _ & _ & _ & Hc & Hm).
      assert (hd' = hd) by congruence. subst hd'.
      unfold bands_read in Hc. rewrite Hn in Hc.
      change (1 =? 1) with true in Hc. cbn iota in Hc. cbn [bands_end] in Hc.
      rewrite (next_band_some _ _ _ _ Ht) in Hc.
      rewrite (supported_band_not_skipped _ Hs) in Hc. lia.
    + eapply decode_gray_returns; eauto.
Qed.

Lemma X10_truncated_witness :
  decode (firstn 64 scenario_gray) 65 x00 = None
  /\ decode (firstn 40 scenario_gray) 65 x00 = None.
Proof.
  split.
  - destruct (parse_header (firstn 64 scenario_gray)) as [hd|] eqn:Hp;
      [|vm_compute in Hp; discriminate].
    assert (Hhd : h_version hd = 0 /\ dtrue (h_skewX hd) = false
                  /\ dtrue (h_skewY hd) = false /\ h_numBands hd = 1
                  /\ h_width hd = 2 /\ h_height hd = 1).
    { vm_compute in Hp. injection Hp as <-. repeat split. }
    destruct Hhd as (Hv & Hx & Hy & Hn & Hw & Hh).
    apply (proj2 (proj2 (X10_truncated (firstn 64 scenario_gray) 65 x00))
                 hd (byte_of 4) Hp Hv Hx Hy Hn).
    + reflexivity.
    + split; [reflexivity | right; reflexivity].
    + unfold h_pixels, h_rows, h_cols. rewrite Hw, Hh. vm_compute. lia.
  - apply (proj1 (proj2 (X10_truncated (firstn 40 scenario_gray) 65 x00))).
    + reflexivity.
    + vm_compute. lia.
Defined.

(** ** Empty rasters *)

(** X12: a 1-band input (version 0, no skew) of width 0 or height 0 with a
    supported band still needs the tag and the nodata byte of the band: when
    they are in memory a raster with an empty image is returned and the
    cursor ends right after the nodata byte, at 63. *)
Theorem X12_empty_raster wkb size uninit hd tag :
  parse_header wkb = Some hd -> h_version hd = 0 ->
  dtrue (h_skewX hd) = false -> dtrue (h_skewY hd) = false ->
  h_numBands hd = 1 ->
  nth_error wkb HEADER_SIZE = Some tag -> supported_band tag ->
  h_width hd = 0 \/ h_height hd = 0 ->
  (HEADER_SIZE + 2 <= length wkb)%nat ->
  exists r ws,
    decode wkb size uninit = Some (Some r, ws)
    /\ data_ r = []
    /\ final_cursor wkb size uninit = Some (HEADER_SIZE + 2)%nat.
Proof.
  intros Hp Hv Hx Hy Hn Ht Hs Hz Hl.
  assert (Hpix : h_pixels hd = 0%nat)
    by (unfold h_pixels, h_rows, h_cols; destruct Hz as [Hz|Hz]; rewrite Hz;
        cbn [Z.to_nat]; lia).
  destruct (decode_complete wkb size uninit hd Hp Hv Hx Hy)
    as (r & ws & Hd).
  { left. split; [exact Hn|]. unfold band_offset. rewrite Hpix. split.
    - exists tag. split; [|exact Hs].
      rewrite Nat.mul_0_l, Nat.add_0_r. exact Ht.
    - lia. }
  { unfold INT_MAX. destruct Hz as [Hz|Hz]; rewrite Hz; lia. }
  exists r, ws. split; [exact Hd|].
  pose proof Hd as Hd'. apply decode_inv in Hd'.
  destruct Hd' as (s' & Hg & _).
  unfold final_cursor. rewrite Hg. apply get_raster_facts in Hg.
  destruct Hg as (hd' & Hp' & _ & _ & _ & _ & _ & _ & _ & _ & Hlen & Hc & _).
  assert (hd' = hd) by congruence. subst hd'. split.
  - apply length_zero_iff_nil. rewrite Hlen.
    destruct Hz as [Hz|Hz]; rewrite Hz; rewrite ?Z.mul_0_r, ?Z.mul_0_l;
      reflexivity.
  - f_equal. rewrite Hc. unfold bands_read. rewrite Hn.
    change (1 =? 1) with true. cbn iota. cbn [bands_end].
    rewrite (next_band_some _ _ _ _ Ht), (supported_band_not_skipped _ Hs).
    rewrite Hpix. lia.
Qed.

Lemma X12_empty_raster_witness :
  exists r ws,
    decode empty_input 63 x00 = Some (Some r, ws)
    /\ data_ r = []
    /\ final_cursor empty_input 63 x00 = Some 63%nat.
Proof.
  destruct (parse_header empty_input) as [hd|] eqn:Hp;
    [|vm_compute in Hp; discriminate].
  assert (Hhd : h_version hd = 0 /\ dtrue (h_skewX hd) = false
                /\ dtrue (h_skewY hd) = false /\ h_numBands hd = 1
                /\ h_width hd = 0).
  { vm_compute in Hp. injection Hp as <-. repeat split. }
  destruct Hhd as (Hv & Hx & Hy & Hn & Hw).
  apply (X12_empty_raster empty_input 63 x00 hd (byte_of 4)
                          Hp Hv Hx Hy Hn).
  - reflexivity.
  - split; [reflexivity | right; reflexivity].
  - left. exact Hw.
  - vm_compute. lia.
Defined.

(** ** Only the bytes consumed matter *)

Section Prefix.

Variables wkb1 wkb2 : list byte.

Variable body : list byte -> Z -> Z -> list byte -> M (list byte).
Variable stores : Z -> Z -> Z -> byte -> list byte -> option (list byte).
Hypothesis body_one_byte : forall wkb y x d s,
  body wkb y x d s = one_byte_body wkb (stores y x) d s.

Lemma rows_prefix n y d s d' s' :
  rows (body wkb1) y n d s = Some (d', s') ->
  agree wkb1 wkb2 (ptr_ s) (ptr_ s') ->
  rows (body wkb2) y n d s = Some (d', s').
Proof.
  intros H Ha.
  pose proof (rows_step body stores body_one_byte wkb1 n y d s _ _ H) as Hs.
  pose proof (rows_sim wkb1 wkb2 body stores body_one_byte n y d s s
                       (cur_eq_refl s)) as Hsim.
  rewrite Hs in Ha. cbn [ptr_ advance] in Ha.
  specialize (Hsim Ha). rewrite H in Hsim.
  destruct (rows (body wkb2) y n d s) as [[d2 s2]|] eqn:H2; [|contradiction].
  destruct Hsim as [<- _].
  rewrite (rows_step body stores body_one_byte wkb2 n y d s _ _ H2), Hs.
  reflexivity.
Qed.

End Prefix.

Lemma read_grayscale_prefix wkb1 wkb2 r s r' s' :
  read_grayscale wkb1 r s = Some (r', s') ->
  agree wkb1 wkb2 (ptr_ s) (ptr_ s') ->
  read_grayscale wkb2 r s = Some (r', s').
Proof.
  intros H Ha.
  destruct (read_grayscale_facts _ _ _ _ _ H) as (tag & Ht & _ & Hc & _).
  destruct Hc as (Hp & _). cbn [ptr_ advance] in Hp.
  assert (Ht2 : nth_error wkb2 (ptr_ s) = Some tag).
  { rewrite <- Ht. symmetry. apply Ha. rewrite Hp.
    destruct (band_skipped tag); lia. }
  destruct (band_skipped tag) eqn:Hsk.
  - rewrite (read_grayscale_skip _ _ _ _ Ht Hsk) in H.
    rewrite (read_grayscale_skip _ _ _ _ Ht2 Hsk). exact H.
  - rewrite (read_grayscale_processed _ _ _ _ Ht Hsk) in H.
    rewrite (read_grayscale_processed _ _ _ _ Ht2 Hsk).
    rewrite <- (Ha (ptr_ s + 1)%nat) by lia.
    destruct (nth_error wkb1 (ptr_ s + 1)) as [nd|]; [|discriminate].
    destruct (rows (grayscale_pixel wkb1 4) _ _ _ _) as [[d1 s1]|] eqn:Hr;
      [|discriminate].
    injection H as Hr' Hs'. subst r' s1.
    rewrite (rows_prefix wkb1 wkb2 (fun wkb => grayscale_pixel wkb 4)
               (grayscale_stores 4)
               (fun wkb => grayscale_pixel_one_byte wkb 4) _ _ _ _ _ _ Hr).
    + reflexivity.
    + cbn [ptr_ add_warnings advance].
      eapply agree_sub; [exact Ha | lia | lia].
Qed.

Lemma rgb_band_prefix wkb1 wkb2 bn nd d s acc' s' :
  rgb_band wkb1 bn (nd, d) s = Some (acc', s') ->
  agree wkb1 wkb2 (ptr_ s) (ptr_ s') ->
  rgb_band wkb2 bn (nd, d) s = Some (acc', s').
Proof.
  intros H Ha. destruct acc' as [nd' d'].
  destruct (rgb_band_facts _ _ _ _ _ _ _ _ H) as (tag & Ht & _ & Hc & _).
  destruct Hc as (Hp & _). cbn [ptr_ advance] in Hp.
  assert (Ht2 : nth_error wkb2 (ptr_ s) = Some tag).
  { rewrite <- Ht. symmetry. apply Ha. rewrite Hp.
    destruct (band_skipped tag); lia. }
  destruct (band_skipped tag) eqn:Hsk.
  - rewrite (rgb_band_skip _ _ _ _ _ Ht Hsk) in H.
    rewrite (rgb_band_skip _ _ _ _ _ Ht2 Hsk). exact H.
  - rewrite (rgb_band_processed _ _ _ _ _ _ Ht Hsk) in H.
    rewrite (rgb_band_processed _ _ _ _ _ _ Ht2 Hsk).
    rewrite <- (Ha (ptr_ s + 1)%nat) by lia.
    destruct (nth_error wkb1 (ptr_ s + 1)) as [tmp|]; [|discriminate].
    destruct (rows (rgb_pixel wkb1 4 bn) _ _ _ _) as [[d1 s1]|] eqn:Hr;
      [|discriminate].
    injection H as Hnd Hd Hs'. subst nd' d' s1.
    rewrite (rows_prefix wkb1 wkb2 (fun wkb => rgb_pixel wkb 4 bn)
               (rgb_stores 4 bn)
               (fun wkb => rgb_pixel_one_byte wkb 4 bn) _ _ _ _ _ _ Hr).
    + reflexivity.
    + cbn [ptr_ add_warnings advance].
      eapply agree_sub; [exact Ha | lia | lia].
Qed.

Lemma band_loop_prefix wkb1 wkb2 : forall k bn nd d s acc' s',
  for_loop k bn (rgb_band wkb1) (nd, d) s = Some (acc', s') ->
  agree wkb1 wkb2 (ptr_ s) (ptr_ s') ->
  for_loop k bn (rgb_band wkb2) (nd, d) s = Some (acc', s').
Proof.
  induction k as [|k IH]; intros bn nd d s acc' s' H Ha; cbn [for_loop] in *.
  - exact H.
  - unfold bind in *.
    destruct (rgb_band wkb1 bn (nd, d) s) as [[[nd1 d1] s1]|] eqn:Hb;
      [|discriminate].
    destruct (rgb_band_facts _ _ _ _ _ _ _ _ Hb) as (tag & _ & _ & Hc & _).
    destruct Hc as (Hp & _). cbn [ptr_ advance] in Hp.
    destruct (band_loop_facts _ _ _ _ _ _ _ _ H) as (_ & _ & Hmono & _).
    rewrite (rgb_band_prefix _ wkb2 _ _ _ _ _ _ Hb).
    + apply IH; [exact H|]. eapply agree_sub; [exact Ha | lia | lia].
    + eapply agree_sub; [exact Ha | lia | lia].
Qed.

Lemma read_rgb_prefix wkb1 wkb2 uninit r s r' s' :
  read_rgb wkb1 uninit r s = Some (r', s') ->
  agree wkb1 wkb2 (ptr_ s) (ptr_ s') ->
  read_rgb wkb2 uninit r s = Some (r', s').
Proof.
  unfold read_rgb, bind, get, ret. cbv zeta.
  destruct (for_loop _ _ (rgb_band wkb1) _ _) as [[acc s1]|] eqn:E;
    [|discriminate].
  intros H Ha. injection H as Hr Hs. subst s1.
  rewrite (band_loop_prefix _ wkb2 _ _ _ _ _ _ _ E Ha). rewrite Hr.
  reflexivity.
Qed.

Lemma decode_bands_prefix wkb1 wkb2 uninit hd s r s' :
  decode_bands wkb1 uninit hd s = Some (r, s') ->
  (ptr_ s <= ptr_ s')%nat
  /\ (agree wkb1 wkb2 (ptr_ s) (ptr_ s') ->
      decode_bands wkb2 uninit hd s = Some (r, s')).
Proof.
  unfold decode_bands.
  destruct (dtrue (h_skewX hd) || dtrue (h_skewY hd)).
  { unfold bind, warn, ret. intros H. injection H as <- <-.
    cbn [ptr_]. split; [lia | reflexivity]. }
  cbv zeta.
  destruct (h_numBands hd =? 1).
  { unfold bind, ret.
    destruct (read_grayscale wkb1 _ s) as [[r1 s1]|] eqn:E; [|discriminate].
    intros H. injection H as <- <-.
    destruct (read_grayscale_facts _ _ _ _ _ E) as (tag & _ & _ & Hc & _).
    destruct Hc as (Hp & _). cbn [ptr_ advance] in Hp. split; [lia|].
    intros Ha. rewrite (read_grayscale_prefix _ wkb2 _ _ _ _ E Ha).
    reflexivity. }
  destruct (h_numBands hd =? 3).
  { unfold bind, ret.
    destruct (read_rgb wkb1 uninit _ s) as [[r1 s1]|] eqn:E; [|discriminate].
    intros H. injection H as <- <-.
    assert (Hmono : (ptr_ s <= ptr_ s1)%nat).
    { revert E. unfold read_rgb. unfold bind at 1. unfold get at 1.
      unfold bind, ret.
      destruct (for_loop _ _ _ _ _) as [[acc s2]|] eqn:E2; [|discriminate].
      intros H. injection H as _ <-.
      apply band_loop_facts in E2. lia. }
    split; [exact Hmono|].
    intros Ha. rewrite (read_rgb_prefix _ wkb2 _ _ _ _ _ E Ha).
    reflexivity. }
  unfold bind, warn, ret. intros H. injection H as <- <-.
  cbn [ptr_]. split; [lia | reflexivity].
Qed.

Lemma get_raster_prefix wkb1 wkb2 uninit size r s' :
  get_raster wkb1 uninit (pgraster_wkb_reader size) = Some (r, s') ->
  agree wkb1 wkb2 0 (ptr_ s') ->
  get_raster wkb2 uninit (pgraster_wkb_reader size) = Some (r, s').
Proof.
  rewrite !get_raster_cases. unfold get_raster_spec.
  destruct (hdr_version wkb1) as [v|] eqn:Hv; [|discriminate].
  destruct (nonzero v) eqn:Hnz.
  - intros H Ha. injection H as <- <-. cbn [ptr_] in Ha.
    rewrite <- (hdr_version_agree _ _ Ha), Hv, Hnz. reflexivity.
  - destruct (parse_header wkb1) as [hd|] eqn:Hp; [|discriminate].
    intros H Ha.
    destruct (decode_bands_prefix wkb1 wkb2 _ _ _ _ _ H) as [Hmono Hpre].
    cbn [ptr_ after_header] in Hmono, Hpre.
    assert (Hp2 : parse_header wkb2 = Some hd).
    { rewrite <- Hp. symmetry. apply parse_header_agree.
      eapply agree_sub; [exact Ha | lia | lia]. }
    pose proof (parse_header_version _ _ Hp) as Hv1.
    rewrite Hv in Hv1. injection Hv1 as Hv1.
    rewrite (parse_header_version _ _ Hp2), <- Hv1, Hnz, Hp2.
    apply Hpre. eapply agree_sub; [exact Ha | unfold HEADER_SIZE; lia | lia].
Qed.

(** X11: the result of [get_raster] depends only on the bytes the cursor
    went over: if a call is defined and ends with the cursor at [c], then on
    any input with the same first [c] bytes, whatever follows them and
    however long it is, the call returns the same raster (or null), logs the
    same warnings and ends at [c] as well. *)
Theorem X11_only_consumed_bytes wkb wkb' size uninit c :
  final_cursor wkb size uninit = Some c ->
  firstn c wkb' = firstn c wkb ->
  decode wkb' size uninit = decode wkb size uninit
  /\ final_cursor wkb' size uninit = Some c.
Proof.
  unfold final_cursor, decode. intros Hc Hf.
  destruct (get_raster wkb uninit (pgraster_wkb_reader size))
    as [[r s']|] eqn:Hg; [|discriminate].
  injection Hc as <-.
  rewrite (get_raster_prefix wkb wkb' _ _ _ _ Hg).
  - split; reflexivity.
  - apply agree_firstn. symmetry. exact Hf.
Qed.

Lemma X11_only_consumed_bytes_witness :
  decode (scenario_gray ++ bytes [7; 8; 9]) 65 x00
  = decode scenario_gray 65 x00
  /\ final_cursor (scenario_gray ++ bytes [7; 8; 9]) 65 x00 = Some 65%nat.
Proof.
  apply (X11_only_consumed_bytes scenario_gray
           (scenario_gray ++ bytes [7; 8; 9]) 65 x00 65); reflexivity.
Defined.

(** ** The local [nodataval], read before it is assigned *)

Lemma band_rel_refl wkb n p : band_rel wkb wkb n p.
Proof.
  unfold band_rel. destruct (nth_error wkb p) as [t|]; [|exact I].
  split; [reflexivity|]. intros _. split.
  - unfold same_some. destruct (nth_error wkb (p + 1)); exact I.
  - intros i _. reflexivity.
Qed.

Lemma bands_rel_refl wkb n : forall k p, bands_rel wkb wkb n k p.
Proof.
  induction k as [|k IH]; intros p; cbn [bands_rel]; [exact I|].
  split; [apply band_rel_refl | apply IH].
Qed.

Lemma rgb_band_first wkb u u' d s tag :
  nth_error wkb (ptr_ s) = Some tag -> band_skipped tag = false ->
  rgb_band wkb 0 (u, d) s = rgb_band wkb 0 (u', d) s.
Proof.
  intros Ht Hsk. rewrite !(rgb_band_processed _ _ _ _ _ _ Ht Hsk).
  reflexivity.
Qed.

(** X9: the 3-band path compares nodata values with a local variable that
    is assigned for band 0 only, and only if band 0 is processed; before
    that it holds whatever was there.  That content never changes the
    raster returned; it does not change the warnings either when the byte
    after the header is the tag of a processed band; but it does change
    them for some inputs whose band 0 is skipped. *)
Theorem X9_uninitialised_nodataval :
  (forall wkb size u u',
      outcome (decode wkb size u) = outcome (decode wkb size u'))
  /\ (forall wkb size u u' tag,
         nth_error wkb HEADER_SIZE = Some tag -> band_skipped tag = false ->
         decode wkb size u = decode wkb size u')
  /\ (exists wkb size u u' tag,
         nth_error wkb HEADER_SIZE = Some tag /\ band_skipped tag = true
         /\ decode wkb size u <> decode wkb size u').
Proof.
  split; [|split].
  - intros wkb size u u'. apply decode_sim.
    + intros i _. reflexivity.
    + intros i _. reflexivity.
    + reflexivity.
    + intros hd _. apply bands_rel_refl.
  - intros wkb size u u' tag Ht Hsk. unfold decode.
    rewrite !get_raster_cases. unfold get_raster_spec.
    destruct (hdr_version wkb) as [v|]; [|reflexivity].
    destruct (nonzero v); [reflexivity|].
    destruct (parse_header wkb) as [hd|]; [|reflexivity].
    unfold decode_bands.
    destruct (dtrue (h_skewX hd) || dtrue (h_skewY hd)); [reflexivity|].
    cbv zeta.
    destruct (h_numBands hd =? 1); [reflexivity|].
    destruct (Z.eqb_spec (h_numBands hd) 3) as [Hn|]; [|reflexivity].
    unfold read_rgb, bind, get. cbv zeta.
    cbn [numBands_ after_header]. rewrite Hn.
    change (Z.to_nat 3) with 3%nat. cbn [for_loop]. unfold bind.
    match goal with
    | |- context [rgb_band wkb 0 (u, ?d) ?s] =>
        rewrite (rgb_band_first wkb u u' d s tag Ht Hsk)
    end.
    reflexivity.
  - exists offline_first_input, 70, (byte_of 7), (byte_of 0), (byte_of 132).
    split; [reflexivity|]. split; [reflexivity|].
    vm_compute. discriminate.
Qed.

Lemma X9_uninitialised_nodataval_witness :
  decode scenario_rgb 73 (byte_of 7) = decode scenario_rgb 73 (byte_of 0).
Proof.
  apply (proj1 (proj2 X9_uninitialised_nodataval)
               scenario_rgb 73 (byte_of 7) (byte_of 0) (byte_of 4));
    reflexivity.
Defined.

(** ** Three bands, skipped or processed *)

Lemma next_band_ge wkb n p : (p <= next_band wkb n p)%nat.
Proof.
  unfold next_band.
  destruct (nth_error wkb p) as [t|]; [destruct (band_skipped t)|]; lia.
Qed.

Lemma bands_end_ge wkb n : forall k p, (p <= bands_end wkb n k p)%nat.
Proof.
  induction k as [|k IH]; intros p; cbn [bands_end]; [lia|].
  pose proof (next_band_ge wkb n p). pose proof (IH (next_band wkb n p)). lia.
Qed.

Lemma band_loop_channels wkb n : forall k bn nd d s,
  payload_size s = n -> 0 <= width_ s -> 0 <= height_ s ->
  4 * (height_ s * width_ s) <= INT_MAX ->
  length d = (4 * n)%nat ->
  (bn + k <= 4)%nat ->
  (forall j, (j < k)%nat ->
             exists tag, nth_error wkb (bands_end wkb n j (ptr_ s)) = Some tag) ->
  (bands_end wkb n k (ptr_ s) <= length wkb)%nat ->
  exists acc' s',
    for_loop k (Z.of_nat bn) (rgb_band wkb) (nd, d) s = Some (acc', s')
    /\ forall q c, (q < n)%nat -> (c < 4)%nat ->
         nth_error (snd acc') (4 * q + c)
         = if Nat.leb bn c && Nat.ltb c (bn + k)
           then band_channel wkb (bands_end wkb n (c - bn) (ptr_ s)) q
                             (nth_error d (4 * q + c))
           else nth_error d (4 * q + c).
Proof.
  induction k as [|k IH]; intros bn nd d s Hn Hw Hh Hint Hd Hbn Htags Hlen.
  - cbn [for_loop]. exists (nd, d), s. split; [reflexivity|].
    intros q c Hq Hc. cbn [snd].
    destruct (Nat.leb_spec bn c), (Nat.ltb_spec c (bn + 0)); cbn [andb];
      try reflexivity; lia.
  - destruct (Htags 0%nat) as [tag Ht]; [lia|]. cbn [bands_end] in Ht.
    pose proof (next_band_some wkb n (ptr_ s) tag Ht) as Hnb.
    cbn [bands_end] in Hlen.
    cbn [for_loop]. unfold bind at 1.
    replace (Z.of_nat bn + 1) with (Z.of_nat (S bn)) by lia.
    destruct (band_skipped tag) eqn:Hsk.
    + rewrite (rgb_band_skip _ _ _ _ _ Ht Hsk).
      set (s1 := add_warnings _ (advance 1 s)).
      assert (Hp1 : ptr_ s1 = next_band wkb n (ptr_ s))
        by (rewrite Hnb; reflexivity).
      destruct (IH (S bn) nd d s1) as (acc' & s' & Hrun & Hch); auto.
      * lia.
      * intros j Hj. rewrite Hp1. apply (Htags (S j)). lia.
      * rewrite Hp1. exact Hlen.
      * exists acc', s'. split; [exact Hrun|].
        intros q c Hq Hc. rewrite (Hch q c Hq Hc).
        destruct (Nat.leb_spec (S bn) c), (Nat.ltb_spec c (S bn + k)),
          (Nat.leb_spec bn c), (Nat.ltb_spec c (bn + S k));
          cbn [andb]; try reflexivity; try lia.
        -- replace (c - bn)%nat with (S (c - S bn)) by lia.
           cbn [bands_end]. rewrite Hp1. reflexivity.
        -- assert (c = bn) by lia. subst c. rewrite Nat.sub_diag.
           cbn [bands_end]. unfold band_channel. rewrite Ht, Hsk.
           reflexivity.
    + pose proof (bands_end_ge wkb n k (next_band wkb n (ptr_ s))) as Hge.
      rewrite Hnb in Hge, Hlen.
      destruct (nth_error wkb (ptr_ s + 1)) as [tmp|] eqn:Htmp.
      2:{ apply nth_error_None in Htmp. lia. }
      rewrite (rgb_band_supported wkb (Z.of_nat bn) nd d s tag tmp)
        by (rewrite ?Hn; auto; lia).
      rewrite Nat2Z.id, Hn.
      set (s1 := advance (2 + n) _).
      set (d1 := fill [bn] 0 (slice wkb (ptr_ s + 2) n) d).
      assert (Hp1 : ptr_ s1 = next_band wkb n (ptr_ s))
        by (rewrite Hnb; subst s1; cbn [ptr_ add_warnings advance]; lia).
      assert (Hd1 : length d1 = (4 * n)%nat)
        by (subst d1; rewrite length_fill; exact Hd).
      destruct (IH (S bn) (if negb (nonzero (Z.of_nat bn)) then tmp else nd)
                   d1 s1) as (acc' & s' & Hrun & Hch); auto.
      * lia.
      * intros j Hj. rewrite Hp1. apply (Htags (S j)). lia.
      * exists acc', s'. split; [exact Hrun|].
        intros q c Hq Hc. rewrite (Hch q c Hq Hc).
        assert (Hfill : nth_error d1 (4 * q + c)
                        = if Nat.eqb c bn then nth_error wkb (ptr_ s + 2 + q)
                          else nth_error d (4 * q + c)).
        { subst d1.
          rewrite nth_error_fill;
            [ | rewrite length_slice; lia | lia
              | constructor; [lia | constructor] ].
          rewrite length_slice by lia.
          destruct (Nat.ltb_spec q (0 + n)); [|lia].
          cbn [Nat.leb andb existsb]. rewrite orb_false_r, Nat.sub_0_r.
          destruct (Nat.eqb c bn); [|reflexivity].
          apply nth_error_slice. lia. }
        destruct (Nat.leb_spec (S bn) c), (Nat.ltb_spec c (S bn + k)),
          (Nat.leb_spec bn c), (Nat.ltb_spec c (bn + S k));
          cbn [andb]; try lia.
        -- replace (c - bn)%nat with (S (c - S bn)) by lia.
           cbn [bands_end]. rewrite Hp1.
           unfold band_channel. rewrite Hfill.
           destruct (Nat.eqb_spec c bn); [lia|]. reflexivity.
        -- rewrite Hfill. destruct (Nat.eqb_spec c bn); [lia|]. reflexivity.
        -- assert (c = bn) by lia. subst c. rewrite Nat.sub_diag.
           cbn [bands_end]. unfold band_channel. rewrite Ht, Hsk, Hfill.
           rewrite Nat.eqb_refl. reflexivity.
        -- rewrite Hfill. destruct (Nat.eqb_spec c bn); [lia|]. reflexivity.
Qed.



(** ** The header on the wire *)

Lemma int32_of_bytes v :
  - 2 ^ 31 <= v < 2 ^ 31 -> int32 (v mod 2 ^ 32) = v.
Proof.
  intros H. unfold int32. pows. Z.div_mod_to_equations. lia.
Qed.



(** ** The tag of a band *)


(** ** The nodata byte of a single band *)

Lemma hasnodata_bit tag :
  nonzero (BANDTYPE_HAS_NODATA (u8 tag)) = Z.testbit (u8 tag) 6.
Proof. destruct tag; reflexivity. Qed.

Lemma decode_gray_processed wkb size uninit hd tag :
  parse_header wkb = Some hd -> h_version hd = 0 ->
  dtrue (h_skewX hd) = false -> dtrue (h_skewY hd) = false ->
  h_numBands hd = 1 ->
  nth_error wkb HEADER_SIZE = Some tag -> band_skipped tag = false ->
  get_raster wkb uninit (pgraster_wkb_reader size)
  = match nth_error wkb (HEADER_SIZE + 1) with
    | None => None
    | Some _ =>
        match rows (grayscale_pixel wkb 4) 0 (Z.to_nat (h_height hd))
                   (repeat xff (Z.to_nat (4 * h_width hd * h_height hd)))
                   (add_warnings (nodata_warning tag)
                                 (advance 2 (after_header size hd []))) with
        | Some (d', s') =>
            Some (Some (mk_raster (header_extent hd) (h_width hd)
                                  (h_height hd) d' true), s')
        | None => None
        end
    end.
Proof.
  intros Hp Hv Hx Hy Hn Ht Hsk.
  rewrite (get_raster_header _ _ _ _ Hp Hv), decode_bands_gray by assumption.
  unfold bind.
  rewrite (read_grayscale_processed wkb _ (after_header size hd []) tag Ht Hsk).
  cbn [ptr_ after_header height_].
  destruct (nth_error wkb (HEADER_SIZE + 1)); [|reflexivity].
  unfold new_raster. cbn [data_]. rewrite map_repeat.
  destruct (rows _ _ _ _ _) as [[d' s']|]; reflexivity.
Qed.


